(** * RAIDA Key Exchange (RKE): a shallow embedding of the C sources

    The development follows the layout of the repository:

    - [src/common/aes.h]           : [crypt_ctr]
    - [src/rke/rke_crypto.c]       : [simple_sha256], checksums
    - [src/rke/rke_core.c]         : the process-global fragment array,
                                     [rke_split_key], [rke_reconstruct_key]
    - [src/rke/rke_storage.c]      : fragment and metadata files
    - [src/rke/rke_protocol.c]     : the [cmd_rke_*] handlers
    - [examples/cmd_key_exechange.c] : the legacy encryption-coin handlers

    Conventions.  An [unsigned char] is a [Z] in [0, 256); the bit
    operations are those of [Z].  C arrays are lists, read with [nth] and
    written with stdpp's list insert.  A [for] loop over an index is
    [for_loop].  Everything the C code obtains from its environment (the
    entropy device, the clock, the allocator, the file system, the page
    store) is a field of the [world] the handlers thread through. *)

From Stdlib Require Import ZArith List Lia Bool String Ascii.
From stdpp Require Import base gmap strings list fin_maps.

Local Open Scope Z_scope.

(** ** Loops and byte buffers *)

(** [for (i = lo; i < lo + n; i++) s = body i s] *)
Fixpoint for_loop {S : Type} (n : nat) (lo : nat) (body : nat -> S -> S) (s : S) : S :=
  match n with
  | O => s
  | Datatypes.S n' => for_loop n' (Datatypes.S lo) body (body lo s)
  end.

(** [buf[i]] for a byte buffer; reads past the end yield 0 (the C code
    never performs them on the inputs considered below). *)
Definition byte_at (buf : list Z) (i : nat) : Z := nth i buf 0.

(** [memset(buf, 0, n)] on a fresh buffer. *)
Definition zeros (n : nat) : list Z := repeat 0 n.

(** [memcpy(dst, src, n)]: the first [n] bytes of [dst] are replaced. *)
Definition memcpy (dst src : list Z) (n : nat) : list Z :=
  for_loop n 0%nat (fun i d => <[i := byte_at src i]> d) dst.

(** [memcmp(a, b, n) == 0] *)
Definition memcmp_eq (a b : list Z) (n : nat) : bool :=
  for_loop n 0%nat (fun i ok => ok && (byte_at a i =? byte_at b i)) true.

(** ** [src/common/aes.h] *)
Module Aes.

(** <<
    for (size_t i = 0; i < length; i++)
        data[i] ^= key[i % 16] ^ nonce[i % 16];
    >> *)
Definition crypt_ctr (key data : list Z) (length : nat) (nonce : list Z) : list Z :=
  for_loop length 0%nat
    (fun i d =>
       <[i := Z.lxor (byte_at d i)
                     (Z.lxor (byte_at key (i mod 16)) (byte_at nonce (i mod 16)))]> d)
    data.

End Aes.

(** ** [src/rke/rke_crypto.c]: the hash *)
Module Sha256.

Definition u32 (x : Z) : Z := x mod 2 ^ 32.

(** The round constants, row by row as in the C table. *)
Definition k : list Z :=
  [0x428a2f98; 0x71374491; 0xb5c0fbcf; 0xe9b5dba5; 0x3956c25b; 0x59f111f1; 0x923f82a4; 0xab1c5ed5] ++
  [0xd807aa98; 0x12835b01; 0x243185be; 0x550c7dc3; 0x72be5d74; 0x80deb1fe; 0x9bdc06a7; 0xc19bf174] ++
  [0xe49b69c1; 0xefbe4786; 0x0fc19dc6; 0x240ca1cc; 0x2de92c6f; 0x4a7484aa; 0x5cb0a9dc; 0x76f988da] ++
  [0x983e5152; 0xa831c66d; 0xb00327c8; 0xbf597fc7; 0xc6e00bf3; 0xd5a79147; 0x06ca6351; 0x14292967] ++
  [0x27b70a85; 0x2e1b2138; 0x4d2c6dfc; 0x53380d13; 0x650a7354; 0x766a0abb; 0x81c2c92e; 0x92722c85] ++
  [0xa2bfe8a1; 0xa81a664b; 0xc24b8b70; 0xc76c51a3; 0xd192e819; 0xd6990624; 0xf40e3585; 0x106aa070] ++
  [0x19a4c116; 0x1e376c08; 0x2748774c; 0x34b0bcb5; 0x391c0cb3; 0x4ed8aa4a; 0x5b9cca4f; 0x682e6ff3] ++
  [0x748f82ee; 0x78a5636f; 0x84c87814; 0x8cc70208; 0x90befffa; 0xa4506ceb; 0xbef9a3f7; 0xc67178f2].

Definition rotr (x n : Z) : Z := u32 (Z.lor (Z.shiftr x n) (Z.shiftl x (32 - n))).
Definition not32 (x : Z) : Z := Z.lxor x 0xffffffff.
Definition ch (x y z : Z) : Z := Z.lxor (Z.land x y) (Z.land (not32 x) z).
Definition maj (x y z : Z) : Z := Z.lxor (Z.lxor (Z.land x y) (Z.land x z)) (Z.land y z).
Definition ep0 (x : Z) : Z := Z.lxor (Z.lxor (rotr x 2) (rotr x 13)) (rotr x 22).
Definition ep1 (x : Z) : Z := Z.lxor (Z.lxor (rotr x 6) (rotr x 11)) (rotr x 25).
Definition sig0 (x : Z) : Z := Z.lxor (Z.lxor (rotr x 7) (rotr x 18)) (Z.shiftr x 3).
Definition sig1 (x : Z) : Z := Z.lxor (Z.lxor (rotr x 17) (rotr x 19)) (Z.shiftr x 10).

Definition word_at (w : list Z) (i : nat) : Z := nth i w 0.

(** [while (padded_len % 64 != 56) padded[padded_len++] = 0;]  At most 63
    iterations are ever needed, so 64 units of fuel always suffice. *)
Fixpoint pad_zeros (fuel : nat) (padded : list Z) : list Z :=
  match fuel with
  | O => padded
  | Datatypes.S fuel' =>
      if (length padded mod 64 =? 56)%nat then padded
      else pad_zeros fuel' (padded ++ [0])
  end.

(** The padded message: the data, [0x80], zeros, the bit length on 8
    bytes, most significant first. *)
Definition pad (data : list Z) : list Z :=
  let len := length data in
  let padded := pad_zeros 64 (data ++ [0x80]) in
  let bit_len := Z.of_nat len * 8 in
  for_loop 8 0%nat
    (fun i p => p ++ [Z.land (Z.shiftr bit_len (56 - Z.of_nat i * 8)) 0xff])
    padded.

(** The message schedule of the chunk starting at [chunk]. *)
Definition schedule (padded : list Z) (chunk : nat) : list Z :=
  let w16 :=
    for_loop 16 0%nat
      (fun i w =>
         w ++ [u32 (Z.lor (Z.lor (Z.lor (Z.shiftl (byte_at padded (chunk + i * 4)) 24)
                                        (Z.shiftl (byte_at padded (chunk + i * 4 + 1)) 16))
                                 (Z.shiftl (byte_at padded (chunk + i * 4 + 2)) 8))
                          (byte_at padded (chunk + i * 4 + 3)))])
      [] in
  for_loop 48 16%nat
    (fun i w =>
       w ++ [u32 (sig1 (word_at w (i - 2)) + word_at w (i - 7)
                  + sig0 (word_at w (i - 15)) + word_at w (i - 16))])
    w16.

(** The eight working variables [a .. h_var], also used for [h[0..7]]. *)
Record regs := Regs { ra : Z; rb : Z; rc : Z; rd : Z; re : Z; rf : Z; rg : Z; rh : Z }.

Definition round (w : list Z) (i : nat) (r : regs) : regs :=
  let t1 := u32 (rh r + ep1 (re r) + ch (re r) (rf r) (rg r) + word_at k i + word_at w i) in
  let t2 := u32 (ep0 (ra r) + maj (ra r) (rb r) (rc r)) in
  {| rh := rg r; rg := rf r; rf := re r; re := u32 (rd r + t1);
     rd := rc r; rc := rb r; rb := ra r; ra := u32 (t1 + t2) |}.

Definition process_chunk (padded : list Z) (chunk : nat) (h : regs) : regs :=
  let w := schedule padded chunk in
  let r := for_loop 64 0%nat (round w) h in
  {| ra := u32 (ra h + ra r); rb := u32 (rb h + rb r); rc := u32 (rc h + rc r);
     rd := u32 (rd h + rd r); re := u32 (re h + re r); rf := u32 (rf h + rf r);
     rg := u32 (rg h + rg r); rh := u32 (rh h + rh r) |}.

Definition h_init : regs :=
  {| ra := 0x6a09e667; rb := 0xbb67ae85; rc := 0x3c6ef372; rd := 0xa54ff53a;
     re := 0x510e527f; rf := 0x9b05688c; rg := 0x1f83d9ab; rh := 0x5be0cd19 |}.

Definition word_bytes (x : Z) : list Z :=
  [ Z.land (Z.shiftr x 24) 0xff; Z.land (Z.shiftr x 16) 0xff;
    Z.land (Z.shiftr x 8) 0xff; Z.land x 0xff ].

(** [simple_sha256(data, len, hash)]: the 32 bytes written to [hash], for
    an input of at most 503 bytes.  The C function builds the padded
    message in [padded[512]]; a longer input makes it write past that
    array, which this definition does not follow. *)
Definition simple_sha256 (data : list Z) : list Z :=
  let padded := pad data in
  let h := for_loop (length padded / 64) 0%nat
             (fun c h => process_chunk padded (c * 64) h) h_init in
  word_bytes (ra h) ++ word_bytes (rb h) ++ word_bytes (rc h) ++ word_bytes (rd h) ++
  word_bytes (re h) ++ word_bytes (rf h) ++ word_bytes (rg h) ++ word_bytes (rh h).

End Sha256.

(** ** [src/rke/rke.h] *)

Definition RKE_MAX_KEY_SIZE : Z := 256.
Definition RKE_MAX_FRAGMENTS : Z := 255.
Definition RKE_MIN_THRESHOLD : Z := 2.
Definition RKE_FRAGMENT_DATA_SIZE : nat := 256.
Definition RKE_CHECKSUM_SIZE : nat := 32.
Definition RKE_KEY_ID_SIZE : nat := 16.

Definition RKE_KEY_TYPE_SYMMETRIC : Z := 0x01.
Definition RKE_KEY_TYPE_EPHEMERAL : Z := 0x02.

Definition RKE_SUCCESS : Z := 0.
Definition RKE_ERROR_INVALID_PARAM : Z := -1.
Definition RKE_ERROR_MEMORY_ALLOC : Z := -2.
Definition RKE_ERROR_CRYPTO_FAIL : Z := -3.
Definition RKE_ERROR_STORAGE_FAIL : Z := -4.
Definition RKE_ERROR_FRAGMENT_CORRUPT : Z := -5.
Definition RKE_ERROR_INSUFFICIENT_FRAGMENTS : Z := -6.
Definition RKE_ERROR_SESSION_EXPIRED : Z := -7.

(** [struct rke_fragment_t] *)
Record rke_fragment_t := Fragment {
  fragment_id : Z;        (* uint8_t  *)
  total_fragments : Z;    (* uint8_t  *)
  threshold : Z;          (* uint8_t  *)
  fragment_size : Z;      (* uint16_t *)
  data : list Z;          (* unsigned char [RKE_FRAGMENT_DATA_SIZE] *)
  checksum : list Z       (* unsigned char [RKE_CHECKSUM_SIZE] *)
}.

(** [struct rke_key_metadata_t]; [md_total_fragments] and [md_threshold]
    are its [total_fragments] and [threshold] members. *)
Record rke_key_metadata_t := Metadata {
  key_id : list Z;        (* unsigned char [RKE_KEY_ID_SIZE] *)
  key_type : Z;           (* uint8_t  *)
  md_total_fragments : Z; (* uint8_t  *)
  md_threshold : Z;       (* uint8_t  *)
  timestamp : Z;          (* uint32_t *)
  den : Z;                (* uint8_t  *)
  sn : Z                  (* uint32_t *)
}.

Definition set_data (f : rke_fragment_t) (d : list Z) : rke_fragment_t :=
  {| fragment_id := fragment_id f; total_fragments := total_fragments f;
     threshold := threshold f; fragment_size := fragment_size f;
     data := d; checksum := checksum f |}.

Definition set_checksum (f : rke_fragment_t) (c : list Z) : rke_fragment_t :=
  {| fragment_id := fragment_id f; total_fragments := total_fragments f;
     threshold := threshold f; fragment_size := fragment_size f;
     data := data f; checksum := c |}.

(** A zero-filled [struct rke_fragment_t]. *)
Definition zero_fragment : rke_fragment_t :=
  {| fragment_id := 0; total_fragments := 0; threshold := 0; fragment_size := 0;
     data := zeros RKE_FRAGMENT_DATA_SIZE; checksum := zeros RKE_CHECKSUM_SIZE |}.

(** ** [src/common/utils.h]: the entropy device *)

(** What [/dev/urandom] does on each successive [fopen]/[fread]: [None]
    when it cannot be opened, [Some bs] when it can deliver the bytes [bs]
    (and no more).  An exhausted list stands for a device that is gone. *)
Definition entropy := list (option (list Z)).

(** [secure_random_bytes(buffer, length)]: status, buffer, remaining
    entropy.  [fread] stores whatever it could read before the count is
    compared with [length]. *)
Definition secure_random_bytes (rnd : entropy) (buffer : list Z) (length : nat)
  : Z * list Z * entropy :=
  match rnd with
  | [] => (-1, buffer, [])
  | None :: rnd' => (-1, buffer, rnd')
  | Some bs :: rnd' =>
      let got := take length bs in
      let read_bytes := Datatypes.length got in
      ((if (read_bytes =? length)%nat then 0 else -1), memcpy buffer got read_bytes, rnd')
  end.

(** ** [src/rke/rke_crypto.c]: checksums *)

(** [rke_calculate_checksum(fragment)] for a non-NULL fragment: the hash
    input is the five header bytes followed by [data[0 .. fragment_size)].
    That is what the [memcpy] of [fragment_size] bytes delivers as long as
    [fragment_size] is at most [RKE_FRAGMENT_DATA_SIZE], the bound that
    [rke_validate_fragment] checks and [rke_split_key] keeps; with a
    larger [fragment_size] the C code reads on past [data], which these
    definitions do not follow. *)
Definition hash_input (fragment : rke_fragment_t) : list Z :=
  [ fragment_id fragment; total_fragments fragment; threshold fragment;
    Z.land (Z.shiftr (fragment_size fragment) 8) 0xFF;
    Z.land (fragment_size fragment) 0xFF ]
  ++ take (Z.to_nat (fragment_size fragment)) (data fragment).

Definition rke_calculate_checksum (fragment : rke_fragment_t) : Z * rke_fragment_t :=
  (RKE_SUCCESS, set_checksum fragment (Sha256.simple_sha256 (hash_input fragment))).

(** [rke_verify_checksum(fragment)] for a non-NULL fragment. *)
Definition rke_verify_checksum (fragment : rke_fragment_t) : Z :=
  let temp_fragment := set_checksum fragment (zeros RKE_CHECKSUM_SIZE) in
  let '(rv, temp_fragment) := rke_calculate_checksum temp_fragment in
  if negb (rv =? RKE_SUCCESS) then RKE_ERROR_CRYPTO_FAIL
  else if negb (memcmp_eq (checksum fragment) (checksum temp_fragment) RKE_CHECKSUM_SIZE)
       then RKE_ERROR_FRAGMENT_CORRUPT
       else RKE_SUCCESS.

(** ** [src/rke/rke_core.c] *)

(** The two file-scope variables: [fragment_storage[256]] and
    [fragment_count]. *)
Record core_state := Core {
  fragment_storage : list rke_fragment_t;
  fragment_count : Z
}.

(** The state of a freshly loaded program image. *)
Definition core_init : core_state :=
  {| fragment_storage := repeat zero_fragment 256; fragment_count := 0 |}.

Definition frag_at (storage : list rke_fragment_t) (i : nat) : rke_fragment_t :=
  nth i storage zero_fragment.

(** [for (i = 0; i < n; i++) dst[i] ^= src[i];] *)
Definition xor_into (dst src : list Z) (n : nat) : list Z :=
  for_loop n 0%nat (fun i d => <[i := Z.lxor (byte_at d i) (byte_at src i)]> d) dst.

(** [rke_generate_key(key, key_size)] for a non-NULL [key]. *)
Definition rke_generate_key (rnd : entropy) (key : list Z) (key_size : Z)
  : Z * list Z * entropy :=
  if (key_size =? 0) || (key_size >? RKE_MAX_KEY_SIZE) then (RKE_ERROR_INVALID_PARAM, key, rnd)
  else
    let '(rv, key', rnd') := secure_random_bytes rnd key (Z.to_nat key_size) in
    if negb (rv =? 0) then (RKE_ERROR_CRYPTO_FAIL, key', rnd')
    else (RKE_SUCCESS, key', rnd').

(** The fragment loop of [rke_split_key], [n] iterations from [frag_id]
    on.  The loop leaves early, with [RKE_ERROR_CRYPTO_FAIL], when the
    entropy device fails; the fragment array keeps what was written. *)
Fixpoint split_loop (n : nat) (frag_id : nat) (key : list Z) (key_size : Z)
    (metadata : rke_key_metadata_t) (storage : list rke_fragment_t) (rnd : entropy)
  : Z * list rke_fragment_t * entropy :=
  match n with
  | O => (RKE_SUCCESS, storage, rnd)
  | Datatypes.S n' =>
      let fragment :=
        {| fragment_id := Z.of_nat frag_id;
           total_fragments := md_total_fragments metadata;
           threshold := md_threshold metadata;
           fragment_size := key_size;
           data := zeros RKE_FRAGMENT_DATA_SIZE;
           checksum := checksum (frag_at storage (frag_id - 1)) |} in
      if (frag_id =? 1)%nat then
        let fragment := set_data fragment (memcpy (data fragment) key (Z.to_nat key_size)) in
        split_loop n' (Datatypes.S frag_id) key key_size metadata
                   (<[(frag_id - 1)%nat := fragment]> storage) rnd
      else
        let '(rv, mask, rnd') := secure_random_bytes rnd (data fragment) (Z.to_nat key_size) in
        let fragment := set_data fragment mask in
        let storage := <[(frag_id - 1)%nat := fragment]> storage in
        if negb (rv =? 0) then (RKE_ERROR_CRYPTO_FAIL, storage, rnd')
        else
          let first := frag_at storage 0 in
          let storage :=
            <[0%nat := set_data first (xor_into (data first) (data fragment)
                                                (Z.to_nat key_size))]> storage in
          split_loop n' (Datatypes.S frag_id) key key_size metadata storage rnd'
  end.

(** The checksum loop of [rke_split_key]. *)
Fixpoint checksum_loop (n : nat) (i : nat) (storage : list rke_fragment_t)
  : Z * list rke_fragment_t :=
  match n with
  | O => (RKE_SUCCESS, storage)
  | Datatypes.S n' =>
      let '(rv, fragment) := rke_calculate_checksum (frag_at storage i) in
      let storage := <[i := fragment]> storage in
      if negb (rv =? RKE_SUCCESS) then (RKE_ERROR_CRYPTO_FAIL, storage)
      else checksum_loop n' (Datatypes.S i) storage
  end.

(** [rke_split_key(key, key_size, metadata)] for non-NULL pointers:
    status, the two globals, the remaining entropy. *)
Definition rke_split_key (st : core_state) (rnd : entropy)
    (key : list Z) (key_size : Z) (metadata : rke_key_metadata_t)
  : Z * core_state * entropy :=
  if (key_size =? 0) || (key_size >? RKE_MAX_KEY_SIZE) then (RKE_ERROR_INVALID_PARAM, st, rnd)
  else if md_threshold metadata >? md_total_fragments metadata
  then (RKE_ERROR_INVALID_PARAM, st, rnd)
  else if md_threshold metadata <? RKE_MIN_THRESHOLD
  then (RKE_ERROR_INVALID_PARAM, st, rnd)
  else
    (* fragment_count = 0; memset(fragment_storage, 0, sizeof(fragment_storage)); *)
    let storage := repeat zero_fragment 256 in
    let '(rv, storage, rnd') :=
      split_loop (Z.to_nat (md_total_fragments metadata)) 1 key key_size metadata storage rnd in
    if negb (rv =? RKE_SUCCESS)
    then (RKE_ERROR_CRYPTO_FAIL, {| fragment_storage := storage; fragment_count := 0 |}, rnd')
    else
      let count := md_total_fragments metadata in
      let '(rv, storage) := checksum_loop (Z.to_nat (md_total_fragments metadata)) 0 storage in
      if negb (rv =? RKE_SUCCESS)
      then (RKE_ERROR_CRYPTO_FAIL, {| fragment_storage := storage; fragment_count := count |}, rnd')
      else (RKE_SUCCESS, {| fragment_storage := storage; fragment_count := count |}, rnd').

(** [rke_split_key(key, key_size, metadata)] with its first test in
    place: either pointer may be NULL, written [None]. *)
Definition rke_split_key_nullable (st : core_state) (rnd : entropy)
    (key : option (list Z)) (key_size : Z) (metadata : option rke_key_metadata_t)
  : Z * core_state * entropy :=
  match key, metadata with
  | Some key, Some metadata => rke_split_key st rnd key key_size metadata
  | _, _ => (RKE_ERROR_INVALID_PARAM, st, rnd)
  end.

(** The integrity loop of [rke_reconstruct_key]: [n] fragments from
    index [i] on. *)
Fixpoint verify_loop (n : nat) (i : nat) (storage : list rke_fragment_t) : Z :=
  match n with
  | O => RKE_SUCCESS
  | Datatypes.S n' =>
      if negb (rke_verify_checksum (frag_at storage i) =? RKE_SUCCESS)
      then RKE_ERROR_FRAGMENT_CORRUPT
      else verify_loop n' (Datatypes.S i) storage
  end.

(** [rke_reconstruct_key(key, key_size, metadata)] for non-NULL pointers:
    status and the caller's [key] buffer. *)
Definition rke_reconstruct_key (st : core_state)
    (key : list Z) (key_size : Z) (metadata : rke_key_metadata_t) : Z * list Z :=
  if key_size =? 0 then (RKE_ERROR_INVALID_PARAM, key)
  else if fragment_count st <? md_threshold metadata
  then (RKE_ERROR_INSUFFICIENT_FRAGMENTS, key)
  else if negb (verify_loop (Z.to_nat (md_threshold metadata)) 0 (fragment_storage st)
                =? RKE_SUCCESS)
  then (RKE_ERROR_FRAGMENT_CORRUPT, key)
  else
    let key := memcpy key (data (frag_at (fragment_storage st) 0)) (Z.to_nat key_size) in
    let key :=
      for_loop (Z.to_nat (fragment_count st) - 1) 1%nat
        (fun frag_idx key =>
           xor_into key (data (frag_at (fragment_storage st) frag_idx)) (Z.to_nat key_size))
        key in
    (RKE_SUCCESS, key).

(** [rke_validate_fragment(fragment)] for a non-NULL fragment. *)
Definition rke_validate_fragment (fragment : rke_fragment_t) : Z :=
  if (fragment_id fragment =? 0) || (fragment_id fragment >? total_fragments fragment)
  then RKE_ERROR_INVALID_PARAM
  else if threshold fragment >? total_fragments fragment then RKE_ERROR_INVALID_PARAM
  else if fragment_size fragment >? Z.of_nat RKE_FRAGMENT_DATA_SIZE then RKE_ERROR_INVALID_PARAM
  else RKE_SUCCESS.

(** ** [src/common/protocol.h] *)

(** [conn_info_t].  [output] is [None] for a NULL pointer. *)
Record conn_info_t := ConnInfo {
  body : list Z;
  body_size : Z;              (* uint32_t *)
  output : option (list Z);
  output_size : Z;            (* uint32_t *)
  command_status : Z;         (* int *)
  nonce : list Z              (* unsigned char [16] *)
}.

Definition NO_ERROR : Z := 0.
Definition STATUS_SUCCESS : Z := 0.
Definition ERROR_INVALID_PACKET_LENGTH : Z := -1.
Definition ERROR_INVALID_SN_OR_DENOMINATION : Z := -2.
Definition ERROR_MEMORY_ALLOC : Z := -3.
Definition ERROR_INVALID_PARAMETER : Z := -4.
Definition ERROR_FILESYSTEM : Z := -5.
Definition ERROR_COIN_LOAD : Z := -6.
Definition ERROR_COINS_NOT_DIV : Z := -7.
Definition ERROR_NXDOMAIN : Z := -8.
Definition ERROR_NXRECORD : Z := -9.
Definition ERROR_INVALID_KEY_START : Z := -10.
Definition ERROR_KEY_GENERATION : Z := -11.
Definition ERROR_KEY_SPLITTING : Z := -12.

Definition set_status (ci : conn_info_t) (status : Z) : conn_info_t :=
  {| body := body ci; body_size := body_size ci; output := output ci;
     output_size := output_size ci; command_status := status; nonce := nonce ci |}.

Definition set_output (ci : conn_info_t) (out : option (list Z)) : conn_info_t :=
  {| body := body ci; body_size := body_size ci; output := out;
     output_size := output_size ci; command_status := command_status ci; nonce := nonce ci |}.

Definition set_output_size (ci : conn_info_t) (n : Z) : conn_info_t :=
  {| body := body ci; body_size := body_size ci; output := output ci;
     output_size := n; command_status := command_status ci; nonce := nonce ci |}.

Definition set_body (ci : conn_info_t) (b : list Z) : conn_info_t :=
  {| body := b; body_size := body_size ci; output := output ci;
     output_size := output_size ci; command_status := command_status ci; nonce := nonce ci |}.

(** [get_body_payload(ci)] returns [ci->body]. *)
Definition get_body_payload (ci : conn_info_t) : list Z := body ci.

(** [get_sn(payload)] is [*((uint32_t * ) payload)]: the four bytes at
    [payload + off] in host order, least significant first on the x86
    machines the servers run on. *)
Definition get_sn (payload : list Z) (off : nat) : Z :=
  byte_at payload off + byte_at payload (off + 1) * 2 ^ 8
  + byte_at payload (off + 2) * 2 ^ 16 + byte_at payload (off + 3) * 2 ^ 24.

(** ** The environment *)

(** [struct config_s] of [utils.h]. *)
Record config_s := Config {
  cwd : string;
  coin_id : Z                 (* uint16_t *)
}.

(** A regular file: its bytes, and whether [read] on it fails (returns a
    negative count). *)
Record file_t := File {
  contents : list Z;
  read_fails : bool
}.

(** The file system as the code sees it: regular files by path, and the
    three ways a store can fail ([mkdir], [open] with [O_CREAT], a short
    [write] of at most [write_limit] bytes). *)
Record disk_t := Disk {
  files : gmap string file_t;
  mkdir_fails : bool;
  creat_fails : bool;
  write_limit : option nat
}.

(** Everything a handler reads or changes besides the [conn_info_t]. *)
Record world := World {
  config : config_s;
  disk : disk_t;
  core : core_state;          (* the statics of rke_core.c *)
  rnd : entropy;              (* successive reads of /dev/urandom *)
  now : Z;                    (* time(NULL) *)
  heap_ok : bool              (* whether malloc returns non-NULL *)
}.

Definition set_disk (w : world) (d : disk_t) : world :=
  {| config := config w; disk := d; core := core w; rnd := rnd w; now := now w;
     heap_ok := heap_ok w |}.

Definition set_core_rnd (w : world) (c : core_state) (r : entropy) : world :=
  {| config := config w; disk := disk w; core := c; rnd := r; now := now w;
     heap_ok := heap_ok w |}.

(** [malloc(n)]: [None] for NULL.  The block is handed out zero-filled;
    every handler below writes all of it before it is read. *)
Definition malloc (w : world) (n : nat) : option (list Z) :=
  if heap_ok w then Some (zeros n) else None.

(** [open(path, O_RDONLY)] *)
Definition open_rdonly (d : disk_t) (path : string) : option file_t := files d !! path.

(** [read(fd, buf, n)]: the count and the bytes delivered. *)
Definition read (f : file_t) (n : nat) : Z * list Z :=
  if read_fails f then (-1, [])
  else let bs := take n (contents f) in (Z.of_nat (length bs), bs).

(** [open(path, O_CREAT | O_WRONLY | O_TRUNC, 0640)], one [write] of
    [bytes], [close]: the count written ([None] when [open] fails) and the
    disk afterwards. *)
Definition create_and_write (d : disk_t) (path : string) (bytes : list Z)
  : option Z * disk_t :=
  if creat_fails d then (None, d)
  else
    let written := match write_limit d with
                   | Some k => take k bytes
                   | None => bytes
                   end in
    (Some (Z.of_nat (length written)),
     {| files := <[path := {| contents := written; read_fails := false |}]> (files d);
        mkdir_fails := mkdir_fails d; creat_fails := creat_fails d;
        write_limit := write_limit d |}).

(** [access(path, F_OK) == 0] *)
Definition access_ok (d : disk_t) (path : string) : bool :=
  match files d !! path with Some _ => true | None => false end.

(** [create_directory_recursive(path)] of [utils.h].  Directories are not
    tracked: the call either succeeds or [mkdir] fails. *)
Definition create_directory_recursive (d : disk_t) (path : string) : Z :=
  if mkdir_fails d then -1 else 0.

(** *** [printf] conversions used in paths *)

Definition hex_digit (n : Z) : ascii :=
  nth (Z.to_nat n) (list_ascii_of_string "0123456789abcdef") "?"%char.

(** ["%02x"] of an [unsigned char] *)
Definition fmt_02x (b : Z) : string :=
  String (hex_digit (b / 16)) (String (hex_digit (b mod 16)) EmptyString).

Definition dec_digit (n : Z) : ascii :=
  nth (Z.to_nat n) (list_ascii_of_string "0123456789") "?"%char.

(** The decimal digits of [n >= 0], most significant first, put in front
    of [acc]; [fuel] bounds the number of digits. *)
Fixpoint dec_digits (fuel : nat) (n : Z) (acc : string) : string :=
  match fuel with
  | O => acc
  | S fuel' =>
      let acc' := String (dec_digit (n mod 10)) acc in
      if n / 10 =? 0 then acc' else dec_digits fuel' (n / 10) acc'
  end.

(** ["%u"] of a [uint32_t] *)
Definition fmt_u (n : Z) : string := dec_digits 10 n EmptyString.

(** ["%03d"] of a [uint8_t] *)
Definition fmt_03d (n : Z) : string :=
  String (dec_digit (n / 100))
    (String (dec_digit (n / 10 mod 10)) (String (dec_digit (n mod 10)) EmptyString)).

(** ** [src/rke/rke_storage.c] *)

(** The structs are written and read as raw memory.  The layout is that
    of the x86-64 System V ABI: members at their natural alignment,
    integers least significant byte first; padding bytes are written as
    zero and ignored on reading. *)
Definition sizeof_fragment : nat := 294.
Definition sizeof_metadata : nat := 32.

Definition le16 (x : Z) : list Z := [x mod 256; x / 256 mod 256].
Definition le32 (x : Z) : list Z :=
  [x mod 256; x / 2 ^ 8 mod 256; x / 2 ^ 16 mod 256; x / 2 ^ 24 mod 256].

Definition fragment_bytes (f : rke_fragment_t) : list Z :=
  [fragment_id f; total_fragments f; threshold f; 0] ++ le16 (fragment_size f)
  ++ data f ++ checksum f.

Definition fragment_of_bytes (m : list Z) : rke_fragment_t :=
  {| fragment_id := byte_at m 0; total_fragments := byte_at m 1; threshold := byte_at m 2;
     fragment_size := byte_at m 4 + byte_at m 5 * 2 ^ 8;
     data := take RKE_FRAGMENT_DATA_SIZE (drop 6 m);
     checksum := take RKE_CHECKSUM_SIZE (drop 262 m) |}.

Definition metadata_bytes (m : rke_key_metadata_t) : list Z :=
  key_id m ++ [key_type m; md_total_fragments m; md_threshold m; 0]
  ++ le32 (timestamp m) ++ [den m; 0; 0; 0] ++ le32 (sn m).

Definition metadata_of_bytes (m : list Z) : rke_key_metadata_t :=
  {| key_id := take RKE_KEY_ID_SIZE m;
     key_type := byte_at m 16; md_total_fragments := byte_at m 17;
     md_threshold := byte_at m 18;
     timestamp := get_sn m 20; den := byte_at m 24; sn := get_sn m 28 |}.

(** ["%s/RKE/%02x%02x%02x%02x"] *)
Definition rke_dir_path (cfg : config_s) (key_id : list Z) : string :=
  cwd cfg +:+ "/RKE/" +:+ fmt_02x (byte_at key_id 0) +:+ fmt_02x (byte_at key_id 1)
  +:+ fmt_02x (byte_at key_id 2) +:+ fmt_02x (byte_at key_id 3).

(** ["%s/fragment_%03d.bin"] *)
Definition fragment_path (cfg : config_s) (key_id : list Z) (fragment_id : Z) : string :=
  rke_dir_path cfg key_id +:+ "/fragment_" +:+ fmt_03d fragment_id +:+ ".bin".

(** ["%s/metadata.bin"] *)
Definition metadata_path (cfg : config_s) (key_id : list Z) : string :=
  rke_dir_path cfg key_id +:+ "/metadata.bin".

(** [rke_store_fragment(fragment, key_id)] for non-NULL pointers. *)
Definition rke_store_fragment (cfg : config_s) (d : disk_t)
    (fragment : rke_fragment_t) (key_id : list Z) : Z * disk_t :=
  if negb (rke_validate_fragment fragment =? RKE_SUCCESS) then (RKE_ERROR_INVALID_PARAM, d)
  else if negb (create_directory_recursive d (rke_dir_path cfg key_id) =? 0)
  then (RKE_ERROR_STORAGE_FAIL, d)
  else
    match create_and_write d (fragment_path cfg key_id (fragment_id fragment))
                           (fragment_bytes fragment) with
    | (None, d') => (RKE_ERROR_STORAGE_FAIL, d')
    | (Some rv, d') =>
        if negb (rv =? Z.of_nat sizeof_fragment) then (RKE_ERROR_STORAGE_FAIL, d')
        else (RKE_SUCCESS, d')
    end.

(** [rke_load_fragment(fragment, key_id, fragment_id)] for non-NULL
    pointers ([id] is the [fragment_id] argument): the status and the
    caller's struct, taken to be zero-filled before the [read]. *)
Definition rke_load_fragment (cfg : config_s) (d : disk_t) (key_id : list Z) (id : Z)
  : Z * rke_fragment_t :=
  if id =? 0 then (RKE_ERROR_INVALID_PARAM, zero_fragment)
  else
    match open_rdonly d (fragment_path cfg key_id id) with
    | None => (RKE_ERROR_STORAGE_FAIL, zero_fragment)
    | Some f =>
        let '(rv, bytes) := read f sizeof_fragment in
        let fragment :=
          fragment_of_bytes (memcpy (zeros sizeof_fragment) bytes (length bytes)) in
        if negb (rv =? Z.of_nat sizeof_fragment) then (RKE_ERROR_STORAGE_FAIL, fragment)
        else if negb (rke_validate_fragment fragment =? RKE_SUCCESS)
        then (RKE_ERROR_FRAGMENT_CORRUPT, fragment)
        else if negb (fragment_id fragment =? id)
        then (RKE_ERROR_FRAGMENT_CORRUPT, fragment)
        else (RKE_SUCCESS, fragment)
    end.

(** [rke_store_metadata(metadata)] for a non-NULL pointer. *)
Definition rke_store_metadata (cfg : config_s) (d : disk_t) (metadata : rke_key_metadata_t)
  : Z * disk_t :=
  if negb (create_directory_recursive d (rke_dir_path cfg (key_id metadata)) =? 0)
  then (RKE_ERROR_STORAGE_FAIL, d)
  else
    match create_and_write d (metadata_path cfg (key_id metadata)) (metadata_bytes metadata) with
    | (None, d') => (RKE_ERROR_STORAGE_FAIL, d')
    | (Some rv, d') =>
        if negb (rv =? Z.of_nat sizeof_metadata) then (RKE_ERROR_STORAGE_FAIL, d')
        else (RKE_SUCCESS, d')
    end.

(** [rke_load_metadata(metadata, key_id)] for non-NULL pointers ([kid] is
    the [key_id] argument): the status and the caller's struct, taken to
    be zero-filled before the [read]. *)
Definition rke_load_metadata (cfg : config_s) (d : disk_t) (kid : list Z)
  : Z * rke_key_metadata_t :=
  match open_rdonly d (metadata_path cfg kid) with
  | None => (RKE_ERROR_STORAGE_FAIL, metadata_of_bytes (zeros sizeof_metadata))
  | Some f =>
      let '(rv, bytes) := read f sizeof_metadata in
      let metadata :=
        metadata_of_bytes (memcpy (zeros sizeof_metadata) bytes (length bytes)) in
      if negb (rv =? Z.of_nat sizeof_metadata) then (RKE_ERROR_STORAGE_FAIL, metadata)
      else if negb (memcmp_eq (key_id metadata) kid RKE_KEY_ID_SIZE)
      then (RKE_ERROR_FRAGMENT_CORRUPT, metadata)
      else (RKE_SUCCESS, metadata)
  end.

(** [rke_fragment_exists(key_id, fragment_id)] for a non-NULL [key_id]. *)
Definition rke_fragment_exists (cfg : config_s) (d : disk_t) (key_id : list Z) (id : Z) : bool :=
  if id =? 0 then false
  else access_ok d (fragment_path cfg key_id id).

(** [rke_count_fragments(key_id)] for a non-NULL [key_id]. *)
Definition rke_count_fragments (cfg : config_s) (d : disk_t) (key_id : list Z) : Z :=
  for_loop 255 1%nat
    (fun i count => if rke_fragment_exists cfg d key_id (Z.of_nat i) then count + 1 else count)
    0.

(** ** [src/rke/rke_protocol.c] *)

(** [cmd_rke_generate(ci)] *)
Definition cmd_rke_generate (ci : conn_info_t) (w : world) : conn_info_t * world :=
  let payload := get_body_payload ci in
  if negb (body_size ci =? 21) then (set_status ci ERROR_INVALID_PACKET_LENGTH, w)
  else
    let metadata :=
      {| key_id := memcpy (zeros RKE_KEY_ID_SIZE) payload RKE_KEY_ID_SIZE;
         key_type := byte_at payload 16;
         md_total_fragments := byte_at payload 17;
         md_threshold := byte_at payload 18;
         timestamp := now w mod 2 ^ 32;
         den := 0; sn := 0 |} in
    if md_threshold metadata >? md_total_fragments metadata
    then (set_status ci ERROR_INVALID_PARAMETER, w)
    else if md_total_fragments metadata =? 0
    then (set_status ci ERROR_INVALID_PARAMETER, w)
    else if md_threshold metadata <? RKE_MIN_THRESHOLD
    then (set_status ci ERROR_INVALID_PARAMETER, w)
    else
      let '(rv, key, rnd1) := rke_generate_key (rnd w) (zeros 256) 256 in
      if negb (rv =? RKE_SUCCESS)
      then (set_status ci ERROR_KEY_GENERATION, set_core_rnd w (core w) rnd1)
      else
        let '(rv, core1, rnd2) := rke_split_key (core w) rnd1 key 256 metadata in
        let w := set_core_rnd w core1 rnd2 in
        if negb (rv =? RKE_SUCCESS) then (set_status ci ERROR_KEY_SPLITTING, w)
        else
          let '(rv, disk1) := rke_store_metadata (config w) (disk w) metadata in
          let w := set_disk w disk1 in
          if negb (rv =? RKE_SUCCESS) then (set_status ci ERROR_FILESYSTEM, w)
          else
            let ci := set_output_size ci 1 in
            match malloc w 1 with
            | None => (set_status (set_output ci None) ERROR_MEMORY_ALLOC, w)
            | Some out =>
                (set_status (set_output ci (Some (<[0%nat := 0x01]> out))) STATUS_SUCCESS, w)
            end.

(** The loop of [cmd_rke_reconstruct] that loads fragments
    [i .. i + n - 1] into a local that is dropped at the end of each
    iteration: only a failed load has an effect. *)
Fixpoint load_required (n : nat) (i : nat) (cfg : config_s) (d : disk_t) (key_id : list Z)
  : bool :=
  match n with
  | O => true
  | S n' =>
      if rke_fragment_exists cfg d key_id (Z.of_nat i) then
        if negb ((rke_load_fragment cfg d key_id (Z.of_nat i)).1 =? RKE_SUCCESS) then false
        else load_required n' (S i) cfg d key_id
      else load_required n' (S i) cfg d key_id
  end.

(** [cmd_rke_reconstruct(ci)] *)
Definition cmd_rke_reconstruct (ci : conn_info_t) (w : world) : conn_info_t * world :=
  let payload := get_body_payload ci in
  if negb (body_size ci =? 18) then (set_status ci ERROR_INVALID_PACKET_LENGTH, w)
  else
    let key_id := memcpy (zeros RKE_KEY_ID_SIZE) payload RKE_KEY_ID_SIZE in
    let '(rv, metadata) := rke_load_metadata (config w) (disk w) key_id in
    if negb (rv =? RKE_SUCCESS) then (set_status ci ERROR_FILESYSTEM, w)
    else
      let available_fragments := rke_count_fragments (config w) (disk w) key_id in
      if available_fragments <? md_threshold metadata
      then (set_status ci ERROR_INVALID_PARAMETER, w)
      else if negb (load_required (Z.to_nat (md_threshold metadata)) 1
                                  (config w) (disk w) key_id)
      then (set_status ci ERROR_FILESYSTEM, w)
      else
        let '(rv, reconstructed_key) := rke_reconstruct_key (core w) (zeros 256) 256 metadata in
        if negb (rv =? RKE_SUCCESS) then (set_status ci ERROR_KEY_GENERATION, w)
        else
          let ci := set_output_size ci 256 in
          match malloc w 256 with
          | None => (set_status (set_output ci None) ERROR_MEMORY_ALLOC, w)
          | Some out =>
              (set_status (set_output ci (Some (memcpy out reconstructed_key 256)))
                          STATUS_SUCCESS, w)
          end.

(** The caller's [struct rke_key_metadata_t] after [rke_load_metadata], as
    it lies in memory, padding bytes included: what [read] has put there,
    over a struct taken to be zero-filled before. *)
Definition rke_load_metadata_image (cfg : config_s) (d : disk_t) (kid : list Z) : list Z :=
  match open_rdonly d (metadata_path cfg kid) with
  | None => zeros sizeof_metadata
  | Some f =>
      memcpy (zeros sizeof_metadata) (read f sizeof_metadata).2
             (length (read f sizeof_metadata).2)
  end.

(** The bitmap loop of [cmd_rke_query]. *)
Definition query_fragment_map (cfg : config_s) (d : disk_t) (key_id : list Z)
    (metadata : rke_key_metadata_t) : list Z :=
  for_loop (Z.to_nat (md_total_fragments metadata)) 1%nat
    (fun i fragment_map =>
       if rke_fragment_exists cfg d key_id (Z.of_nat i) then
         let byte_index := ((i - 1) / 8)%nat in
         let bit_index := ((i - 1) mod 8)%nat in
         <[byte_index := Z.lor (byte_at fragment_map byte_index)
                               (Z.shiftl 1 (Z.of_nat bit_index))]> fragment_map
       else fragment_map)
    (zeros 32).

(** [cmd_rke_query(ci)].  The first [memcpy] into the output copies the
    local struct as it lies in memory. *)
Definition cmd_rke_query (ci : conn_info_t) (w : world) : conn_info_t * world :=
  let payload := get_body_payload ci in
  if negb (body_size ci =? 18) then (set_status ci ERROR_INVALID_PACKET_LENGTH, w)
  else
    let key_id := memcpy (zeros RKE_KEY_ID_SIZE) payload RKE_KEY_ID_SIZE in
    let '(rv, metadata) := rke_load_metadata (config w) (disk w) key_id in
    if negb (rv =? RKE_SUCCESS) then (set_status ci ERROR_FILESYSTEM, w)
    else
      let fragment_map := query_fragment_map (config w) (disk w) key_id metadata in
      let ci := set_output_size ci (Z.of_nat sizeof_metadata + 32) in
      match malloc w (sizeof_metadata + 32) with
      | None => (set_status (set_output ci None) ERROR_MEMORY_ALLOC, w)
      | Some out =>
          let out := memcpy out (rke_load_metadata_image (config w) (disk w) key_id)
                            sizeof_metadata in
          let out := take sizeof_metadata out
                     ++ memcpy (drop sizeof_metadata out) fragment_map 32 in
          (set_status (set_output ci (Some out)) STATUS_SUCCESS, w)
      end.

(** ** [src/rke/rke_crypto.c]: fragment encryption *)

(** [rke_encrypt_fragment(fragment, key, nonce)] for non-NULL pointers. *)
Definition rke_encrypt_fragment (fragment : rke_fragment_t) (key nonce : list Z)
  : Z * rke_fragment_t :=
  if negb (rke_validate_fragment fragment =? RKE_SUCCESS)
  then (RKE_ERROR_INVALID_PARAM, fragment)
  else
    let fragment :=
      set_data fragment
        (Aes.crypt_ctr key (data fragment) (Z.to_nat (fragment_size fragment)) nonce) in
    let '(rv, fragment) := rke_calculate_checksum fragment in
    if negb (rv =? RKE_SUCCESS) then (RKE_ERROR_CRYPTO_FAIL, fragment)
    else (RKE_SUCCESS, fragment).

(** [rke_decrypt_fragment(fragment, key, nonce)] for non-NULL pointers.
    The copy it takes of the old checksum is never used. *)
Definition rke_decrypt_fragment (fragment : rke_fragment_t) (key nonce : list Z)
  : Z * rke_fragment_t :=
  let fragment :=
    set_data fragment
      (Aes.crypt_ctr key (data fragment) (Z.to_nat (fragment_size fragment)) nonce) in
  let '(rv, fragment) := rke_calculate_checksum fragment in
  if negb (rv =? RKE_SUCCESS) then (RKE_ERROR_CRYPTO_FAIL, fragment)
  else (RKE_SUCCESS, fragment).

(** [rke_generate_nonce(nonce, nonce_size)] for a non-NULL [nonce]. *)
Definition rke_generate_nonce (rnd : entropy) (nonce : list Z) (nonce_size : nat)
  : Z * list Z * entropy :=
  if (nonce_size =? 0)%nat then (RKE_ERROR_INVALID_PARAM, nonce, rnd)
  else
    let '(rv, nonce', rnd') := secure_random_bytes rnd nonce nonce_size in
    if negb (rv =? 0) then (RKE_ERROR_CRYPTO_FAIL, nonce', rnd')
    else (RKE_SUCCESS, nonce', rnd').

(** ** [src/rke/rke_core.c]: the polynomial helper *)

(** [evaluate_polynomial(x, coefficients, degree)]: the pair carried by
    the loop is [(result, x_power)], both [uint8_t]. *)
Definition evaluate_polynomial (x : Z) (coefficients : list Z) (degree : Z) : Z :=
  (for_loop (Z.to_nat degree + 1) 0%nat
     (fun i '(result, x_power) =>
        (Z.lxor result (Z.land (byte_at coefficients i * x_power) 0xFF),
         Z.land (x_power * x) 0xFF))
     (0, 1)).1.

(** ** [src/rke/rke_protocol.c]: the exchange handler *)

(** [cmd_rke_exchange(ci)] *)
Definition cmd_rke_exchange (ci : conn_info_t) (w : world) : conn_info_t * world :=
  let payload := get_body_payload ci in
  if body_size ci <? 19 then (set_status ci ERROR_INVALID_PACKET_LENGTH, w)
  else
    let key_id := memcpy (zeros RKE_KEY_ID_SIZE) payload RKE_KEY_ID_SIZE in
    let fragment_id := byte_at payload RKE_KEY_ID_SIZE in
    if rke_fragment_exists (config w) (disk w) key_id fragment_id then
      let '(rv, fragment) := rke_load_fragment (config w) (disk w) key_id fragment_id in
      if negb (rv =? RKE_SUCCESS) then (set_status ci ERROR_FILESYSTEM, w)
      else
        let ci := set_output_size ci (Z.of_nat sizeof_fragment) in
        match malloc w sizeof_fragment with
        | None => (set_status (set_output ci None) ERROR_MEMORY_ALLOC, w)
        | Some out =>
            (set_status (set_output ci (Some (memcpy out (fragment_bytes fragment)
                                                     sizeof_fragment)))
                        STATUS_SUCCESS, w)
        end
    else (set_status ci ERROR_INVALID_PARAMETER, w).

(** ** The authenticity-page store *)
Module Db.

(** Modelled from the spec: the page store of the coin system ([db.h] is
    not part of the sources).  Pages are looked up from a denomination and
    a serial number; a page holds [RECORDS_PER_PAGE] records of 17 bytes
    (two 8-byte halves and the modification stamp), an [is_dirty] flag and
    a lock.  The state of the locks is kept in [held]: the pages whose lock
    has been taken and not given back, latest first, one entry for each
    acquisition.  Whether a caller that takes a lock that is already held
    has to wait for it is decided inside the store; following the spec,
    in which [decrypt_raida_key] goes on after it has taken the lock of a
    page a second time, an acquisition is recorded and the caller
    continues. *)
Record page_s := Page {
  data : list Z;
  is_dirty : bool
}.

Record store := Store {
  RECORDS_PER_PAGE : Z;
  pages : gmap (Z * Z) page_s;     (* by denomination and page number *)
  mfs : Z;                         (* what get_mfs() returns *)
  held : list (Z * Z)              (* page locks taken and not released *)
}.

(** The page a coin lives on. *)
Definition page_key (db : store) (den : Z) (sn : Z) : Z * Z :=
  (den, sn / RECORDS_PER_PAGE db).

Definition set_held (db : store) (h : list (Z * Z)) : store :=
  {| RECORDS_PER_PAGE := RECORDS_PER_PAGE db; pages := pages db; mfs := mfs db; held := h |}.

(** Modelled from the spec: [get_page_by_sn_lock(den, sn)], [None] for
    NULL; a page that is found is returned with its lock taken. *)
Definition get_page_by_sn_lock (db : store) (den : Z) (sn : Z) : option (page_s * store) :=
  match pages db !! page_key db den sn with
  | Some page => Some (page, set_held db (page_key db den sn :: held db))
  | None => None
  end.

(** One acquisition of the lock [k] given back. *)
Fixpoint release (k : Z * Z) (h : list (Z * Z)) : list (Z * Z) :=
  match h with
  | [] => []
  | k' :: h' => if (k'.1 =? k.1) && (k'.2 =? k.2) then h' else k' :: release k h'
  end.

(** Modelled from the spec: [unlock_page(page)] for the page of
    [(den, sn)]. *)
Definition unlock_page (db : store) (den : Z) (sn : Z) : store :=
  set_held db (release (page_key db den sn) (held db)).

(** The page of [(den, sn)] after the handler has written through the
    pointer it got. *)
Definition put_page (db : store) (den : Z) (sn : Z) (page : page_s) : store :=
  {| RECORDS_PER_PAGE := RECORDS_PER_PAGE db;
     pages := <[page_key db den sn := page]> (pages db);
     mfs := mfs db; held := held db |}.

End Db.

(** ** [examples/cmd_key_exechange.c] *)
Module KeyExchange.

(** What the legacy handlers use besides the [world]: the page store, the
    first value [rand()] returns after [srand(seed)], and whether plain
    [char] is a signed type (it is on x86 and x86-64 Linux). *)
Record env := Env {
  base : world;
  db : Db.store;
  rand_after_srand : Z -> Z;
  char_is_signed : bool
}.

Definition set_db (e : env) (d : Db.store) : env :=
  {| base := base e; db := d; rand_after_srand := rand_after_srand e;
     char_is_signed := char_is_signed e |}.

(** The value of an [int8_t] assigned from an [unsigned char], and back. *)
Definition int8_of_byte (b : Z) : Z := if b <? 128 then b else b - 256.
Definition byte_of_int8 (d : Z) : Z := d mod 256.

(** The value of a plain [char] holding the byte [b]. *)
Definition char_value (signed : bool) (b : Z) : Z :=
  if signed && (128 <=? b) then b - 256 else b.

(** The value of an [int] assigned from a [uint32_t]. *)
Definition int_of_u32 (x : Z) : Z := if x <? 2 ^ 31 then x else x - 2 ^ 32.

(** The sixteen bytes [cmd_encrypt_key] builds in [ci->output] before it
    calls [crypt_ctr]. *)
Definition encrypt_key_plain (payload : list Z) (den : Z) (r0 : Z) : list Z :=
  let out := zeros 16 in                                   (* memset(ci->output, 0, 16) *)
  let out := memcpy out (drop 5 payload) 8 in              (* memcpy(ci->output, &payload[5], 8) *)
  let out := <[8%nat := byte_of_int8 den]> out in          (* ci->output[8] = den *)
  let out := take 9 out ++ memcpy (drop 9 out) (drop 1 payload) 4 in
  let out := <[13%nat := Z.land (Z.shiftr r0 8) 0xff]> out in
  let out := <[14%nat := Z.land r0 0xff]> out in
  <[15%nat := 0xff]> out.

(** [cmd_encrypt_key(ci)] *)
Definition cmd_encrypt_key (ci : conn_info_t) (e : env) : conn_info_t * env :=
  let payload := get_body_payload ci in
  if negb (body_size ci =? 31) then (set_status ci ERROR_INVALID_PACKET_LENGTH, e)
  else
    let den := int8_of_byte (byte_at payload 0) in
    let sn := get_sn payload 1 in
    match Db.get_page_by_sn_lock (db e) den sn with
    | None => (set_status ci ERROR_INVALID_SN_OR_DENOMINATION, e)
    | Some (page, db1) =>
        let sn_idx := sn mod Db.RECORDS_PER_PAGE (db e) in
        let aen := memcpy (zeros 16) (drop (Z.to_nat (sn_idx * 17)) (Db.data page)) 16 in
        let e := set_db e (Db.unlock_page db1 den sn) in       (* unlock_page(page) *)
        let ci := set_output_size ci 16 in
        match malloc (base e) 16 with
        | None => (set_status (set_output ci None) ERROR_MEMORY_ALLOC, e)
        | Some _ =>
            let r0 := rand_after_srand e (now (base e)) in
            let out := encrypt_key_plain payload den r0 in
            let out := Aes.crypt_ctr aen out 16 (nonce ci) in
            (set_status (set_output ci (Some out)) NO_ERROR, e)
        end
    end.

(** [load_my_enc_coin(den, sn, buf)]: the status and the caller's
    400-byte buffer. *)
Definition load_my_enc_coin (signed : bool) (cfg : config_s) (d : disk_t)
    (den : Z) (sn : Z) (buf : list Z) : Z * list Z :=
  let path := cwd cfg +:+ "/coins/" +:+ fmt_02x den +:+ "." +:+ fmt_u sn +:+ ".bin" in
  match open_rdonly d path with
  | None => (-1, buf)
  | Some f =>
      let '(rv, tmp_buf) := read f 440 in
      if rv <? 0 then (-1, buf)
      else if negb (rv =? 440) then (-1, buf)
      else
        let id := Z.lor (Z.shiftl (char_value signed (byte_at tmp_buf 2)) 8)
                        (char_value signed (byte_at tmp_buf 3)) mod 2 ^ 16 in
        if negb (id =? coin_id cfg) then (-1, buf)
        else (0, memcpy buf (drop 40 tmp_buf) 400)
  end.

(** The state the block loop of [cmd_decrypt_raida_key] works on: the
    request body (key blocks are decrypted in place), the page store and
    the result bytes. *)
Definition block_state : Type := list Z * Db.store * list Z.

(** One iteration of the block loop.  The page lock taken by the first
    [get_page_by_sn_lock] is still held when a later check sends the loop
    to its next round; a block that passes every check takes the lock a
    second time and gives it back once. *)
Definition decrypt_raida_block (aens nonce : list Z) (mfs : Z) (i : nat) (st : block_state)
  : block_state :=
  let '(payload, db, out) := st in
  let off := (21 + i * 26)%nat in
  let split_id := byte_at payload (off + 2) in
  let da := byte_at payload (off + 3) in
  let den := int8_of_byte (byte_at payload (off + 5)) in
  let sn := get_sn payload (off + 6) in
  if da >? 24 then (payload, db, <[i := 0x0]> out)
  else if negb (split_id =? 0) && negb (split_id =? 1) then (payload, db, <[i := 0x0]> out)
  else
    match Db.get_page_by_sn_lock db den sn with
    | None => (payload, db, <[i := 0x0]> out)
    | Some (_, db) =>
        (* crypt_ctr(&aens[da], ky, 16, ci->nonce) with ky = &payload[off + 10] *)
        let ky := Aes.crypt_ctr (drop (Z.to_nat da) aens) (drop (off + 10) payload) 16 nonce in
        let payload := take (off + 10) payload ++ ky in
        if negb (byte_at ky 15 =? 0xff) then (payload, db, <[i := 0x0]> out)
        else
          let dec_den := byte_at ky 8 in
          let dec_sn := get_sn ky 9 in
          if negb (dec_den =? den) || negb (dec_sn =? sn) then (payload, db, <[i := 0x0]> out)
          else
            match Db.get_page_by_sn_lock db den sn with
            | None => (payload, db, <[i := 0x0]> out)
            | Some (page, db) =>
                let sn_idx := Z.to_nat (sn mod Db.RECORDS_PER_PAGE db) in
                let at_half := (sn_idx * 17 + Z.to_nat split_id * 8)%nat in
                let d := take at_half (Db.data page)
                         ++ memcpy (drop at_half (Db.data page)) ky 8 in
                let d := <[(sn_idx * 17 + 16)%nat := mfs]> d in
                let page := {| Db.data := d; Db.is_dirty := true |} in
                let db := Db.put_page db den sn page in
                (payload, Db.unlock_page db den sn, <[i := 0x1]> out)   (* unlock_page(page) *)
            end
    end.

(** [cmd_decrypt_raida_key(ci)].  [malloc] of a negative [int] asks for
    more than the address space and returns NULL. *)
Definition cmd_decrypt_raida_key (ci : conn_info_t) (e : env) : conn_info_t * env :=
  let payload := get_body_payload ci in
  if body_size ci <? 49 then (set_status ci ERROR_INVALID_PACKET_LENGTH, e)
  else
    let coin_length := int_of_u32 ((body_size ci - 23) mod 2 ^ 32) in
    if negb (Z.rem coin_length 26 =? 0) then (set_status ci ERROR_COINS_NOT_DIV, e)
    else
      let total_coins := Z.quot coin_length 26 in
      let den := int8_of_byte (byte_at payload 0) in
      let sn := get_sn payload 1 in
      let mfs := Db.mfs (db e) in
      let '(rv, aens) :=
        load_my_enc_coin (char_is_signed e) (config (base e)) (disk (base e))
                         (byte_of_int8 den) sn (zeros 400) in
      if rv <? 0 then (set_status ci ERROR_COIN_LOAD, e)
      else
        match (if total_coins <? 0 then None else malloc (base e) (Z.to_nat total_coins)) with
        | None => (set_status (set_output ci None) ERROR_MEMORY_ALLOC, e)
        | Some _ =>
            let out := zeros (Z.to_nat total_coins) in     (* memset(ci->output, 0, total_coins) *)
            let '(payload, db1, out) :=
              for_loop (Z.to_nat total_coins) 0%nat
                       (decrypt_raida_block aens (nonce ci) mfs) (payload, db e, out) in
            let ci := set_body ci payload in
            let ci := set_output ci (Some out) in
            let ci := set_status ci STATUS_SUCCESS in
            let ci := set_output_size ci total_coins in
            (ci, set_db e db1)
        end.

(** *** The chat commands *)

(** ["%s/Keys/%02x ... %02x"]: the working directory and the sixteen
    bytes of the key id. *)
Definition key_file_path (cfg : config_s) (payload : list Z) : string :=
  cwd cfg +:+ "/Keys/"
  +:+ for_loop 16 0%nat (fun i s => s +:+ fmt_02x (byte_at payload i)) EmptyString.

(** [open(path, O_CREAT | O_WRONLY, 0640)] or
    [open(path, O_CREAT | O_RDONLY, 0640)]: the file is created empty when
    it is missing and left as it is otherwise.  [None] when [open]
    fails. *)
Definition open_creat (d : disk_t) (path : string) : option (file_t * disk_t) :=
  if creat_fails d then None
  else
    let f := match files d !! path with
             | Some f => f
             | None => {| contents := []; read_fails := false |}
             end in
    Some (f, {| files := <[path := f]> (files d);
                mkdir_fails := mkdir_fails d; creat_fails := creat_fails d;
                write_limit := write_limit d |}).

(** [write(fd, bytes, n)] at file offset [pos] of the open file [path]:
    the count written, the disk and the new offset.  Bytes already in the
    file past what is written stay. *)
Definition write_at (d : disk_t) (path : string) (pos : nat) (bytes : list Z)
  : Z * disk_t * nat :=
  let written := match write_limit d with
                 | Some k => take k bytes
                 | None => bytes
                 end in
  let f := match files d !! path with
           | Some f => f
           | None => {| contents := []; read_fails := false |}
           end in
  let new_contents :=
    take pos (contents f) ++ written ++ drop (pos + length written) (contents f) in
  (Z.of_nat (length written),
   {| files := <[path := {| contents := new_contents; read_fails := read_fails f |}]> (files d);
      mkdir_fails := mkdir_fails d; creat_fails := creat_fails d;
      write_limit := write_limit d |},
   (pos + length written)%nat).

Definition set_env_disk (e : env) (d : disk_t) : env :=
  {| base := set_disk (base e) d; db := db e; rand_after_srand := rand_after_srand e;
     char_is_signed := char_is_signed e |}.

(** [cmd_post_key(ci)] *)
Definition cmd_post_key (ci : conn_info_t) (e : env) : conn_info_t * env :=
  let payload := get_body_payload ci in
  if negb (body_size ci =? 185) then (set_status ci ERROR_INVALID_PACKET_LENGTH, e)
  else
    let den := int8_of_byte (byte_at payload 32) in
    let ks := byte_at payload 165 in
    let kl := byte_at payload 166 in
    if ks + kl >? 127 then (set_status ci ERROR_INVALID_KEY_START, e)
    else
      let key_path := key_file_path (config (base e)) payload in
      match open_creat (disk (base e)) key_path with
      | None => (set_status ci ERROR_FILESYSTEM, e)
      | Some (_, d) =>
          let '(rv, d, pos) := write_at d key_path 0 [byte_of_int8 den] in
          if negb (rv =? 1) then (set_status ci ERROR_FILESYSTEM, set_env_disk e d)
          else
            let '(rv, d, pos) := write_at d key_path pos (take 4 (drop 33 payload)) in
            if negb (rv =? 4) then (set_status ci ERROR_FILESYSTEM, set_env_disk e d)
            else
              let '(rv, d, pos) :=
                write_at d key_path pos
                         (take (Z.to_nat kl) (drop (37 + Z.to_nat ks) payload)) in
              if negb (rv =? kl) then (set_status ci ERROR_FILESYSTEM, set_env_disk e d)
              else (set_status ci STATUS_SUCCESS, set_env_disk e d)
      end.

(** [cmd_get_key(ci)] *)
Definition cmd_get_key (ci : conn_info_t) (e : env) : conn_info_t * env :=
  let payload := get_body_payload ci in
  if negb (body_size ci =? 55) then (set_status ci ERROR_INVALID_PACKET_LENGTH, e)
  else
    let key_path := key_file_path (config (base e)) payload in
    match open_creat (disk (base e)) key_path with
    | None => (set_status ci ERROR_FILESYSTEM, e)
    | Some (f, d) =>
        let e := set_env_disk e d in
        let '(rv, buf) := read f 512 in
        if rv <? 0 then (set_status ci ERROR_FILESYSTEM, e)
        else
          match malloc (base e) (Z.to_nat rv) with
          | None => (set_status (set_output ci None) ERROR_MEMORY_ALLOC, e)
          | Some out =>
              let ci := set_output ci (Some out) in
              let ci := set_status ci STATUS_SUCCESS in
              let ci := set_output_size ci rv in
              (set_output ci (Some (memcpy out buf (Z.to_nat rv))), e)
          end
    end.

(** [cmd_key_alert(ci)] only logs. *)
Definition cmd_key_alert (ci : conn_info_t) (e : env) : conn_info_t * env := (ci, e).

End KeyExchange.

(** ** Auxiliary definitions used in the statements and proofs *)

(** A loop that rewrites each byte [i] of its range from the byte it
    finds there: the shape of [memcpy], [xor_into] and [crypt_ctr]. *)
Definition bytewise (g : nat -> Z -> Z) (n lo : nat) (d : list Z) : list Z :=
  for_loop n lo (fun i d => <[i := g i (byte_at d i)]> d) d.

(** The XOR of byte [b] of the data of fragments [lo .. lo + cnt - 1]. *)
Definition xor_col (storage : list rke_fragment_t) (b : nat) (lo cnt : nat) : Z :=
  for_loop cnt lo (fun j acc => Z.lxor acc (byte_at (data (frag_at storage j)) b)) 0.

(** The XOR of [data[0 .. l)] of the first [n] fragments of the array, as
    the specification words it. *)
Definition xor_fragments (storage : list rke_fragment_t) (n l : nat) : list Z :=
  for_loop n 0%nat (fun i acc => xor_into acc (data (frag_at storage i)) l) (zeros l).

(** A small run used to exercise the theorems: a 4-byte key split into
    three fragments with threshold two, the entropy device delivering the
    two masks. *)
Definition demo_key : list Z := [0xAA; 0x55; 0x0F; 0xF0].
Definition demo_entropy : entropy := [Some [0x11; 0x22; 0x33; 0x44]; Some [0xDE; 0xAD; 0xBE; 0xEF]].
Definition demo_metadata : rke_key_metadata_t :=
  {| key_id := [0;1;2;3;4;5;6;7;8;9;10;11;12;13;14;15];
     key_type := RKE_KEY_TYPE_SYMMETRIC;
     md_total_fragments := 3; md_threshold := 2;
     timestamp := 1721433600; den := 0; sn := 0 |}.
Definition demo_split : Z * core_state * entropy :=
  rke_split_key core_init demo_entropy demo_key 4 demo_metadata.

(** A legacy request used to exercise the encryption-coin handlers: the
    coin file of coin 01:100 with peer secrets [0, 1, 2, ...], one page of
    the store for denomination 1, and a [cmd_decrypt_raida_key] body
    carrying one block from peer 1 for coin 01:100, encrypted under that
    peer's 16-byte secret (bytes 16 .. 31 of the table). *)
Definition demo_aens : list Z := map (fun i => Z.of_nat i mod 256) (seq 0 400).
Definition demo_coin_file (byte2 byte3 : Z) : file_t :=
  {| contents := [0; 0; byte2; byte3] ++ zeros 36 ++ demo_aens; read_fails := false |}.
Definition demo_config (id : Z) : config_s := {| cwd := "/opt/raida"; coin_id := id |}.
Definition demo_disk (byte2 byte3 : Z) : disk_t :=
  {| files := {[ "/opt/raida/coins/01.100.bin"%string := demo_coin_file byte2 byte3 ]};
     mkdir_fails := false; creat_fails := false; write_limit := None |}.
Definition demo_world (id byte2 byte3 : Z) : world :=
  {| config := demo_config id; disk := demo_disk byte2 byte3; core := core_init;
     rnd := []; now := 1721433600; heap_ok := true |}.
Definition demo_db : Db.store :=
  {| Db.RECORDS_PER_PAGE := 1024;
     Db.pages := {[ (1, 0) := {| Db.data := zeros (17 * 1024); Db.is_dirty := false |} ]};
     Db.mfs := 7; Db.held := [] |}.
Definition demo_env : KeyExchange.env :=
  {| KeyExchange.base := demo_world 1 0 1; KeyExchange.db := demo_db;
     KeyExchange.rand_after_srand := fun seed => 0x1234;
     KeyExchange.char_is_signed := true |}.
Definition demo_nonce : list Z :=
  [0x10; 0x11; 0x12; 0x13; 0x14; 0x15; 0x16; 0x17; 0x18; 0x19; 0x1a; 0x1b; 0x1c; 0x1d; 0x1e; 0x1f].
(** The plaintext of the block: an 8-byte half, den 1, sn 100, two random
    bytes, the sentinel. *)
Definition demo_plain : list Z :=
  [0xA1; 0xA2; 0xA3; 0xA4; 0xA5; 0xA6; 0xA7; 0xA8; 0x01; 100; 0; 0; 0; 0x12; 0x34; 0xff].
Definition demo_cipher (da : nat) : list Z :=
  Aes.crypt_ctr (drop (16 * da) demo_aens) demo_plain 16 demo_nonce.
Definition demo_decrypt_ci (da : nat) : conn_info_t :=
  {| body := [0x01; 100; 0; 0; 0] ++ zeros 16
             ++ [0; 0; 0; Z.of_nat da; 0; 0x01; 100; 0; 0; 0] ++ demo_cipher da ++ [0xff; 0xff];
     body_size := 49; output := None; output_size := 0; command_status := -999;
     nonce := demo_nonce |}.

(** A 31-byte [cmd_encrypt_key] body laid out as the handler's comment
    says: 16 challenge bytes, den 1, sn 100, 8 key bytes, the EOF marker;
    and a store that also holds the page the handler looks up. *)
Definition demo_encrypt_ci : conn_info_t :=
  {| body := [0xC0; 0xC1; 0xC2; 0xC3; 0xC4; 0xC5; 0xC6; 0xC7;
              0xC8; 0xC9; 0xCA; 0xCB; 0xCC; 0xCD; 0xCE; 0xCF]
             ++ [0x01; 100; 0; 0; 0] ++ [0x11; 0x12; 0x13; 0x14; 0x15; 0x16; 0x17; 0x18]
             ++ [0xff; 0xff];
     body_size := 31; output := None; output_size := 0; command_status := -999;
     nonce := demo_nonce |}.
Definition demo_encrypt_env : KeyExchange.env :=
  {| KeyExchange.base := demo_world 1 0 1;
     KeyExchange.db :=
       {| Db.RECORDS_PER_PAGE := 1024;
          Db.pages := {[ (1, 0) := {| Db.data := zeros (17 * 1024); Db.is_dirty := false |};
                         (-64, 0xC4C3C2C1 / 1024) :=
                           {| Db.data := zeros (17 * 1024); Db.is_dirty := false |} ]};
          Db.mfs := 7; Db.held := [] |};
     KeyExchange.rand_after_srand := fun seed => 0x1234;
     KeyExchange.char_is_signed := true |}.

(** The array left by [demo_split] with bit 0 of the first data byte of
    fragment 3 (index 2) flipped. *)
Definition demo_corrupt : core_state :=
  let storage := fragment_storage demo_split.1.2 in
  let f := frag_at storage 2 in
  {| fragment_storage :=
       <[2%nat := set_data f (<[0%nat := Z.lxor (byte_at (data f) 0) 1]> (data f))]> storage;
     fragment_count := fragment_count demo_split.1.2 |}.

(** A disk whose metadata file for the key of [demo_metadata] holds the
    record of another key with the same four leading bytes. *)
Definition demo_other_metadata : rke_key_metadata_t :=
  {| key_id := [0;1;2;3;4;5;6;7;8;9;10;11;12;13;14;0xFF];
     key_type := RKE_KEY_TYPE_SYMMETRIC;
     md_total_fragments := 5; md_threshold := 3;
     timestamp := 1721433600; den := 0; sn := 0 |}.
Definition demo_collision_disk : disk_t :=
  {| files := {[ metadata_path (demo_config 1) (key_id demo_metadata) :=
                   {| contents := metadata_bytes demo_other_metadata; read_fails := false |} ]};
     mkdir_fails := false; creat_fails := false; write_limit := None |}.

(** Scenario S1 of the specification: [rke_generate] for key
    [00 01 .. 0f], symmetric, N = 5, T = 3, on an empty disk, followed by
    [rke_query] for the same key. *)
Definition demo_generate_ci : conn_info_t :=
  {| body := key_id demo_metadata ++ [RKE_KEY_TYPE_SYMMETRIC; 5; 3; 0xff; 0xff];
     body_size := 21; output := None; output_size := 0; command_status := -999;
     nonce := demo_nonce |}.
Definition demo_query_ci : conn_info_t :=
  {| body := key_id demo_metadata ++ [0xff; 0xff];
     body_size := 18; output := None; output_size := 0; command_status := -999;
     nonce := demo_nonce |}.
Definition demo_empty_world : world :=
  {| config := demo_config 1;
     disk := {| files := ∅; mkdir_fails := false; creat_fails := false; write_limit := None |};
     core := core_init;
     rnd := repeat (Some (map (fun i => Z.of_nat i mod 256) (seq 7 256))) 5;
     now := 1721433600; heap_ok := true |}.

(** Two runs of [rke_reconstruct] for the key of [demo_metadata]: the
    same process state (the array left by [demo_split]), the same
    metadata file, fragment files 1 and 2 present in both; in the second
    run fragment file 1 is empty. *)
Definition demo_files_A : gmap string file_t :=
  {[ metadata_path (demo_config 1) (key_id demo_metadata) :=
       {| contents := metadata_bytes demo_metadata; read_fails := false |};
     fragment_path (demo_config 1) (key_id demo_metadata) 1 :=
       {| contents := fragment_bytes (frag_at (fragment_storage demo_split.1.2) 0);
          read_fails := false |};
     fragment_path (demo_config 1) (key_id demo_metadata) 2 :=
       {| contents := fragment_bytes (frag_at (fragment_storage demo_split.1.2) 1);
          read_fails := false |} ]}.
Definition demo_files_B : gmap string file_t :=
  <[fragment_path (demo_config 1) (key_id demo_metadata) 1 :=
      {| contents := []; read_fails := false |}]> demo_files_A.
Definition demo_reconstruct_world (fs : gmap string file_t) : world :=
  {| config := demo_config 1;
     disk := {| files := fs; mkdir_fails := false; creat_fails := false; write_limit := None |};
     core := demo_split.1.2; rnd := []; now := 1721433600; heap_ok := true |}.

(** What [rke_split_key] writes into entry [j] of the array, checksum
    apart: the header fields and a data area that is zero from byte [L]
    on. *)
Definition fragment_of_split (metadata : rke_key_metadata_t) (L : Z) (j : nat)
    (f : rke_fragment_t) : Prop :=
  fragment_id f = Z.of_nat (j + 1) /\
  total_fragments f = md_total_fragments metadata /\
  threshold f = md_threshold metadata /\
  fragment_size f = L /\
  length (data f) = 256%nat /\
  forall b, (Z.to_nat L <= b)%nat -> byte_at (data f) b = 0.

(** Every element of a buffer is a byte. *)
Definition bytes_ok (l : list Z) : bool := forallb (fun b => (0 <=? b) && (b <? 256)) l.

(** The bytes [cmd_post_key] writes for the request body [payload]: the
    denomination, the four bytes of the serial number and [kl] bytes of
    the 128-byte key area from offset [ks] on. *)
Definition posted_key (payload : list Z) : list Z :=
  byte_at payload 32 :: take 4 (drop 33 payload)
  ++ take (Z.to_nat (byte_at payload 166)) (drop (37 + Z.to_nat (byte_at payload 165)) payload).

(** The contents of the file at [path], empty when there is none. *)
Definition contents_at (d : disk_t) (path : string) : list Z :=
  match files d !! path with Some f => contents f | None => [] end.

(** The page lock that block [i] of a [cmd_decrypt_raida_key] body leaves
    held: that of the page of its coin, when its peer number and split id
    are in range and the page is there. *)
Definition lock_left_by_block (db : Db.store) (payload : list Z) (i : nat) : list (Z * Z) :=
  let off := (21 + i * 26)%nat in
  let split_id := byte_at payload (off + 2) in
  let da := byte_at payload (off + 3) in
  let den := KeyExchange.int8_of_byte (byte_at payload (off + 5)) in
  let sn := get_sn payload (off + 6) in
  if da >? 24 then []
  else if negb (split_id =? 0) && negb (split_id =? 1) then []
  else
    match Db.pages db !! Db.page_key db den sn with
    | Some _ => [Db.page_key db den sn]
    | None => []
    end.

(** A request whose one block is for the coin F8:100 (denomination -8),
    comes from peer 0 and decrypts under that peer's table bytes to a
    well-formed block for the same coin; and a store that holds the page
    of that coin. *)
Definition demo_high_den_plain : list Z :=
  [0xA1; 0xA2; 0xA3; 0xA4; 0xA5; 0xA6; 0xA7; 0xA8; 0xF8; 100; 0; 0; 0; 0x12; 0x34; 0xff].
Definition demo_high_den_ci : conn_info_t :=
  {| body := [0x01; 100; 0; 0; 0] ++ zeros 16
             ++ [0; 0; 0; 0; 0; 0xF8; 100; 0; 0; 0]
             ++ Aes.crypt_ctr demo_aens demo_high_den_plain 16 demo_nonce ++ [0xff; 0xff];
     body_size := 49; output := None; output_size := 0; command_status := -999;
     nonce := demo_nonce |}.
Definition demo_high_den_env : KeyExchange.env :=
  {| KeyExchange.base := demo_world 1 0 1;
     KeyExchange.db :=
       {| Db.RECORDS_PER_PAGE := 1024;
          Db.pages := {[ (-8, 0) := {| Db.data := zeros (17 * 1024); Db.is_dirty := false |} ]};
          Db.mfs := 7; Db.held := [] |};
     KeyExchange.rand_after_srand := fun seed => 0x1234;
     KeyExchange.char_is_signed := true |}.

(** The fragment files of a key with ids 1 .. [t] that are present all
    pass [rke_load_fragment]. *)
Definition required_fragments_load (cfg : config_s) (d : disk_t) (kid : list Z) (t : Z) : Prop :=
  forall id, 1 <= id <= t -> rke_fragment_exists cfg d kid id = true ->
    (rke_load_fragment cfg d kid id).1 = RKE_SUCCESS.

(** Two more runs for the key of [demo_metadata], whose threshold is 2:
    fragment file 3 is present in both, well formed in the first and
    empty in the second. *)
Definition demo_files_D : gmap string file_t :=
  <[fragment_path (demo_config 1) (key_id demo_metadata) 3 :=
      {| contents := fragment_bytes (frag_at (fragment_storage demo_split.1.2) 2);
         read_fails := false |}]> demo_files_A.
Definition demo_files_E : gmap string file_t :=
  <[fragment_path (demo_config 1) (key_id demo_metadata) 3 :=
      {| contents := []; read_fails := false |}]> demo_files_D.


(* ===================================================================== *)
(** * Properties *)
(* ===================================================================== *)

Example sha_abc : Sha256.simple_sha256 [97; 98; 99] =
  [0xba; 0x78; 0x16; 0xbf; 0x8f; 0x01; 0xcf; 0xea; 0x41; 0x41; 0x40; 0xde; 0x5d; 0xae; 0x22; 0x23;
   0xb0; 0x03; 0x61; 0xa3; 0x96; 0x17; 0x7a; 0x9c; 0xb4; 0x10; 0xff; 0x61; 0xf2; 0x00; 0x15; 0xad].
Proof. vm_compute. reflexivity. Qed.

(** ** Loops and buffers *)

Lemma for_loop_S_r {S : Type} (n lo : nat) (body : nat -> S -> S) (s : S) :
  for_loop (Datatypes.S n) lo body s = body (lo + n)%nat (for_loop n lo body s).
Proof.
  revert lo s. induction n as [|n IH]; intros lo s.
  - simpl. by rewrite Nat.add_0_r.
  - change (for_loop (Datatypes.S (Datatypes.S n)) lo body s)
      with (for_loop (Datatypes.S n) (Datatypes.S lo) body (body lo s)).
    rewrite IH. simpl. f_equal. lia.
Qed.

Lemma for_loop_ext {S : Type} (n lo : nat) (f g : nat -> S -> S) (s : S) :
  (forall i x, (lo <= i < lo + n)%nat -> f i x = g i x) ->
  for_loop n lo f s = for_loop n lo g s.
Proof.
  revert lo s. induction n as [|n IH]; intros lo s H; simpl; [done|].
  rewrite (H lo s) by lia. apply IH. intros i x Hi. apply H. lia.
Qed.

Lemma nth_list_insert {A : Type} (l : list A) (i j : nat) (x d : A) :
  nth j (<[i:=x]> l) d = if decide (j = i /\ (i < length l)%nat) then x else nth j l d.
Proof.
  rewrite !nth_lookup. case_decide as H.
  - destruct H as [-> H]. by rewrite list_lookup_insert_eq.
  - destruct (decide (j = i)) as [->|Hne].
    + rewrite list_insert_ge; [done | lia].
    + by rewrite list_lookup_insert_ne.
Qed.

Lemma byte_at_insert (l : list Z) (i j : nat) (x : Z) :
  byte_at (<[i:=x]> l) j = if decide (j = i /\ (i < length l)%nat) then x else byte_at l j.
Proof. apply nth_list_insert. Qed.

Lemma byte_ext (a b : list Z) :
  length a = length b -> (forall j, (j < length a)%nat -> byte_at a j = byte_at b j) -> a = b.
Proof. intros Hl H. apply (nth_ext a b 0 0 Hl H). Qed.

Lemma bytewise_length g n lo d : length (bytewise g n lo d) = length d.
Proof.
  unfold bytewise. revert lo d. induction n as [|n IH]; intros lo d; simpl; [done|].
  rewrite IH. apply length_insert.
Qed.

Lemma bytewise_at g n lo d j :
  byte_at (bytewise g n lo d) j =
  if decide ((lo <= j < lo + n)%nat /\ (j < length d)%nat) then g j (byte_at d j)
  else byte_at d j.
Proof.
  unfold bytewise. revert lo d. induction n as [|n IH]; intros lo d; simpl.
  - case_decide; [lia | done].
  - rewrite IH, length_insert, !byte_at_insert.
    repeat case_decide; try lia; try done; destruct_and?; subst; try lia; done.
Qed.

Lemma memcpy_length dst src n : length (memcpy dst src n) = length dst.
Proof. apply (bytewise_length (fun i _ => byte_at src i)). Qed.

Lemma memcpy_at dst src n j :
  byte_at (memcpy dst src n) j =
  if decide ((j < n)%nat /\ (j < length dst)%nat) then byte_at src j else byte_at dst j.
Proof.
  change (memcpy dst src n) with (bytewise (fun i _ => byte_at src i) n 0 dst).
  rewrite bytewise_at.
  repeat case_decide; try done; lia.
Qed.

Lemma xor_into_length dst src n : length (xor_into dst src n) = length dst.
Proof. apply (bytewise_length (fun i b => Z.lxor b (byte_at src i))). Qed.

Lemma xor_into_at dst src n j :
  byte_at (xor_into dst src n) j =
  if decide ((j < n)%nat /\ (j < length dst)%nat)
  then Z.lxor (byte_at dst j) (byte_at src j) else byte_at dst j.
Proof.
  change (xor_into dst src n) with (bytewise (fun i b => Z.lxor b (byte_at src i)) n 0 dst).
  rewrite bytewise_at.
  repeat case_decide; try done; lia.
Qed.

Lemma memcmp_eq_refl a n : memcmp_eq a a n = true.
Proof.
  unfold memcmp_eq. generalize 0%nat. induction n as [|n IH]; intros lo; simpl; [done|].
  rewrite Z.eqb_refl. apply IH.
Qed.

(** ** [crypt_ctr] *)

Lemma crypt_ctr_length key d n nonce : length (Aes.crypt_ctr key d n nonce) = length d.
Proof.
  apply (bytewise_length
           (fun i b => Z.lxor b (Z.lxor (byte_at key (i mod 16)) (byte_at nonce (i mod 16))))).
Qed.

Lemma crypt_ctr_at key d n nonce j :
  byte_at (Aes.crypt_ctr key d n nonce) j =
  if decide ((j < n)%nat /\ (j < length d)%nat)
  then Z.lxor (byte_at d j) (Z.lxor (byte_at key (j mod 16)) (byte_at nonce (j mod 16)))
  else byte_at d j.
Proof.
  change (Aes.crypt_ctr key d n nonce)
    with (bytewise
            (fun i b => Z.lxor b (Z.lxor (byte_at key (i mod 16)) (byte_at nonce (i mod 16))))
            n 0 d).
  rewrite bytewise_at.
  repeat case_decide; try done; lia.
Qed.

Lemma lxor_cancel_r (a b : Z) : Z.lxor (Z.lxor a b) b = a.
Proof. by rewrite Z.lxor_assoc, Z.lxor_nilpotent, Z.lxor_0_r. Qed.

(** C8.  [crypt_ctr] replaces every byte [i] of the [n]-byte buffer by
    [buf[i] ^ key[i mod 16] ^ nonce[i mod 16]], leaves the rest of the
    memory alone, and applying it twice with the same key and nonce gives
    the original buffer back. *)
Theorem crypt_ctr_involutive (key nonce buf : list Z) (n : nat) :
  (n <= length buf)%nat ->
  (forall i, (i < n)%nat ->
     byte_at (Aes.crypt_ctr key buf n nonce) i =
     Z.lxor (byte_at buf i) (Z.lxor (byte_at key (i mod 16)) (byte_at nonce (i mod 16)))) /\
  length (Aes.crypt_ctr key buf n nonce) = length buf /\
  Aes.crypt_ctr key (Aes.crypt_ctr key buf n nonce) n nonce = buf.
Proof.
  intros Hn. split; [|split].
  - intros i Hi. rewrite crypt_ctr_at. case_decide; [done | lia].
  - apply crypt_ctr_length.
  - apply byte_ext.
    + by rewrite !crypt_ctr_length.
    + intros j _. rewrite !crypt_ctr_at, crypt_ctr_length.
      case_decide; [|done]. apply lxor_cancel_r.
Qed.

Lemma crypt_ctr_involutive_witness :
  Aes.crypt_ctr [1;2;3;4;5;6;7;8;9;10;11;12;13;14;15;16]
    (Aes.crypt_ctr [1;2;3;4;5;6;7;8;9;10;11;12;13;14;15;16] [0xAA; 0xBB; 0xCC] 3
                   [16;15;14;13;12;11;10;9;8;7;6;5;4;3;2;1]) 3
    [16;15;14;13;12;11;10;9;8;7;6;5;4;3;2;1] = [0xAA; 0xBB; 0xCC].
Proof.
  apply (crypt_ctr_involutive [1;2;3;4;5;6;7;8;9;10;11;12;13;14;15;16]
           [16;15;14;13;12;11;10;9;8;7;6;5;4;3;2;1] [0xAA; 0xBB; 0xCC] 3).
  simpl. lia.
Defined.

(** ** Splitting and reconstruction *)

Lemma frag_at_insert (s : list rke_fragment_t) (i j : nat) (x : rke_fragment_t) :
  frag_at (<[i:=x]> s) j = if decide (j = i /\ (i < length s)%nat) then x else frag_at s j.
Proof. apply nth_list_insert. Qed.

Lemma byte_at_zeros n b : byte_at (zeros n) b = 0.
Proof. unfold byte_at, zeros. apply nth_repeat. Qed.

Lemma xor_col_ext s1 s2 b lo cnt :
  (forall j, (lo <= j < lo + cnt)%nat -> data (frag_at s1 j) = data (frag_at s2 j)) ->
  xor_col s1 b lo cnt = xor_col s2 b lo cnt.
Proof. intros H. unfold xor_col. apply for_loop_ext. intros i x Hi. by rewrite H. Qed.

Lemma xor_col_S_r s b lo cnt :
  xor_col s b lo (S cnt) =
  Z.lxor (xor_col s b lo cnt) (byte_at (data (frag_at s (lo + cnt))) b).
Proof. unfold xor_col. by rewrite for_loop_S_r. Qed.

Lemma xor_col_acc s b cnt : forall lo a,
  for_loop cnt lo (fun j acc => Z.lxor acc (byte_at (data (frag_at s j)) b)) a =
  Z.lxor a (xor_col s b lo cnt).
Proof.
  induction cnt as [|cnt IH]; intros lo a.
  - unfold xor_col. simpl. by rewrite Z.lxor_0_r.
  - rewrite xor_col_S_r, for_loop_S_r, IH. by rewrite Z.lxor_assoc.
Qed.

Lemma xor_col_S_l s b lo cnt :
  xor_col s b lo (S cnt) =
  Z.lxor (byte_at (data (frag_at s lo)) b) (xor_col s b (S lo) cnt).
Proof. unfold xor_col at 1. simpl. by rewrite xor_col_acc, Z.lxor_0_l. Qed.

Lemma secure_random_bytes_length rnd buf n rv out rnd' :
  secure_random_bytes rnd buf n = (rv, out, rnd') -> length out = length buf.
Proof.
  unfold secure_random_bytes. destruct rnd as [|[bs|] rnd0]; intros [= <- <- <-]; try done.
  apply memcpy_length.
Qed.

(** One iteration of the fragment loop for a fragment other than the first. *)
Lemma split_loop_next n k key L metadata storage rnd :
  (1 <= k)%nat ->
  split_loop (S n) (S k) key L metadata storage rnd =
  let fragment :=
    {| fragment_id := Z.of_nat (S k);
       total_fragments := md_total_fragments metadata;
       threshold := md_threshold metadata;
       fragment_size := L;
       data := zeros RKE_FRAGMENT_DATA_SIZE;
       checksum := checksum (frag_at storage k) |} in
  let '(rv, mask, rnd') := secure_random_bytes rnd (data fragment) (Z.to_nat L) in
  let fragment := set_data fragment mask in
  let storage := <[k := fragment]> storage in
  if negb (rv =? 0) then (RKE_ERROR_CRYPTO_FAIL, storage, rnd')
  else
    let first := frag_at storage 0 in
    split_loop n (S (S k)) key L metadata
      (<[0%nat := set_data first (xor_into (data first) (data fragment) (Z.to_nat L))]> storage)
      rnd'.
Proof. intros Hk. destruct k as [|k]; [lia|]. reflexivity. Qed.

Lemma split_loop_inv n : forall k key L metadata storage rnd storage' rnd',
  (1 <= k)%nat -> (k + n <= 256)%nat -> 0 <= L <= 256 ->
  length storage = 256%nat ->
  length (data (frag_at storage 0)) = 256%nat ->
  (forall b, (b < Z.to_nat L)%nat ->
     byte_at (data (frag_at storage 0)) b =
     Z.lxor (byte_at key b) (xor_col storage b 1 (k - 1))) ->
  split_loop n (S k) key L metadata storage rnd = (RKE_SUCCESS, storage', rnd') ->
  length storage' = 256%nat /\
  length (data (frag_at storage' 0)) = 256%nat /\
  (forall b, (b < Z.to_nat L)%nat ->
     byte_at (data (frag_at storage' 0)) b =
     Z.lxor (byte_at key b) (xor_col storage' b 1 (k + n - 1))).
Proof.
  induction n as [|n IH]; intros k key L metadata storage rnd storage' rnd' Hk Hkn HL Hlen Hd0 Hinv.
  - simpl. intros [= <- <-]. by rewrite Nat.add_0_r.
  - rewrite split_loop_next by done. cbv zeta. cbn [data].
    destruct (secure_random_bytes rnd (zeros RKE_FRAGMENT_DATA_SIZE) (Z.to_nat L))
      as [[rv mask] rnd1] eqn:Hrnd.
    destruct (rv =? 0) eqn:Hrv; cbn [negb]; [|intros [= ? _ _]; done].
    intros Hrun.
    assert (Hmask : length mask = 256%nat).
    { apply secure_random_bytes_length in Hrnd. rewrite Hrnd. apply repeat_length. }
    set (fragment := set_data _ mask) in Hrun.
    set (storage1 := <[k:=fragment]> storage) in Hrun.
    assert (Hfirst : frag_at storage1 0 = frag_at storage 0).
    { unfold storage1. rewrite frag_at_insert. case_decide; [lia | done]. }
    rewrite Hfirst in Hrun.
    assert (Hlen1 : length storage1 = 256%nat).
    { unfold storage1. by rewrite length_insert. }
    assert (Hk1 : frag_at storage1 k = fragment).
    { unfold storage1. rewrite frag_at_insert. case_decide; [done | lia]. }
    assert (Hother : forall j, j <> k -> frag_at storage1 j = frag_at storage j).
    { intros j Hj. unfold storage1. rewrite frag_at_insert. case_decide; [lia | done]. }
    clearbody storage1.
    apply IH in Hrun; try lia.
    + replace (S k + n - 1)%nat with (k + S n - 1)%nat in Hrun by lia. exact Hrun.
    + by rewrite length_insert.
    + rewrite frag_at_insert, Hlen1.
      case_decide; [|lia]. cbn [data set_data]. by rewrite xor_into_length.
    + intros b Hb. rewrite frag_at_insert, Hlen1.
      case_decide; [|lia]. cbn [data set_data].
      rewrite xor_into_at. case_decide; [|lia].
      rewrite Hinv by done.
      replace (S k - 1)%nat with (S (k - 1)) by lia.
      rewrite xor_col_S_r. replace (1 + (k - 1))%nat with k by lia.
      rewrite Z.lxor_assoc. f_equal. f_equal.
      * apply xor_col_ext. intros j Hj. rewrite frag_at_insert.
        case_decide; [lia|]. rewrite Hother by lia. done.
      * rewrite frag_at_insert. case_decide; [lia|]. by rewrite Hk1.
Qed.

Lemma checksum_loop_spec n : forall i storage,
  (i + n <= length storage)%nat ->
  exists storage',
    checksum_loop n i storage = (RKE_SUCCESS, storage') /\
    length storage' = length storage /\
    forall j, frag_at storage' j =
              if decide (i <= j < i + n)%nat
              then set_checksum (frag_at storage j)
                     (Sha256.simple_sha256 (hash_input (frag_at storage j)))
              else frag_at storage j.
Proof.
  induction n as [|n IH]; intros i storage Hlen.
  - exists storage. split; [done|]. split; [done|]. intros j. case_decide; [lia | done].
  - cbn [checksum_loop]. unfold rke_calculate_checksum at 1.
    change (negb (RKE_SUCCESS =? RKE_SUCCESS)) with false. cbv iota beta.
    set (f := set_checksum _ _).
    destruct (IH (S i) (<[i:=f]> storage)) as (storage' & Hrun & Hl & Hat).
    { rewrite length_insert. lia. }
    exists storage'. split; [done|]. rewrite Hl, length_insert. split; [done|].
    intros j. rewrite Hat, frag_at_insert.
    repeat case_decide; destruct_and?; subst; try lia; reflexivity.
Qed.

Lemma verify_calculated f :
  rke_verify_checksum (set_checksum f (Sha256.simple_sha256 (hash_input f))) = RKE_SUCCESS.
Proof.
  unfold rke_verify_checksum, rke_calculate_checksum. cbv iota beta.
  change (negb (RKE_SUCCESS =? RKE_SUCCESS)) with false. cbv iota.
  unfold set_checksum at 1 2. cbn [checksum].
  change (hash_input _) with (hash_input f).
  by rewrite memcmp_eq_refl.
Qed.

Lemma verify_loop_ok n : forall i storage,
  (forall j, (i <= j < i + n)%nat -> rke_verify_checksum (frag_at storage j) = RKE_SUCCESS) ->
  verify_loop n i storage = RKE_SUCCESS.
Proof.
  induction n as [|n IH]; intros i storage H; [done|].
  cbn [verify_loop]. rewrite H by lia.
  change (negb (RKE_SUCCESS =? RKE_SUCCESS)) with false. cbv iota.
  apply IH. intros j Hj. apply H. lia.
Qed.

Lemma xor_loop_at s L n : forall key b,
  length (for_loop n 1%nat (fun idx key => xor_into key (data (frag_at s idx)) L) key)
  = length key /\
  ((b < L)%nat -> (b < length key)%nat ->
   byte_at (for_loop n 1%nat (fun idx key => xor_into key (data (frag_at s idx)) L) key) b
   = Z.lxor (byte_at key b) (xor_col s b 1 n)).
Proof.
  induction n as [|n IH]; intros key b.
  - simpl. split; [done|]. intros _ _. unfold xor_col. simpl. by rewrite Z.lxor_0_r.
  - rewrite for_loop_S_r. destruct (IH key b) as [Hl Hb]. split.
    + by rewrite xor_into_length.
    + intros H1 H2. rewrite xor_into_at, Hl. case_decide; [|lia].
      rewrite Hb by done. rewrite xor_col_S_r. by rewrite Z.lxor_assoc.
Qed.

Lemma xor_fragments_at s l n : forall b,
  length (xor_fragments s n l) = l /\
  ((b < l)%nat -> byte_at (xor_fragments s n l) b = xor_col s b 0 n).
Proof.
  unfold xor_fragments. induction n as [|n IH]; intros b.
  - simpl. split; [apply repeat_length|]. intros _. apply byte_at_zeros.
  - rewrite for_loop_S_r. destruct (IH b) as [Hl Hb]. split.
    + by rewrite xor_into_length.
    + intros H. rewrite xor_into_at, Hl. case_decide; [|lia].
      rewrite Hb by done. by rewrite xor_col_S_r.
Qed.

Lemma byte_at_take l n b : (b < n)%nat -> byte_at (take n l) b = byte_at l b.
Proof. intros H. unfold byte_at. by rewrite !nth_lookup, lookup_take_lt. Qed.

Lemma byte_at_drop l n b : byte_at (drop n l) b = byte_at l (n + b).
Proof. unfold byte_at. by rewrite !nth_lookup, lookup_drop. Qed.

(** The first iteration of the fragment loop stores the key itself. *)
Lemma split_loop_first n key L metadata storage rnd :
  split_loop (S n) 1 key L metadata storage rnd =
  split_loop n 2 key L metadata
    (<[0%nat := {| fragment_id := 1;
                   total_fragments := md_total_fragments metadata;
                   threshold := md_threshold metadata;
                   fragment_size := L;
                   data := memcpy (zeros RKE_FRAGMENT_DATA_SIZE) key (Z.to_nat L);
                   checksum := checksum (frag_at storage 0) |}]> storage) rnd.
Proof. reflexivity. Qed.

(** What a successful [rke_split_key] leaves in the two globals. *)
Lemma rke_split_key_success st rnd key L metadata st' rnd' :
  1 <= L <= 256 -> 2 <= md_total_fragments metadata <= 255 ->
  rke_split_key st rnd key L metadata = (RKE_SUCCESS, st', rnd') ->
  fragment_count st' = md_total_fragments metadata /\
  length (fragment_storage st') = 256%nat /\
  (forall j, (j < Z.to_nat (md_total_fragments metadata))%nat ->
     rke_verify_checksum (frag_at (fragment_storage st') j) = RKE_SUCCESS) /\
  (forall b, (b < Z.to_nat L)%nat ->
     byte_at (data (frag_at (fragment_storage st') 0)) b =
     Z.lxor (byte_at key b)
            (xor_col (fragment_storage st') b 1 (Z.to_nat (md_total_fragments metadata) - 1))).
Proof.
  intros HL HN. unfold rke_split_key.
  destruct (Z.eqb_spec L 0) as [|_]; [lia|].
  destruct (Z.gtb_spec L RKE_MAX_KEY_SIZE) as [?|_]; [unfold RKE_MAX_KEY_SIZE in *; lia|].
  cbn [orb].
  destruct (md_threshold metadata >? md_total_fragments metadata); [intros [= ? _ _]; done|].
  destruct (md_threshold metadata <? RKE_MIN_THRESHOLD); [intros [= ? _ _]; done|].
  set (N := md_total_fragments metadata) in *.
  destruct (Z.to_nat N) as [|n] eqn:HNn; [lia|].
  rewrite split_loop_first.
  set (first := Fragment 1 _ _ _ _ _).
  assert (Hinit : length (repeat zero_fragment 256) = 256%nat) by apply repeat_length.
  set (storage0 := repeat zero_fragment 256) in *. clearbody storage0.
  destruct (split_loop n 2 key L metadata (<[0%nat:=first]> storage0) rnd)
    as [[rv storage1] rnd1] eqn:Hloop.
  destruct (rv =? RKE_SUCCESS) eqn:Hrv; cbn [negb].
  2:{ intros H. discriminate H. }
  apply Z.eqb_eq in Hrv. subst rv.
  apply split_loop_inv in Hloop; try lia.
  - destruct Hloop as (Hlen1 & Hd1 & Hinv1).
    destruct (checksum_loop_spec (S n) 0 storage1) as (storage2 & Hck & Hlen2 & Hat); [lia|].
    rewrite Hck. change (negb (RKE_SUCCESS =? RKE_SUCCESS)) with false. cbv iota.
    intros [= <- <-]. cbn [fragment_count fragment_storage].
    assert (Hdata : forall j, data (frag_at storage2 j) = data (frag_at storage1 j)).
    { intros j. rewrite Hat. by case_decide. }
    split; [done|]. split; [lia|]. split.
    + intros j Hj. rewrite Hat. case_decide; [|lia]. apply verify_calculated.
    + intros b Hb. rewrite Hdata, Hinv1 by done. f_equal.
      replace (1 + n - 1)%nat with (S n - 1)%nat by lia.
      apply xor_col_ext. intros j _. by rewrite Hdata.
  - by rewrite length_insert.
  - rewrite frag_at_insert. case_decide; [|lia]. unfold first. cbn [data].
    rewrite memcpy_length. apply repeat_length.
  - intros b Hb. rewrite frag_at_insert. case_decide; [|lia]. unfold first. cbn [data].
    rewrite memcpy_at. unfold xor_col. simpl for_loop. rewrite Z.lxor_0_r.
    case_decide as Hc; [done|]. exfalso. apply Hc. split; [done|].
    unfold zeros, RKE_FRAGMENT_DATA_SIZE. rewrite repeat_length. lia.
Qed.

(** C1.  After a successful [rke_split_key] of an [L]-byte key into [N]
    fragments with threshold [T] (1 <= L <= 256, 2 <= T <= N <= 255), the
    XOR of [data[0 .. L)] of the [N] fragments is the key, and
    [rke_reconstruct_key] succeeds and writes exactly the key into the
    first [L] bytes of the caller's buffer. *)
Theorem split_reconstruct_roundtrip
    (st : core_state) (rnd : entropy) (key buf : list Z) (L N T : Z)
    (metadata : rke_key_metadata_t) (st' : core_state) (rnd' : entropy) :
  1 <= L <= 256 -> length key = Z.to_nat L ->
  2 <= N <= 255 -> 2 <= T <= N ->
  md_total_fragments metadata = N -> md_threshold metadata = T ->
  (Z.to_nat L <= length buf)%nat ->
  rke_split_key st rnd key L metadata = (RKE_SUCCESS, st', rnd') ->
  xor_fragments (fragment_storage st') (Z.to_nat N) (Z.to_nat L) = key /\
  exists out,
    rke_reconstruct_key st' buf L metadata = (RKE_SUCCESS, out) /\
    take (Z.to_nat L) out = key.
Proof.
  intros HL Hkey HN HT HmN HmT Hbuf Hsplit.
  apply rke_split_key_success in Hsplit; [|lia|lia].
  rewrite HmN in Hsplit. destruct Hsplit as (Hcount & Hlen & Hver & Hinv).
  destruct (Z.to_nat N) as [|n] eqn:HNn; [lia|].
  replace (S n - 1)%nat with n in Hinv by lia.
  split.
  - apply byte_ext.
    + destruct (xor_fragments_at (fragment_storage st') (Z.to_nat L) (S n) 0%nat) as [-> _].
      done.
    + intros b Hb.
      destruct (xor_fragments_at (fragment_storage st') (Z.to_nat L) (S n) b) as [Hl Hat].
      rewrite Hl in Hb. rewrite Hat by done.
      rewrite xor_col_S_l, Hinv by lia. rewrite Z.lxor_assoc, Z.lxor_nilpotent.
      apply Z.lxor_0_r.
  - unfold rke_reconstruct_key.
    destruct (Z.eqb_spec L 0) as [|_]; [lia|].
    rewrite Hcount, HmT.
    destruct (Z.ltb_spec N T) as [|_]; [lia|].
    rewrite verify_loop_ok.
    2:{ intros j Hj. apply Hver. lia. }
    change (negb (RKE_SUCCESS =? RKE_SUCCESS)) with false. cbv iota.
    eexists. split; [reflexivity|].
    replace (Z.to_nat N - 1)%nat with n by lia.
    set (key0 := memcpy buf _ _).
    destruct (xor_loop_at (fragment_storage st') (Z.to_nat L) n key0 0%nat) as [Hl0 _].
    assert (Hk0 : length key0 = length buf) by apply memcpy_length.
    apply byte_ext.
    + rewrite length_take, Hl0, Hk0. lia.
    + intros b Hb. rewrite length_take in Hb.
      rewrite byte_at_take by lia.
      destruct (xor_loop_at (fragment_storage st') (Z.to_nat L) n key0 b) as [_ ->]; try lia.
      unfold key0. rewrite memcpy_at. case_decide; [|lia].
      rewrite Hinv by lia. rewrite Z.lxor_assoc, Z.lxor_nilpotent. apply Z.lxor_0_r.
Qed.

Lemma split_reconstruct_roundtrip_witness :
  xor_fragments (fragment_storage demo_split.1.2) (Z.to_nat 3) (Z.to_nat 4) = demo_key /\
  exists out,
    rke_reconstruct_key demo_split.1.2 (zeros 4) 4 demo_metadata = (RKE_SUCCESS, out) /\
    take (Z.to_nat 4) out = demo_key.
Proof.
  apply (split_reconstruct_roundtrip core_init demo_entropy demo_key (zeros 4) 4 3 2
           demo_metadata demo_split.1.2 demo_split.2).
  - lia.
  - reflexivity.
  - lia.
  - lia.
  - reflexivity.
  - reflexivity.
  - simpl. lia.
  - vm_compute. reflexivity.
Defined.

(** ** [cmd_decrypt_raida_key]: status and result bytes *)







(** ** [cmd_decrypt_raida_key]: the key a block is decrypted with *)

(** The handler passes [&aens[da]] to [crypt_ctr]: byte [i] of the key
    block is combined with byte [da + i] of the 400-byte table. *)
Lemma decrypt_block_key_bytes (aens ky nonce : list Z) (da i : nat) :
  (i < 16)%nat -> (16 <= length ky)%nat ->
  byte_at (Aes.crypt_ctr (drop da aens) ky 16 nonce) i =
  Z.lxor (byte_at ky i) (Z.lxor (byte_at aens (da + i)) (byte_at nonce i)).
Proof.
  intros Hi Hl. rewrite crypt_ctr_at. case_decide; [|lia].
  rewrite Nat.mod_small by lia. by rewrite byte_at_drop.
Qed.

(** C3 (code at the failing input).  A block from peer 1, encrypted
    under that peer's secret (table bytes 16 .. 31) and carrying the right
    sentinel, denomination and serial number, is decrypted by the handler
    with table bytes 1 .. 16 and rejected. *)
Theorem decrypt_raida_key_peer1_rejected :
  Aes.crypt_ctr (drop (16 * 1) demo_aens) (demo_cipher 1) 16 demo_nonce = demo_plain /\
  take 16 (drop 31 (body (KeyExchange.cmd_decrypt_raida_key (demo_decrypt_ci 1) demo_env).1))
  = Aes.crypt_ctr (drop 1 demo_aens) (demo_cipher 1) 16 demo_nonce /\
  Aes.crypt_ctr (drop 1 demo_aens) (demo_cipher 1) 16 demo_nonce <> demo_plain /\
  command_status (KeyExchange.cmd_decrypt_raida_key (demo_decrypt_ci 1) demo_env).1
  = STATUS_SUCCESS /\
  output (KeyExchange.cmd_decrypt_raida_key (demo_decrypt_ci 1) demo_env).1 = Some [0x00] /\
  output (KeyExchange.cmd_decrypt_raida_key (demo_decrypt_ci 0) demo_env).1 = Some [0x01].
Proof. vm_compute. repeat split; try reflexivity. discriminate. Qed.

(** ** [cmd_encrypt_key] *)

Lemma byte_at_app_l (a b : list Z) i : (i < length a)%nat -> byte_at (a ++ b) i = byte_at a i.
Proof. intros H. unfold byte_at. by rewrite app_nth1. Qed.

Lemma byte_at_app_r (a b : list Z) i :
  (length a <= i)%nat -> byte_at (a ++ b) i = byte_at b (i - length a).
Proof. intros H. unfold byte_at. by rewrite app_nth2. Qed.

(** The layout of the sixteen bytes in terms of the bytes the handler
    reads: payload bytes 5 .. 12, the denomination, payload bytes 1 .. 4,
    two bytes of [r0], the sentinel. *)
Lemma encrypt_key_plain_layout (payload : list Z) (den r0 : Z) :
  let plain := KeyExchange.encrypt_key_plain payload den r0 in
  length plain = 16%nat /\
  (forall i, (i < 8)%nat -> byte_at plain i = byte_at payload (5 + i)) /\
  byte_at plain 8 = KeyExchange.byte_of_int8 den /\
  (forall i, (i < 4)%nat -> byte_at plain (9 + i) = byte_at payload (1 + i)) /\
  byte_at plain 13 = Z.land (Z.shiftr r0 8) 0xff /\
  byte_at plain 14 = Z.land r0 0xff /\
  byte_at plain 15 = 0xff.
Proof.
  intros plain. subst plain. unfold KeyExchange.encrypt_key_plain.
  set (o1 := memcpy (zeros 16) (drop 5 payload) 8).
  assert (H1 : length o1 = 16%nat) by (unfold o1; rewrite memcpy_length; apply repeat_length).
  set (o2 := <[8%nat:=KeyExchange.byte_of_int8 den]> o1).
  assert (H2 : length o2 = 16%nat) by (unfold o2; by rewrite length_insert).
  set (o3 := take 9 o2 ++ memcpy (drop 9 o2) (drop 1 payload) 4).
  assert (Ht : length (take 9 o2) = 9%nat) by (rewrite length_take; lia).
  assert (Hd : length (drop 9 o2) = 7%nat) by (rewrite length_drop; lia).
  assert (H3 : length o3 = 16%nat).
  { unfold o3. rewrite length_app, memcpy_length. lia. }
  assert (Ho2 : forall i, byte_at o2 i =
                          if decide (i = 8%nat) then KeyExchange.byte_of_int8 den
                          else byte_at o1 i).
  { intros i. unfold o2. rewrite byte_at_insert. repeat case_decide; try done; lia. }
  assert (Ho3 : forall i, (i < 9)%nat -> byte_at o3 i = byte_at o2 i).
  { intros i Hi. unfold o3. rewrite byte_at_app_l by lia. by apply byte_at_take. }
  split; [by rewrite !length_insert|]. split; [|split; [|split; [|split; [|split]]]].
  - intros i Hi. rewrite !byte_at_insert. repeat (case_decide; [lia|]).
    rewrite Ho3 by lia. rewrite Ho2. case_decide; [lia|]. unfold o1. rewrite memcpy_at.
    case_decide as Hc; [apply byte_at_drop|]. exfalso. apply Hc.
    unfold zeros. rewrite repeat_length. lia.
  - rewrite !byte_at_insert. repeat (case_decide; [lia|]).
    rewrite Ho3 by lia. rewrite Ho2. by case_decide.
  - intros i Hi. rewrite !byte_at_insert. repeat (case_decide; [lia|]).
    unfold o3. rewrite byte_at_app_r by lia. rewrite Ht, memcpy_at, Hd.
    case_decide; [|lia]. rewrite byte_at_drop. f_equal. lia.
  - rewrite !byte_at_insert, ?length_insert, H3. repeat case_decide; try done; lia.
  - rewrite !byte_at_insert, ?length_insert, H3. repeat case_decide; try done; lia.
  - rewrite !byte_at_insert, ?length_insert, H3. repeat case_decide; try done; lia.
Qed.

(** What the handler returns when the page is found and [malloc]
    succeeds: the block built from body byte 0 as denomination, body
    bytes 1 .. 4 as serial number and body bytes 5 .. 12 as key bytes,
    passed through [crypt_ctr] under the coin's 16-byte record. *)
Lemma cmd_encrypt_key_output (ci : conn_info_t) (e : KeyExchange.env) (page : Db.page_s) :
  body_size ci = 31 ->
  Db.pages (KeyExchange.db e)
    !! Db.page_key (KeyExchange.db e)
         (KeyExchange.int8_of_byte (byte_at (body ci) 0)) (get_sn (body ci) 1) = Some page ->
  heap_ok (KeyExchange.base e) = true ->
  let aen :=
    memcpy (zeros 16)
      (drop (Z.to_nat (get_sn (body ci) 1 mod Db.RECORDS_PER_PAGE (KeyExchange.db e) * 17))
            (Db.data page)) 16 in
  let plain :=
    KeyExchange.encrypt_key_plain (body ci) (KeyExchange.int8_of_byte (byte_at (body ci) 0))
      (KeyExchange.rand_after_srand e (now (KeyExchange.base e))) in
  command_status (KeyExchange.cmd_encrypt_key ci e).1 = NO_ERROR /\
  output_size (KeyExchange.cmd_encrypt_key ci e).1 = 16 /\
  output (KeyExchange.cmd_encrypt_key ci e).1 = Some (Aes.crypt_ctr aen plain 16 (nonce ci)).
Proof.
  intros Hsize Hpage Hheap aen plain. subst aen plain.
  unfold KeyExchange.cmd_encrypt_key, get_body_payload, malloc, Db.get_page_by_sn_lock.
  rewrite Hsize, Hpage. change (negb (31 =? 31)) with false. cbv iota beta zeta.
  cbn [KeyExchange.base KeyExchange.set_db]. rewrite Hheap. done.
Qed.

(** C4 (code at the failing input).  On a 31-byte body laid out as
    challenge, den [0x01], sn 100, key bytes, EOF, the handler takes the
    denomination from body byte 0 ([0xC0], a challenge byte) and the
    serial number from body bytes 1 .. 4: byte 8 of the block it builds is
    [0xC0], not the [0x01] found at byte 16, and bytes 0 .. 7 are body
    bytes 5 .. 12. *)
Theorem encrypt_key_reads_challenge_bytes :
  byte_at (body demo_encrypt_ci) 16 = 0x01 /\
  KeyExchange.encrypt_key_plain (body demo_encrypt_ci)
    (KeyExchange.int8_of_byte (byte_at (body demo_encrypt_ci) 0)) 0x1234
  = [0xC5; 0xC6; 0xC7; 0xC8; 0xC9; 0xCA; 0xCB; 0xCC; 0xC0; 0xC1; 0xC2; 0xC3; 0xC4;
     0x12; 0x34; 0xff] /\
  command_status (KeyExchange.cmd_encrypt_key demo_encrypt_ci demo_encrypt_env).1 = NO_ERROR /\
  output (KeyExchange.cmd_encrypt_key demo_encrypt_ci demo_encrypt_env).1
  = Some (Aes.crypt_ctr (zeros 16)
            [0xC5; 0xC6; 0xC7; 0xC8; 0xC9; 0xCA; 0xCB; 0xCC; 0xC0; 0xC1; 0xC2; 0xC3; 0xC4;
             0x12; 0x34; 0xff] 16 demo_nonce).
Proof. vm_compute. repeat split; reflexivity. Qed.

(** ** [load_my_enc_coin] *)

Lemma memcpy_full (buf src : list Z) (n : nat) :
  length buf = n -> (n <= length src)%nat -> memcpy buf src n = take n src.
Proof.
  intros Hb Hs. apply byte_ext.
  - rewrite memcpy_length, length_take. lia.
  - intros j Hj. rewrite memcpy_length in Hj. rewrite memcpy_at.
    case_decide; [|lia]. by rewrite byte_at_take by lia.
Qed.

(** Where plain [char] is unsigned the loader does what its callers
    expect: it succeeds exactly when the file opens, [read] delivers 440
    bytes and the 16-bit value [(byte2 << 8) | byte3] is
    [config.coin_id], and then the buffer holds file bytes 40 .. 439. *)
Lemma load_my_enc_coin_unsigned (cfg : config_s) (d : disk_t) (den sn : Z) (buf : list Z) :
  let path := cwd cfg +:+ "/coins/" +:+ fmt_02x den +:+ "." +:+ fmt_u sn +:+ ".bin" in
  length buf = 400%nat ->
  ((KeyExchange.load_my_enc_coin false cfg d den sn buf).1 = 0 <->
   exists f, open_rdonly d path = Some f /\ (read f 440).1 = 440 /\
             Z.lor (Z.shiftl (byte_at (contents f) 2) 8) (byte_at (contents f) 3) mod 2 ^ 16
             = coin_id cfg) /\
  ((KeyExchange.load_my_enc_coin false cfg d den sn buf).1 = 0 ->
   exists f, open_rdonly d path = Some f /\
             (KeyExchange.load_my_enc_coin false cfg d den sn buf).2
             = take 400 (drop 40 (contents f))).
Proof.
  intros path Hbuf. unfold KeyExchange.load_my_enc_coin. fold path.
  destruct (open_rdonly d path) as [f|]; cbn [fst snd].
  2:{ split; [split; [done | by intros (f & ? & _)] | done]. }
  unfold read. destruct (read_fails f) eqn:Hrf; cbn [fst snd].
  { change (-1 <? 0) with true. cbv iota. cbn [fst].
    split; [split; [done | intros (f' & [= <-] & Hr & _)] | done].
    rewrite Hrf in Hr. done. }
  set (tmp_buf := take 440 (contents f)).
  destruct (Z.ltb_spec (Z.of_nat (length tmp_buf)) 0) as [|_]; [lia|].
  unfold KeyExchange.char_value. cbn [andb].
  assert (Hb : forall i, (i < 440)%nat -> byte_at tmp_buf i = byte_at (contents f) i).
  { intros i Hi. by apply byte_at_take. }
  rewrite !Hb by lia.
  destruct (Z.eqb_spec (Z.of_nat (length tmp_buf)) 440) as [Hlen|Hlen]; cbn [negb fst snd].
  2:{ split; [split; [done | intros (f' & [= <-] & Hr & _); rewrite Hrf in Hr; done] | done]. }
  destruct (Z.eqb_spec
              (Z.lor (Z.shiftl (byte_at (contents f) 2) 8) (byte_at (contents f) 3) mod 2 ^ 16)
              (coin_id cfg)) as [Hid|Hid]; cbn [negb fst snd].
  - split; [split; [intros _; exists f; rewrite Hrf; done | done]|].
    intros _. exists f. split; [done|].
    assert (Hc : (440 <= length (contents f))%nat).
    { unfold tmp_buf in Hlen. rewrite length_take in Hlen. lia. }
    rewrite memcpy_full by (rewrite ?length_drop; unfold tmp_buf; rewrite ?length_take; lia).
    unfold tmp_buf. apply byte_ext.
    + rewrite !length_take, !length_drop, length_take. lia.
    + intros j Hj. rewrite length_take, length_drop, length_take in Hj.
      rewrite !byte_at_take by lia. rewrite !byte_at_drop. apply byte_at_take. lia.
  - split; [split; [done | intros (f' & [= <-] & _ & Hr); done] | done].
Qed.

Lemma load_my_enc_coin_unsigned_witness :
  (KeyExchange.load_my_enc_coin false (demo_config 0x0180) (demo_disk 0x01 0x80) 1 100
     (zeros 400)).1 = 0 ->
  exists f,
    open_rdonly (demo_disk 0x01 0x80) "/opt/raida/coins/01.100.bin" = Some f /\
    (KeyExchange.load_my_enc_coin false (demo_config 0x0180) (demo_disk 0x01 0x80) 1 100
       (zeros 400)).2 = take 400 (drop 40 (contents f)).
Proof.
  apply (load_my_enc_coin_unsigned (demo_config 0x0180) (demo_disk 0x01 0x80) 1 100 (zeros 400)).
  reflexivity.
Defined.

(** C9 (code at the failing input).  The coin file of coin 01:100 is
    440 bytes long and carries bytes [0x01 0x80] at offsets 2 and 3, so
    its coin id is [0x0180 = config.coin_id].  With plain [char] signed
    (x86 and x86-64 Linux), [tmp_buf[3]] is -128, the computed id is
    [0xff80], and the load fails; with plain [char] unsigned it
    succeeds. *)
Theorem load_my_enc_coin_signed_char :
  (read (demo_coin_file 0x01 0x80) 440).1 = 440 /\
  Z.lor (Z.shiftl 0x01 8) 0x80 = coin_id (demo_config 0x0180) /\
  KeyExchange.load_my_enc_coin true (demo_config 0x0180) (demo_disk 0x01 0x80) 1 100 (zeros 400)
  = (-1, zeros 400) /\
  KeyExchange.load_my_enc_coin false (demo_config 0x0180) (demo_disk 0x01 0x80) 1 100 (zeros 400)
  = (0, demo_aens).
Proof. vm_compute. repeat split; reflexivity. Qed.

(** ** [rke_load_metadata] *)

Lemma memcmp_loop_true (a b : list Z) (n : nat) : forall lo acc,
  for_loop n lo (fun i ok => ok && (byte_at a i =? byte_at b i)) acc = true <->
  acc = true /\ forall i, (lo <= i < lo + n)%nat -> byte_at a i = byte_at b i.
Proof.
  induction n as [|n IH]; intros lo acc; cbn [for_loop].
  - split; [intros ->; split; [done | intros; lia] | by intros [-> _]].
  - rewrite IH, andb_true_iff, Z.eqb_eq. split.
    + intros [[-> H0] H]. split; [done|]. intros i Hi.
      destruct (decide (i = lo)) as [->|]; [done | apply H; lia].
    + intros [-> H]. split; [split; [done | apply H; lia] | intros i Hi; apply H; lia].
Qed.

Lemma memcmp_eq_true (a b : list Z) (n : nat) :
  memcmp_eq a b n = true <-> forall i, (i < n)%nat -> byte_at a i = byte_at b i.
Proof.
  unfold memcmp_eq. rewrite memcmp_loop_true. split.
  - intros [_ H] i Hi. apply H. lia.
  - intros H. split; [done|]. intros i Hi. apply H. lia.
Qed.

(** The [key_id] member of the struct after a full [read]: file bytes
    0 .. 15. *)
Lemma loaded_key_id (f : file_t) (i : nat) :
  (read f sizeof_metadata).1 = Z.of_nat sizeof_metadata -> (i < 16)%nat ->
  byte_at (key_id (metadata_of_bytes
                     (memcpy (zeros sizeof_metadata) (read f sizeof_metadata).2
                             (length (read f sizeof_metadata).2)))) i
  = byte_at (contents f) i.
Proof.
  unfold read, sizeof_metadata. destruct (read_fails f); cbn [fst snd]; [done|].
  intros Hlen Hi. cbn [key_id metadata_of_bytes]. unfold RKE_KEY_ID_SIZE.
  rewrite byte_at_take by lia. rewrite memcpy_at.
  case_decide as Hc.
  - apply byte_at_take. lia.
  - exfalso. apply Hc. unfold zeros. rewrite repeat_length. lia.
Qed.

(** C10.  When the metadata file found for the lookup key holds a full
    record whose [key_id] differs from the lookup key in some byte,
    [rke_load_metadata] returns [RKE_ERROR_FRAGMENT_CORRUPT]; and whenever
    it returns [RKE_SUCCESS] the [key_id] of the record it hands back
    equals the lookup key byte for byte. *)
Theorem rke_load_metadata_rejects_mismatch
    (cfg : config_s) (d : disk_t) (kid : list Z) (f : file_t) :
  open_rdonly d (metadata_path cfg kid) = Some f ->
  ((read f sizeof_metadata).1 = Z.of_nat sizeof_metadata ->
   (exists i, (i < 16)%nat /\ byte_at (contents f) i <> byte_at kid i) ->
   (rke_load_metadata cfg d kid).1 = RKE_ERROR_FRAGMENT_CORRUPT) /\
  ((rke_load_metadata cfg d kid).1 = RKE_SUCCESS ->
   forall i, (i < 16)%nat ->
     byte_at (key_id (rke_load_metadata cfg d kid).2) i = byte_at kid i).
Proof.
  intros Hopen. unfold rke_load_metadata. rewrite Hopen.
  pose proof (loaded_key_id f) as Hkid.
  destruct (read f sizeof_metadata) as [rv bytes] eqn:Hread. cbn [fst snd] in *.
  set (metadata := metadata_of_bytes _) in *.
  split.
  - intros -> (i & Hi & Hne). rewrite Z.eqb_refl. cbn [negb].
    destruct (memcmp_eq (key_id metadata) kid RKE_KEY_ID_SIZE) eqn:Hcmp; [|done].
    exfalso. apply Hne. rewrite <- Hkid by done.
    apply memcmp_eq_true with (i := i) in Hcmp; done.
  - destruct (rv =? Z.of_nat sizeof_metadata) eqn:Hrv; cbn [negb fst snd]; [|done].
    destruct (memcmp_eq (key_id metadata) kid RKE_KEY_ID_SIZE) eqn:Hcmp; cbn [negb fst snd];
      [|done].
    intros _ i Hi. by apply memcmp_eq_true with (i := i) in Hcmp.
Qed.

Lemma rke_load_metadata_rejects_mismatch_witness :
  (rke_load_metadata (demo_config 1) demo_collision_disk (key_id demo_metadata)).1
  = RKE_ERROR_FRAGMENT_CORRUPT.
Proof.
  refine (proj1 (rke_load_metadata_rejects_mismatch (demo_config 1) demo_collision_disk
                   (key_id demo_metadata)
                   {| contents := metadata_bytes demo_other_metadata; read_fails := false |}
                   _) _ _).
  - reflexivity.
  - reflexivity.
  - exists 15%nat. split; [lia|]. vm_compute. discriminate.
Defined.

(** ** [rke_reconstruct_key]: which fragments are verified *)

Lemma verify_loop_corrupt n : forall i storage j,
  (i <= j < i + n)%nat -> rke_verify_checksum (frag_at storage j) <> RKE_SUCCESS ->
  verify_loop n i storage = RKE_ERROR_FRAGMENT_CORRUPT.
Proof.
  induction n as [|n IH]; intros i storage j Hj Hbad; [lia|].
  cbn [verify_loop].
  destruct (Z.eqb_spec (rke_verify_checksum (frag_at storage i)) RKE_SUCCESS) as [Hok|_];
    cbn [negb]; [|done].
  apply (IH (S i) storage j); [|done].
  destruct (decide (j = i)) as [->|]; [done | lia].
Qed.

(** The part of the integrity check that the code does perform: a bad
    checksum among the first [threshold] fragments of the array stops the
    reconstruction, and the caller's buffer is left as it was. *)
Lemma rke_reconstruct_key_detects_first (st : core_state) (key : list Z) (key_size : Z)
    (metadata : rke_key_metadata_t) (j : nat) :
  key_size <> 0 -> md_threshold metadata <= fragment_count st ->
  (j < Z.to_nat (md_threshold metadata))%nat ->
  rke_verify_checksum (frag_at (fragment_storage st) j) <> RKE_SUCCESS ->
  rke_reconstruct_key st key key_size metadata = (RKE_ERROR_FRAGMENT_CORRUPT, key).
Proof.
  intros Hk Hc Hj Hbad. unfold rke_reconstruct_key.
  destruct (Z.eqb_spec key_size 0); [done|].
  destruct (Z.ltb_spec (fragment_count st) (md_threshold metadata)); [lia|].
  by rewrite (verify_loop_corrupt _ 0 _ j) by (done || lia).
Qed.

Lemma rke_reconstruct_key_detects_first_witness :
  rke_reconstruct_key demo_corrupt (zeros 4) 4
    {| key_id := key_id demo_metadata; key_type := RKE_KEY_TYPE_SYMMETRIC;
       md_total_fragments := 3; md_threshold := 3;
       timestamp := 0; den := 0; sn := 0 |}
  = (RKE_ERROR_FRAGMENT_CORRUPT, zeros 4).
Proof.
  apply (rke_reconstruct_key_detects_first demo_corrupt (zeros 4) 4 _ 2%nat).
  - lia.
  - vm_compute. discriminate.
  - vm_compute. lia.
  - vm_compute. discriminate.
Defined.

(** Fragments past the first [threshold] are never looked at by the
    integrity loop: when the first [threshold] fragments verify, the
    reconstruction succeeds whatever the checksums of the others. *)
Lemma rke_reconstruct_key_unverified_tail (st : core_state) (key : list Z) (key_size : Z)
    (metadata : rke_key_metadata_t) :
  key_size <> 0 -> md_threshold metadata <= fragment_count st ->
  (forall j, (j < Z.to_nat (md_threshold metadata))%nat ->
     rke_verify_checksum (frag_at (fragment_storage st) j) = RKE_SUCCESS) ->
  (rke_reconstruct_key st key key_size metadata).1 = RKE_SUCCESS.
Proof.
  intros Hk Hc Hver. unfold rke_reconstruct_key.
  destruct (Z.eqb_spec key_size 0); [done|].
  destruct (Z.ltb_spec (fragment_count st) (md_threshold metadata)); [lia|].
  rewrite verify_loop_ok; [done|]. intros j Hj. apply Hver. lia.
Qed.

(** C6 (code at the failing input).  After splitting a 4-byte key into
    three fragments with threshold two, bit 0 of the first data byte of
    fragment 3 is flipped.  Its checksum no longer verifies, yet
    [rke_reconstruct_key] checks fragments 1 and 2 only, XORs all three and
    returns [RKE_SUCCESS] with a key that differs from the original in
    that bit. *)
Theorem reconstruct_skips_unverified_fragment :
  demo_split.1.1 = RKE_SUCCESS /\
  rke_verify_checksum (frag_at (fragment_storage demo_corrupt) 2) = RKE_ERROR_FRAGMENT_CORRUPT /\
  rke_reconstruct_key demo_corrupt (zeros 4) 4 demo_metadata
  = (RKE_SUCCESS, [0xAB; 0x55; 0x0F; 0xF0]) /\
  rke_reconstruct_key demo_split.1.2 (zeros 4) 4 demo_metadata = (RKE_SUCCESS, demo_key).
Proof. vm_compute. repeat split; reflexivity. Qed.

(** ** Paths *)

Lemma string_app_cons (a : ascii) (s t : string) : String a s +:+ t = String a (s +:+ t).
Proof. reflexivity. Qed.

Lemma string_app_assoc (s t u : string) : (s +:+ t) +:+ u = s +:+ (t +:+ u).
Proof.
  induction s as [|a s IH]; [reflexivity|].
  by rewrite !string_app_cons, IH.
Qed.

(** A metadata file never has the path of a fragment file: after the
    working directory, ["/RKE/"] and eight hexadecimal digits, one goes on
    with ["/m"] and the other with ["/f"]. *)
Lemma metadata_path_not_fragment (cfg : config_s) (kid kid' : list Z) (id : Z) :
  metadata_path cfg kid <> fragment_path cfg kid' id.
Proof.
  unfold metadata_path, fragment_path, rke_dir_path. rewrite !string_app_assoc.
  intros H. apply (inj (String.append (cwd cfg))) in H.
  cbv [String.append fmt_02x] in H. discriminate H.
Qed.

(** ** [cmd_rke_generate] and the fragment files *)

Lemma create_and_write_other (d : disk_t) (path p : string) (bytes : list Z) :
  p <> path -> files (create_and_write d path bytes).2 !! p = files d !! p.
Proof.
  intros Hne. unfold create_and_write. destruct (creat_fails d); cbn [snd files]; [done|].
  by rewrite lookup_insert_ne.
Qed.

Lemma rke_store_metadata_other (cfg : config_s) (d : disk_t) (m : rke_key_metadata_t) (p : string) :
  p <> metadata_path cfg (key_id m) ->
  files (rke_store_metadata cfg d m).2 !! p = files d !! p.
Proof.
  intros Hne. unfold rke_store_metadata.
  destruct (negb _); [done|].
  pose proof (create_and_write_other d _ p (metadata_bytes m) Hne) as H.
  destruct (create_and_write d _ _) as [[rv|] d']; cbn [snd] in *; [|done].
  by destruct (negb _).
Qed.

(** The handler writes the metadata file and nothing else: whether a
    fragment file exists is the same before and after, for every key and
    fragment id. *)
Lemma cmd_rke_generate_keeps_fragments (ci : conn_info_t) (w : world) (kid : list Z) (id : Z) :
  config (cmd_rke_generate ci w).2 = config w /\
  rke_fragment_exists (config w) (disk (cmd_rke_generate ci w).2) kid id
  = rke_fragment_exists (config w) (disk w) kid id.
Proof.
  unfold cmd_rke_generate.
  destruct (negb (body_size ci =? 21)); [done|].
  set (metadata := Metadata _ _ _ _ _ _ _).
  destruct (_ >? _); [done|]. destruct (_ =? 0); [done|]. destruct (_ <? _); [done|].
  destruct (rke_generate_key _ _ _) as [[rv key] rnd1].
  destruct (negb (rv =? RKE_SUCCESS)); [done|].
  destruct (rke_split_key _ _ _ _ _) as [[rv2 core1] rnd2].
  destruct (negb (rv2 =? RKE_SUCCESS)); [done|].
  cbn [config disk set_core_rnd].
  pose proof (rke_store_metadata_other (config w) (disk w) metadata
                (fragment_path (config w) kid id)) as Hst.
  destruct (rke_store_metadata _ _ _) as [rv3 disk1]. cbn [snd] in Hst.
  assert (Hex : rke_fragment_exists (config w) disk1 kid id
                = rke_fragment_exists (config w) (disk w) kid id).
  { unfold rke_fragment_exists, access_ok. destruct (id =? 0); [done|].
    rewrite Hst; [done|]. intros Heq. symmetry in Heq.
    by apply metadata_path_not_fragment in Heq. }
  destruct (negb (rv3 =? RKE_SUCCESS)); [done|].
  unfold malloc. destruct (heap_ok _); (split; [reflexivity | exact Hex]).
Qed.

(** C2 (code at the failing input).  Scenario S1: on an empty disk
    [rke_generate] for N = 5, T = 3 succeeds with output [0x01] and leaves
    five fragments in the process-global array, but the only file it
    creates is the metadata file; the following [rke_query] returns
    status 0, the metadata record, and a bitmap of 32 zero bytes. *)
Theorem generate_stores_no_fragments :
  command_status (cmd_rke_generate demo_generate_ci demo_empty_world).1 = STATUS_SUCCESS /\
  output (cmd_rke_generate demo_generate_ci demo_empty_world).1 = Some [0x01] /\
  fragment_count (core (cmd_rke_generate demo_generate_ci demo_empty_world).2) = 5 /\
  (map_to_list (files (disk (cmd_rke_generate demo_generate_ci demo_empty_world).2))).*1
  = [ "/opt/raida/RKE/00010203/metadata.bin"%string ] /\
  command_status
    (cmd_rke_query demo_query_ci (cmd_rke_generate demo_generate_ci demo_empty_world).2).1
  = STATUS_SUCCESS /\
  drop sizeof_metadata <$>
    output (cmd_rke_query demo_query_ci (cmd_rke_generate demo_generate_ci demo_empty_world).2).1
  = Some (zeros 32).
Proof. vm_compute. repeat split; reflexivity. Qed.

(** ** [cmd_rke_reconstruct] and the fragment files *)

Lemma rke_load_metadata_same (cfg : config_s) (d1 d2 : disk_t) (kid : list Z) :
  files d1 !! metadata_path cfg kid = files d2 !! metadata_path cfg kid ->
  rke_load_metadata cfg d1 kid = rke_load_metadata cfg d2 kid.
Proof. intros H. unfold rke_load_metadata, open_rdonly. by rewrite H. Qed.

Lemma rke_count_fragments_same (cfg : config_s) (d1 d2 : disk_t) (kid : list Z) :
  (forall id, rke_fragment_exists cfg d1 kid id = rke_fragment_exists cfg d2 kid id) ->
  rke_count_fragments cfg d1 kid = rke_count_fragments cfg d2 kid.
Proof.
  intros H. unfold rke_count_fragments. apply for_loop_ext. intros i x _. by rewrite H.
Qed.

(** The loading loop of [cmd_rke_reconstruct] gets through exactly when
    the fragment files it visits all load. *)
Lemma load_required_true (cfg : config_s) (d : disk_t) (kid : list Z) (n : nat) : forall i,
  load_required n i cfg d kid = true <->
  forall j, (i <= j < i + n)%nat -> rke_fragment_exists cfg d kid (Z.of_nat j) = true ->
    (rke_load_fragment cfg d kid (Z.of_nat j)).1 = RKE_SUCCESS.
Proof.
  induction n as [|n IH]; intros i.
  - cbn [load_required]. split; [intros _ j Hj; lia | done].
  - cbn [load_required]. specialize (IH (S i)). split.
    + intros H j Hj Hex. destruct (decide (j = i)) as [->|Hne].
      * rewrite Hex in H.
        destruct (Z.eqb_spec (rke_load_fragment cfg d kid (Z.of_nat i)).1 RKE_SUCCESS);
          [done | discriminate].
      * apply IH; [|lia|done].
        destruct (rke_fragment_exists cfg d kid (Z.of_nat i)); [|done].
        by destruct (negb _).
    + intros H.
      assert (Hrest : load_required n (S i) cfg d kid = true).
      { apply IH. intros j Hj. apply H. lia. }
      destruct (rke_fragment_exists cfg d kid (Z.of_nat i)) eqn:Hex; [|done].
      rewrite (H i) by (lia || done). done.
Qed.

Lemma load_required_spec (cfg : config_s) (d : disk_t) (kid : list Z) (t : Z) :
  load_required (Z.to_nat t) 1 cfg d kid = true <-> required_fragments_load cfg d kid t.
Proof.
  rewrite load_required_true. unfold required_fragments_load. split.
  - intros H id Hid Hex. specialize (H (Z.to_nat id)).
    rewrite Z2Nat.id in H by lia. apply H; [lia | done].
  - intros H j Hj. apply H. lia.
Qed.

(** What the loading loop decides: the handler stops with
    [ERROR_FILESYSTEM] or goes on to an outcome [x] that is not that. *)
Lemma loop_outcome_iff (l1 l2 : bool) (ci x : conn_info_t) (w1 w2 : world) :
  command_status x <> ERROR_FILESYSTEM ->
  ((if negb l1 then (set_status ci ERROR_FILESYSTEM, w1) else (x, w1)).1
   = (if negb l2 then (set_status ci ERROR_FILESYSTEM, w2) else (x, w2)).1 <-> l1 = l2).
Proof.
  intros Hx. destruct l1, l2; cbn [negb fst]; split; try done.
  - intros Heq. exfalso. apply Hx. by rewrite Heq.
  - intros Heq. exfalso. apply Hx. by rewrite <- Heq.
Qed.

(** C5 (amended).  Take two runs of [cmd_rke_reconstruct] on the same
    request in which the configuration, the process-global fragment array
    and count, the allocator, the metadata file of the requested key and
    the presence of each of its fragment files are the same.  The two runs
    leave the same status, output and output size, whatever the fragment
    files contain, exactly when the loading loop ends the same way in
    both: that is, in case the metadata loads and at least [threshold]
    fragment files are present, the fragment files with ids
    1 .. [threshold] that are present all pass [rke_load_fragment] in both
    runs or in neither.  A successful run returns the 256 bytes that
    [rke_reconstruct_key] computes from the process-global array. *)
Theorem cmd_rke_reconstruct_ignores_fragment_contents (ci : conn_info_t) (w1 w2 : world) :
  config w1 = config w2 -> core w1 = core w2 -> heap_ok w1 = heap_ok w2 ->
  files (disk w1) !! metadata_path (config w1) (memcpy (zeros 16) (body ci) 16)
  = files (disk w2) !! metadata_path (config w1) (memcpy (zeros 16) (body ci) 16) ->
  (forall id,
     rke_fragment_exists (config w1) (disk w1) (memcpy (zeros 16) (body ci) 16) id
     = rke_fragment_exists (config w1) (disk w2) (memcpy (zeros 16) (body ci) 16) id) ->
  ((cmd_rke_reconstruct ci w1).1 = (cmd_rke_reconstruct ci w2).1 <->
   (forall metadata,
      body_size ci = 18 ->
      rke_load_metadata (config w1) (disk w1) (memcpy (zeros 16) (body ci) 16)
      = (RKE_SUCCESS, metadata) ->
      md_threshold metadata
      <= rke_count_fragments (config w1) (disk w1) (memcpy (zeros 16) (body ci) 16) ->
      (required_fragments_load (config w1) (disk w1) (memcpy (zeros 16) (body ci) 16)
                               (md_threshold metadata) <->
       required_fragments_load (config w1) (disk w2) (memcpy (zeros 16) (body ci) 16)
                               (md_threshold metadata)))) /\
  (command_status (cmd_rke_reconstruct ci w1).1 = STATUS_SUCCESS ->
   exists metadata key,
     rke_reconstruct_key (core w1) (zeros 256) 256 metadata = (RKE_SUCCESS, key) /\
     output (cmd_rke_reconstruct ci w1).1 = Some (memcpy (zeros 256) key 256)).
Proof.
  intros Hcfg Hcore Hheap Hmeta Hex. split.
  - unfold cmd_rke_reconstruct, get_body_payload, RKE_KEY_ID_SIZE.
    rewrite <- Hcfg, <- Hcore.
    rewrite <- (rke_load_metadata_same _ _ (disk w2) _ Hmeta).
    rewrite <- (rke_count_fragments_same _ _ (disk w2) _ Hex).
    set (kid := memcpy (zeros 16) (body ci) 16).
    destruct (Z.eqb_spec (body_size ci) 18) as [Hsize|Hsize]; cbn [negb];
      [|split; [intros _ md ?; done | done]].
    destruct (rke_load_metadata (config w1) (disk w1) kid) as [rv md].
    destruct (Z.eqb_spec rv RKE_SUCCESS) as [->|Hrv]; cbn [negb];
      [|split; [intros _ md' _ [= ? _]; done | done]].
    destruct (Z.ltb_spec (rke_count_fragments (config w1) (disk w1) kid) (md_threshold md))
      as [Hlt|Hge]; [split; [intros _ md' _ [= <-]; lia | done]|].
    unfold malloc. rewrite <- Hheap.
    set (l1 := load_required _ 1 (config w1) (disk w1) kid).
    set (l2 := load_required _ 1 (config w1) (disk w2) kid).
    assert (Hfinal : l1 = l2 <->
              forall metadata, body_size ci = 18 -> (RKE_SUCCESS, md) = (RKE_SUCCESS, metadata) ->
                md_threshold metadata <= rke_count_fragments (config w1) (disk w1) kid ->
                (required_fragments_load (config w1) (disk w1) kid (md_threshold metadata) <->
                 required_fragments_load (config w1) (disk w2) kid (md_threshold metadata))).
    { split.
      - intros Heq md' _ [= <-] _. rewrite <- !load_required_spec. fold l1 l2. by rewrite Heq.
      - intros H. specialize (H md Hsize eq_refl Hge). rewrite <- !load_required_spec in H.
        fold l1 l2 in H. destruct l1, l2; try done.
        + by destruct H as [H _]; specialize (H eq_refl).
        + by destruct H as [_ H]; specialize (H eq_refl). }
    destruct (rke_reconstruct_key (core w1) (zeros 256) 256 md) as [rv2 key]. cbv iota beta.
    destruct (negb (rv2 =? RKE_SUCCESS)); [|destruct (heap_ok w1)];
      (rewrite loop_outcome_iff; [exact Hfinal | cbn [command_status set_status]; discriminate]).
  - unfold cmd_rke_reconstruct, get_body_payload.
    destruct (negb (body_size ci =? 18)); [cbn [fst command_status set_status]; discriminate|].
    destruct (rke_load_metadata _ _ _) as [rv metadata].
    destruct (negb (rv =? RKE_SUCCESS)); [cbn [fst command_status set_status]; discriminate|].
    destruct (_ <? _); [cbn [fst command_status set_status]; discriminate|].
    destruct (negb (load_required _ _ _ _ _));
      [cbn [fst command_status set_status]; discriminate|].
    destruct (rke_reconstruct_key _ _ _ _) as [rv2 key] eqn:Hrec.
    destruct (Z.eqb_spec rv2 RKE_SUCCESS) as [->|]; cbn [negb];
      [|cbn [fst command_status set_status]; discriminate].
    unfold malloc. destruct (heap_ok w1); [|cbn [fst command_status set_status]; discriminate].
    intros _. by exists metadata, key.
Qed.

(** The status of [rke_load_fragment] alone. *)
Lemma rke_load_fragment_status (cfg : config_s) (d : disk_t) (kid : list Z) (id : Z) :
  (rke_load_fragment cfg d kid id).1 =
  if id =? 0 then RKE_ERROR_INVALID_PARAM
  else
    match files d !! fragment_path cfg kid id with
    | None => RKE_ERROR_STORAGE_FAIL
    | Some f =>
        let fragment :=
          fragment_of_bytes (memcpy (zeros sizeof_fragment) (read f sizeof_fragment).2
                                    (length (read f sizeof_fragment).2)) in
        if negb ((read f sizeof_fragment).1 =? Z.of_nat sizeof_fragment)
        then RKE_ERROR_STORAGE_FAIL
        else if negb (rke_validate_fragment fragment =? RKE_SUCCESS)
        then RKE_ERROR_FRAGMENT_CORRUPT
        else if negb (fragment_id fragment =? id) then RKE_ERROR_FRAGMENT_CORRUPT
        else RKE_SUCCESS
    end.
Proof.
  unfold rke_load_fragment, open_rdonly. destruct (id =? 0); [done|].
  destruct (files d !! fragment_path cfg kid id) as [f|]; [|done].
  destruct (read f sizeof_fragment) as [rv bytes]. cbn [fst snd].
  by repeat destruct (negb _).
Qed.

(** Overwriting a file that is already there changes no presence test. *)
Lemma presence_insert_present (cfg : config_s) (fs : gmap string file_t) (p : string)
    (f f0 : file_t) (a b : bool) (c : option nat) (kid : list Z) (id : Z) :
  fs !! p = Some f0 ->
  rke_fragment_exists cfg (Disk fs a b c) kid id
  = rke_fragment_exists cfg (Disk (<[p := f]> fs) a b c) kid id.
Proof.
  intros Hp. unfold rke_fragment_exists, access_ok. destruct (id =? 0); [done|].
  cbn [files]. rewrite lookup_insert. case_decide; [|done]. subst. by rewrite Hp.
Qed.

Lemma cmd_rke_reconstruct_ignores_fragment_contents_witness :
  (rke_load_fragment (demo_config 1) (disk (demo_reconstruct_world demo_files_D))
                     (key_id demo_metadata) 3).1 = RKE_SUCCESS /\
  (rke_load_fragment (demo_config 1) (disk (demo_reconstruct_world demo_files_E))
                     (key_id demo_metadata) 3).1 = RKE_ERROR_STORAGE_FAIL /\
  (cmd_rke_reconstruct demo_query_ci (demo_reconstruct_world demo_files_D)).1
  = (cmd_rke_reconstruct demo_query_ci (demo_reconstruct_world demo_files_E)).1.
Proof.
  split; [vm_compute; reflexivity|]. split; [vm_compute; reflexivity|].
  assert (H3 : demo_files_D !! fragment_path (demo_config 1) (key_id demo_metadata) 3
               = Some {| contents := fragment_bytes (frag_at (fragment_storage demo_split.1.2) 2);
                         read_fails := false |}) by (vm_compute; reflexivity).
  refine (proj2 (proj1 (cmd_rke_reconstruct_ignores_fragment_contents demo_query_ci
                          (demo_reconstruct_world demo_files_D)
                          (demo_reconstruct_world demo_files_E) _ _ _ _ _)) _).
  - reflexivity.
  - reflexivity.
  - reflexivity.
  - vm_compute. reflexivity.
  - intros id. unfold demo_reconstruct_world, demo_files_E. cbn [config disk].
    exact (presence_insert_present _ _ _ _ _ _ _ _ _ id H3).
  - intros metadata _ Hmd _. vm_compute in Hmd. injection Hmd as <-.
    rewrite <- !load_required_spec. vm_compute. split; intros H; exact H.
Defined.

(** C5 (counterexample to the claim as stated).  With the same process
    state, the same metadata file and the same fragment files present,
    emptying fragment file 1 turns a successful reconstruction (status 0,
    256 bytes of output) into [ERROR_FILESYSTEM] with no output: the
    handler does read the fragment files, and a file that does not load
    stops it. *)
Lemma reconstruct_output_depends_on_fragment_files :
  ~ (forall (ci : conn_info_t) (w1 w2 : world),
       config w1 = config w2 -> core w1 = core w2 -> heap_ok w1 = heap_ok w2 ->
       files (disk w1) !! metadata_path (config w1) (memcpy (zeros 16) (body ci) 16)
       = files (disk w2) !! metadata_path (config w1) (memcpy (zeros 16) (body ci) 16) ->
       (forall id,
          rke_fragment_exists (config w1) (disk w1) (memcpy (zeros 16) (body ci) 16) id
          = rke_fragment_exists (config w1) (disk w2) (memcpy (zeros 16) (body ci) 16) id) ->
       (cmd_rke_reconstruct ci w1).1 = (cmd_rke_reconstruct ci w2).1).
Proof.
  intros H.
  specialize (H demo_query_ci (demo_reconstruct_world demo_files_A)
                (demo_reconstruct_world demo_files_B)
                eq_refl eq_refl eq_refl).
  assert (H1 : demo_files_A !! fragment_path (demo_config 1) (key_id demo_metadata) 1
               = Some {| contents := fragment_bytes (frag_at (fragment_storage demo_split.1.2) 0);
                         read_fails := false |}) by (vm_compute; reflexivity).
  assert (Hres : (cmd_rke_reconstruct demo_query_ci (demo_reconstruct_world demo_files_A)).1
                 <> (cmd_rke_reconstruct demo_query_ci (demo_reconstruct_world demo_files_B)).1).
  { vm_compute. discriminate. }
  apply Hres, H.
  - vm_compute. reflexivity.
  - intros id. unfold demo_reconstruct_world, demo_files_B. cbn [config disk].
    exact (presence_insert_present _ _ _ _ _ _ _ _ _ id H1).
Qed.

(* ===================================================================== *)
(** * Further properties of the code *)
(* ===================================================================== *)

(** ** [rke_split_key]: parameter checks and entropy failure *)

Lemma rke_split_key_rejects (st : core_state) (rnd : entropy) (key : list Z)
    (key_size : Z) (metadata : rke_key_metadata_t) :
  ((rke_split_key st rnd key key_size metadata).1.1 = RKE_ERROR_INVALID_PARAM <->
   key_size = 0 \/ key_size > 256 \/ md_threshold metadata > md_total_fragments metadata
   \/ md_threshold metadata < 2) /\
  ((rke_split_key st rnd key key_size metadata).1.1 = RKE_ERROR_INVALID_PARAM ->
   rke_split_key st rnd key key_size metadata = (RKE_ERROR_INVALID_PARAM, st, rnd)).
Proof.
  unfold rke_split_key, RKE_MAX_KEY_SIZE, RKE_MIN_THRESHOLD.
  destruct (Z.eqb_spec key_size 0); cbn [orb]; [split; [split; [lia | done] | done]|].
  destruct (Z.gtb_spec key_size 256); cbn [orb]; [split; [split; [lia | done] | done]|].
  destruct (Z.gtb_spec (md_threshold metadata) (md_total_fragments metadata));
    [split; [split; [lia | done] | done]|].
  destruct (Z.ltb_spec (md_threshold metadata) 2); [split; [split; [lia | done] | done]|].
  destruct (split_loop _ _ _ _ _ _ _) as [[rv storage] rnd1].
  destruct (negb (rv =? RKE_SUCCESS)); cbn [fst].
  - split; [split; [discriminate | lia] | discriminate].
  - destruct (checksum_loop _ _ _) as [rv2 storage2].
    destruct (negb (rv2 =? RKE_SUCCESS)); cbn [fst];
      (split; [split; [discriminate | lia] | discriminate]).
Qed.

(** X1.  [rke_split_key] returns [RKE_ERROR_INVALID_PARAM] exactly when
    [key] or [metadata] is NULL, the key size is 0 or above 256, or the
    threshold of the metadata exceeds its number of fragments or is below
    2; in that case neither the fragment array nor the entropy device is
    touched. *)
Theorem rke_split_key_invalid_param (st : core_state) (rnd : entropy) (key : option (list Z))
    (key_size : Z) (metadata : option rke_key_metadata_t) :
  ((rke_split_key_nullable st rnd key key_size metadata).1.1 = RKE_ERROR_INVALID_PARAM <->
   key = None \/ metadata = None \/ key_size = 0 \/ key_size > 256 \/
   exists m, metadata = Some m /\
             (md_threshold m > md_total_fragments m \/ md_threshold m < 2)) /\
  ((rke_split_key_nullable st rnd key key_size metadata).1.1 = RKE_ERROR_INVALID_PARAM ->
   rke_split_key_nullable st rnd key key_size metadata = (RKE_ERROR_INVALID_PARAM, st, rnd)).
Proof.
  destruct key as [k|]; [|split; [split; [by left | done] | done]].
  destruct metadata as [m|]; [|split; [split; [by right; left | done] | done]].
  cbn [rke_split_key_nullable].
  destruct (rke_split_key_rejects st rnd k key_size m) as [Hiff Hsame].
  split; [|exact Hsame]. rewrite Hiff. split.
  - intros [H | [H | H]]; [by right; right; left | by right; right; right; left |].
    right; right; right; right. by exists m.
  - intros [H | [H | [H | [H | (m' & [= <-] & H)]]]]; try done.
    + by left.
    + by right; left.
    + by right; right.
Qed.

Lemma checksum_loop_status n : forall i storage, (checksum_loop n i storage).1 = RKE_SUCCESS.
Proof.
  induction n as [|n IH]; intros i storage; [done|].
  cbn [checksum_loop]. unfold rke_calculate_checksum at 1.
  change (negb (RKE_SUCCESS =? RKE_SUCCESS)) with false. cbv iota beta. apply IH.
Qed.

(** X2.  When [rke_split_key] fails for lack of entropy it leaves
    [fragment_count] at 0 and the fragments written so far in the array.
    A later [rke_reconstruct_key] whose metadata has a threshold of at
    least 1 then reports [RKE_ERROR_INSUFFICIENT_FRAGMENTS] and leaves the
    caller's buffer alone.  One whose metadata has threshold 0 is not
    stopped: for a size of at most 256 it reports [RKE_SUCCESS] and copies
    the data of the first fragment into the caller's buffer; when the
    entropy device failed at the first mask, that data is the key
    itself. *)
Theorem split_failure_then_reconstruct (st : core_state) (rnd : entropy) (key : list Z)
    (key_size : Z) (metadata : rke_key_metadata_t) :
  (rke_split_key st rnd key key_size metadata).1.1 = RKE_ERROR_CRYPTO_FAIL ->
  fragment_count (rke_split_key st rnd key key_size metadata).1.2 = 0 /\
  (forall (key2 : list Z) (key_size2 : Z) (metadata2 : rke_key_metadata_t),
     key_size2 <> 0 -> 1 <= md_threshold metadata2 ->
     rke_reconstruct_key (rke_split_key st rnd key key_size metadata).1.2
                         key2 key_size2 metadata2
     = (RKE_ERROR_INSUFFICIENT_FRAGMENTS, key2)) /\
  (forall (key2 : list Z) (key_size2 : Z) (metadata2 : rke_key_metadata_t),
     0 < key_size2 <= 256 -> (Z.to_nat key_size2 <= length key2)%nat ->
     md_threshold metadata2 = 0 ->
     rke_reconstruct_key (rke_split_key st rnd key key_size metadata).1.2
                         key2 key_size2 metadata2
     = (RKE_SUCCESS,
        memcpy key2
          (data (frag_at (fragment_storage (rke_split_key st rnd key key_size metadata).1.2) 0))
          (Z.to_nat key_size2))) /\
  ((Z.to_nat key_size <= length key)%nat ->
   (secure_random_bytes rnd (zeros RKE_FRAGMENT_DATA_SIZE) (Z.to_nat key_size)).1.1 <> 0 ->
   data (frag_at (fragment_storage (rke_split_key st rnd key key_size metadata).1.2) 0)
   = memcpy (zeros RKE_FRAGMENT_DATA_SIZE) key (Z.to_nat key_size)).
Proof.
  intros Hfail.
  assert (Hc : fragment_count (rke_split_key st rnd key key_size metadata).1.2 = 0).
  { revert Hfail. unfold rke_split_key.
    destruct (_ || _); [discriminate|]. destruct (_ >? _); [discriminate|].
    destruct (_ <? _); [discriminate|].
    destruct (split_loop _ _ _ _ _ _ _) as [[rv storage] rnd1].
    destruct (negb (rv =? RKE_SUCCESS)); cbn [fst snd]; [done|].
    pose proof (checksum_loop_status (Z.to_nat (md_total_fragments metadata)) 0 storage) as Hck.
    destruct (checksum_loop _ _ _) as [rv2 storage2]. cbn [fst] in Hck. subst rv2.
    change (negb (RKE_SUCCESS =? RKE_SUCCESS)) with false. cbn [fst]. discriminate. }
  split; [done|]. split; [|split].
  - intros key2 key_size2 metadata2 Hk Ht.
    unfold rke_reconstruct_key. rewrite Hc.
    destruct (Z.eqb_spec key_size2 0); [done|].
    destruct (Z.ltb_spec 0 (md_threshold metadata2)); [done | lia].
  - intros key2 key_size2 metadata2 Hk _ Ht.
    unfold rke_reconstruct_key. rewrite Hc, Ht.
    destruct (Z.eqb_spec key_size2 0); [lia|]. reflexivity.
  - intros _ Hrnd. revert Hfail. unfold rke_split_key, RKE_MIN_THRESHOLD.
    destruct (_ || _); [discriminate|].
    destruct (Z.gtb_spec (md_threshold metadata) (md_total_fragments metadata));
      [discriminate|].
    destruct (Z.ltb_spec (md_threshold metadata) 2); [discriminate|]. intros _.
    destruct (Z.to_nat (md_total_fragments metadata)) as [|[|n]] eqn:Hn; [lia | lia |].
    rewrite split_loop_first, split_loop_next by done. cbv zeta. cbn [data].
    destruct (secure_random_bytes rnd (zeros RKE_FRAGMENT_DATA_SIZE) (Z.to_nat key_size))
      as [[rv mask] rnd1]. cbn [fst] in Hrnd.
    destruct (Z.eqb_spec rv 0); [done|]. cbn [negb].
    change (negb (RKE_ERROR_CRYPTO_FAIL =? RKE_SUCCESS)) with true. cbv iota.
    cbn [fst snd fragment_storage]. rewrite !frag_at_insert, !length_insert.
    case_decide; [lia|]. case_decide as Hd; [done|].
    exfalso. apply Hd. split; [done|]. unfold zero_fragment. rewrite repeat_length. lia.
Qed.

Lemma split_failure_then_reconstruct_witness :
  fragment_count (rke_split_key core_init [] demo_key 4 demo_metadata).1.2 = 0 /\
  rke_reconstruct_key (rke_split_key core_init [] demo_key 4 demo_metadata).1.2
    (zeros 4) 4
    {| key_id := key_id demo_metadata; key_type := RKE_KEY_TYPE_SYMMETRIC;
       md_total_fragments := 3; md_threshold := 0; timestamp := 0; den := 0; sn := 0 |}
  = (RKE_SUCCESS, demo_key).
Proof.
  destruct (split_failure_then_reconstruct core_init [] demo_key 4 demo_metadata)
    as (Hc & _ & Hzero & Hkey).
  - vm_compute. reflexivity.
  - split; [exact Hc|].
    rewrite Hzero; [| vm_compute; split; [reflexivity | discriminate]
                    | vm_compute; lia | reflexivity].
    rewrite Hkey; [| vm_compute; lia | vm_compute; discriminate].
    vm_compute. reflexivity.
Defined.

(** ** [rke_split_key]: the fragments it builds *)

Lemma secure_random_bytes_tail rnd buf n rv out rnd' b :
  secure_random_bytes rnd buf n = (rv, out, rnd') -> (n <= b)%nat ->
  byte_at out b = byte_at buf b.
Proof.
  unfold secure_random_bytes. destruct rnd as [|[bs|] rnd0]; intros [= <- <- <-] Hb; try done.
  rewrite memcpy_at. case_decide as Hc; [|done].
  rewrite length_take in Hc. lia.
Qed.

Lemma split_loop_fields metadata L key n : forall k storage rnd storage' rnd',
  (1 <= k)%nat -> (k + n <= 256)%nat -> length storage = 256%nat ->
  (forall j, (j < k)%nat -> fragment_of_split metadata L j (frag_at storage j)) ->
  (forall j, (k <= j)%nat -> frag_at storage j = zero_fragment) ->
  split_loop n (S k) key L metadata storage rnd = (RKE_SUCCESS, storage', rnd') ->
  length storage' = 256%nat /\
  (forall j, (j < k + n)%nat -> fragment_of_split metadata L j (frag_at storage' j)) /\
  (forall j, (k + n <= j)%nat -> frag_at storage' j = zero_fragment).
Proof.
  induction n as [|n IH]; intros k storage rnd storage' rnd' Hk Hkn Hlen Hlow Hhigh.
  - simpl. intros [= <- <-]. rewrite Nat.add_0_r. done.
  - rewrite split_loop_next by done. cbv zeta. cbn [data].
    destruct (secure_random_bytes rnd (zeros RKE_FRAGMENT_DATA_SIZE) (Z.to_nat L))
      as [[rv mask] rnd1] eqn:Hrnd.
    destruct (rv =? 0) eqn:Hrv; cbn [negb]; [|intros [= ? _ _]; done].
    intros Hrun.
    assert (Hmask : length mask = 256%nat).
    { apply secure_random_bytes_length in Hrnd. rewrite Hrnd. apply repeat_length. }
    assert (Hmask0 : forall b, (Z.to_nat L <= b)%nat -> byte_at mask b = 0).
    { intros b Hb. rewrite (secure_random_bytes_tail _ _ _ _ _ _ b Hrnd Hb).
      apply byte_at_zeros. }
    set (fragment := set_data _ mask) in Hrun.
    set (storage1 := <[k:=fragment]> storage) in Hrun.
    assert (Hfirst : frag_at storage1 0 = frag_at storage 0).
    { unfold storage1. rewrite frag_at_insert. case_decide; [lia | done]. }
    rewrite Hfirst in Hrun.
    assert (Hlen1 : length storage1 = 256%nat).
    { unfold storage1. by rewrite length_insert. }
    assert (Hk1 : frag_at storage1 k = fragment).
    { unfold storage1. rewrite frag_at_insert. case_decide; [done | lia]. }
    assert (Hother : forall j, j <> k -> frag_at storage1 j = frag_at storage j).
    { intros j Hj. unfold storage1. rewrite frag_at_insert. case_decide; [lia | done]. }
    clearbody storage1.
    apply IH in Hrun; try lia.
    + replace (S k + n)%nat with (k + S n)%nat in Hrun by lia. exact Hrun.
    + by rewrite length_insert.
    + intros j Hj. rewrite frag_at_insert, Hlen1.
      case_decide as Hc.
      * destruct Hc as [-> _]. destruct (Hlow 0%nat) as (H1 & H2 & H3 & H4 & H5 & H6); [lia|].
        unfold set_data. repeat split; cbn [fragment_id total_fragments threshold
                                           fragment_size data]; try done.
        -- by rewrite xor_into_length.
        -- intros b Hb. rewrite xor_into_at. case_decide; [lia|]. by apply H6.
      * destruct (decide (j = k)) as [->|Hne].
        -- rewrite Hk1. unfold fragment, set_data.
           repeat split; cbn [fragment_id total_fragments threshold fragment_size data];
             try done. f_equal. lia.
        -- rewrite Hother by done. apply Hlow. lia.
    + intros j Hj. rewrite frag_at_insert, Hlen1. case_decide; [lia|].
      rewrite Hother by lia. apply Hhigh. lia.
Qed.

Lemma simple_sha256_length (d : list Z) : length (Sha256.simple_sha256 d) = 32%nat.
Proof. unfold Sha256.simple_sha256. by rewrite !length_app. Qed.

(** X3.  After a successful [rke_split_key] of an [L]-byte key into [N]
    fragments ([1 <= L <= 256], [2 <= N <= 255]), entry [j < N] of the
    array carries fragment id [j + 1], the [N], threshold and size given,
    256 data bytes that are zero from byte [L] on and a 32-byte checksum;
    it passes [rke_validate_fragment] and [rke_verify_checksum].  The
    entries from [N] on are zero-filled. *)
Theorem rke_split_key_fragments (st : core_state) (rnd : entropy) (key : list Z) (L : Z)
    (metadata : rke_key_metadata_t) (st' : core_state) (rnd' : entropy) :
  1 <= L <= 256 -> 2 <= md_total_fragments metadata <= 255 ->
  rke_split_key st rnd key L metadata = (RKE_SUCCESS, st', rnd') ->
  (forall j, (j < Z.to_nat (md_total_fragments metadata))%nat ->
     fragment_of_split metadata L j (frag_at (fragment_storage st') j) /\
     length (checksum (frag_at (fragment_storage st') j)) = 32%nat /\
     rke_validate_fragment (frag_at (fragment_storage st') j) = RKE_SUCCESS /\
     rke_verify_checksum (frag_at (fragment_storage st') j) = RKE_SUCCESS) /\
  (forall j, (Z.to_nat (md_total_fragments metadata) <= j)%nat ->
     frag_at (fragment_storage st') j = zero_fragment).
Proof.
  intros HL HN. unfold rke_split_key.
  destruct (Z.eqb_spec L 0) as [|_]; [lia|].
  destruct (Z.gtb_spec L RKE_MAX_KEY_SIZE) as [?|_]; [unfold RKE_MAX_KEY_SIZE in *; lia|].
  cbn [orb].
  destruct (Z.gtb_spec (md_threshold metadata) (md_total_fragments metadata)) as [|HT1];
    [intros [= ? _ _]; done|].
  destruct (Z.ltb_spec (md_threshold metadata) RKE_MIN_THRESHOLD) as [|HT2];
    [intros [= ? _ _]; done|].
  set (N := md_total_fragments metadata) in *.
  destruct (Z.to_nat N) as [|n] eqn:HNn; [lia|].
  rewrite split_loop_first.
  set (first := Fragment 1 _ _ _ _ _).
  assert (Hinit : length (repeat zero_fragment 256) = 256%nat) by apply repeat_length.
  assert (Hzero : forall j, frag_at (repeat zero_fragment 256) j = zero_fragment).
  { intros j. unfold frag_at. apply nth_repeat. }
  set (storage0 := repeat zero_fragment 256) in *. clearbody storage0.
  destruct (split_loop n 2 key L metadata (<[0%nat:=first]> storage0) rnd)
    as [[rv storage1] rnd1] eqn:Hloop.
  destruct (rv =? RKE_SUCCESS) eqn:Hrv; cbn [negb].
  2:{ intros H. discriminate H. }
  apply Z.eqb_eq in Hrv. subst rv.
  apply (split_loop_fields metadata L) in Hloop; try lia.
  - destruct Hloop as (Hlen1 & Hlow & Hhigh).
    destruct (checksum_loop_spec (S n) 0 storage1) as (storage2 & Hck & Hlen2 & Hat); [lia|].
    rewrite Hck. change (negb (RKE_SUCCESS =? RKE_SUCCESS)) with false. cbv iota.
    intros [= <- <-]. cbn [fragment_count fragment_storage].
    split.
    + intros j Hj. rewrite Hat. case_decide; [|lia].
      destruct (Hlow j) as (H1 & H2 & H3 & H4 & H5 & H6); [lia|].
      split; [|split; [|split]].
      * unfold set_checksum. repeat split; cbn [fragment_id total_fragments threshold
                                                fragment_size data]; done.
      * cbn [checksum set_checksum]. apply simple_sha256_length.
      * unfold rke_validate_fragment, set_checksum.
        cbn [fragment_id total_fragments threshold fragment_size].
        rewrite H1, H2, H3, H4. fold N. unfold RKE_FRAGMENT_DATA_SIZE, RKE_MIN_THRESHOLD in *.
        destruct (Z.eqb_spec (Z.of_nat (j + 1)) 0); [lia|].
        destruct (Z.gtb_spec (Z.of_nat (j + 1)) N); [lia|]. cbn [orb].
        destruct (Z.gtb_spec (md_threshold metadata) N); [lia|].
        destruct (Z.gtb_spec L (Z.of_nat 256)); [lia | done].
      * apply verify_calculated.
    + intros j Hj. rewrite Hat. case_decide; [lia|]. apply Hhigh. lia.
  - by rewrite length_insert.
  - intros j Hj. assert (j = 0%nat) as -> by lia.
    rewrite frag_at_insert. case_decide; [|lia]. unfold first.
    repeat split; cbn [fragment_id total_fragments threshold fragment_size data]; try done.
    + rewrite memcpy_length. apply repeat_length.
    + intros b Hb. rewrite memcpy_at. case_decide; [lia|]. apply byte_at_zeros.
  - intros j Hj. rewrite frag_at_insert. case_decide; [lia|]. apply Hzero.
Qed.

Lemma rke_split_key_fragments_witness :
  (forall j, (j < Z.to_nat (md_total_fragments demo_metadata))%nat ->
     fragment_of_split demo_metadata 4 j (frag_at (fragment_storage demo_split.1.2) j) /\
     length (checksum (frag_at (fragment_storage demo_split.1.2) j)) = 32%nat /\
     rke_validate_fragment (frag_at (fragment_storage demo_split.1.2) j) = RKE_SUCCESS /\
     rke_verify_checksum (frag_at (fragment_storage demo_split.1.2) j) = RKE_SUCCESS) /\
  (forall j, (Z.to_nat (md_total_fragments demo_metadata) <= j)%nat ->
     frag_at (fragment_storage demo_split.1.2) j = zero_fragment).
Proof.
  apply (rke_split_key_fragments core_init demo_entropy demo_key 4 demo_metadata
           demo_split.1.2 demo_split.2).
  - lia.
  - simpl. lia.
  - vm_compute. reflexivity.
Defined.

(** ** Checksums *)

(** X4.  For a fragment whose [fragment_size] is at most 256, the size
    of its data area: a checksum just calculated verifies, and
    verification looks at the data only up to [fragment_size]: two such
    fragments that differ only in data bytes from [fragment_size] on get
    the same verdict, so those bytes are not protected by the checksum. *)
Theorem checksum_covers_prefix_only (f : rke_fragment_t) (d' : list Z) :
  0 <= fragment_size f <= Z.of_nat RKE_FRAGMENT_DATA_SIZE ->
  length (data f) = RKE_FRAGMENT_DATA_SIZE -> length d' = RKE_FRAGMENT_DATA_SIZE ->
  take (Z.to_nat (fragment_size f)) d' = take (Z.to_nat (fragment_size f)) (data f) ->
  rke_verify_checksum (rke_calculate_checksum f).2 = RKE_SUCCESS /\
  rke_verify_checksum (set_data f d') = rke_verify_checksum f.
Proof.
  intros _ _ _ Hd. split; [apply verify_calculated|].
  unfold rke_verify_checksum, rke_calculate_checksum. cbv iota beta.
  change (negb (RKE_SUCCESS =? RKE_SUCCESS)) with false. cbv iota.
  assert (Hin : hash_input (set_checksum (set_data f d') (zeros RKE_CHECKSUM_SIZE))
                = hash_input (set_checksum f (zeros RKE_CHECKSUM_SIZE))).
  { unfold hash_input, set_checksum, set_data.
    cbn [fragment_id total_fragments threshold fragment_size data]. by rewrite Hd. }
  rewrite Hin. reflexivity.
Qed.

Lemma checksum_covers_prefix_only_witness :
  rke_verify_checksum (rke_calculate_checksum (frag_at (fragment_storage demo_split.1.2) 1)).2
  = RKE_SUCCESS /\
  rke_verify_checksum
    (set_data (frag_at (fragment_storage demo_split.1.2) 1)
       (<[200%nat := 0x99]> (data (frag_at (fragment_storage demo_split.1.2) 1))))
  = rke_verify_checksum (frag_at (fragment_storage demo_split.1.2) 1).
Proof.
  apply (checksum_covers_prefix_only (frag_at (fragment_storage demo_split.1.2) 1)).
  - vm_compute. split; discriminate.
  - vm_compute. reflexivity.
  - vm_compute. reflexivity.
  - vm_compute. reflexivity.
Defined.

(** ** [simple_sha256]: the padded message *)




(** The two sides of the bound. *)
Example pad_at_the_bound :
  length (Sha256.pad (repeat 0 503)) = 512%nat /\
  length (Sha256.pad (repeat 0 504)) = 576%nat.
Proof. vm_compute. split; reflexivity. Qed.

(** ** Fragment encryption *)

Lemma crypt_ctr_twice (key nonce buf : list Z) (n : nat) :
  Aes.crypt_ctr key (Aes.crypt_ctr key buf n nonce) n nonce = buf.
Proof.
  apply byte_ext.
  - by rewrite !crypt_ctr_length.
  - intros j _. rewrite !crypt_ctr_at, crypt_ctr_length.
    case_decide; [|done]. apply lxor_cancel_r.
Qed.

(** X6.  On a fragment that passes [rke_validate_fragment] and has its
    256 data bytes, [rke_encrypt_fragment] succeeds and leaves a fragment
    whose checksum verifies; [rke_decrypt_fragment] with the same key and
    nonce then succeeds and gives back the original header and data with
    the checksum of the original.  A fragment that fails validation is
    refused with [RKE_ERROR_INVALID_PARAM] and returned untouched. *)
Theorem fragment_encrypt_decrypt (f : rke_fragment_t) (key nonce : list Z) :
  length (data f) = 256%nat ->
  (rke_validate_fragment f = RKE_SUCCESS ->
   (rke_encrypt_fragment f key nonce).1 = RKE_SUCCESS /\
   rke_verify_checksum (rke_encrypt_fragment f key nonce).2 = RKE_SUCCESS /\
   rke_decrypt_fragment (rke_encrypt_fragment f key nonce).2 key nonce
   = (RKE_SUCCESS, (rke_calculate_checksum f).2)) /\
  (rke_validate_fragment f <> RKE_SUCCESS ->
   rke_encrypt_fragment f key nonce = (RKE_ERROR_INVALID_PARAM, f)).
Proof.
  intros Hlen. unfold rke_encrypt_fragment. split.
  - intros Hv. rewrite Hv. change (negb (RKE_SUCCESS =? RKE_SUCCESS)) with false. cbv iota.
    unfold rke_calculate_checksum at 1 2 3.
    change (negb (RKE_SUCCESS =? RKE_SUCCESS)) with false. cbv iota beta. cbn [fst snd].
    split; [done|]. split; [apply verify_calculated|].
    unfold rke_decrypt_fragment, rke_calculate_checksum.
    change (negb (RKE_SUCCESS =? RKE_SUCCESS)) with false. cbv iota beta.
    pose proof (crypt_ctr_twice key nonce (data f) (Z.to_nat (fragment_size f))) as Hinv.
    unfold set_checksum, set_data, hash_input.
    cbn [fragment_id total_fragments threshold fragment_size data checksum].
    rewrite Hinv. reflexivity.
  - intros Hv. destruct (Z.eqb_spec (rke_validate_fragment f) RKE_SUCCESS); [done|].
    reflexivity.
Qed.

Lemma fragment_encrypt_decrypt_witness :
  (rke_validate_fragment (frag_at (fragment_storage demo_split.1.2) 1) = RKE_SUCCESS ->
   (rke_encrypt_fragment (frag_at (fragment_storage demo_split.1.2) 1) demo_aens demo_nonce).1
   = RKE_SUCCESS /\
   rke_verify_checksum
     (rke_encrypt_fragment (frag_at (fragment_storage demo_split.1.2) 1) demo_aens demo_nonce).2
   = RKE_SUCCESS /\
   rke_decrypt_fragment
     (rke_encrypt_fragment (frag_at (fragment_storage demo_split.1.2) 1) demo_aens demo_nonce).2
     demo_aens demo_nonce
   = (RKE_SUCCESS, (rke_calculate_checksum (frag_at (fragment_storage demo_split.1.2) 1)).2)) /\
  (rke_validate_fragment (frag_at (fragment_storage demo_split.1.2) 1) <> RKE_SUCCESS ->
   rke_encrypt_fragment (frag_at (fragment_storage demo_split.1.2) 1) demo_aens demo_nonce
   = (RKE_ERROR_INVALID_PARAM, frag_at (fragment_storage demo_split.1.2) 1)).
Proof.
  apply (fragment_encrypt_decrypt (frag_at (fragment_storage demo_split.1.2) 1)
           demo_aens demo_nonce).
  vm_compute. reflexivity.
Defined.

(** ** [evaluate_polynomial] *)

Lemma evaluate_polynomial_loop_zero (coefficients : list Z) n : forall lo result,
  for_loop n lo
    (fun i '(result, x_power) =>
       (Z.lxor result (Z.land (byte_at coefficients i * x_power) 0xFF),
        Z.land (x_power * 0) 0xFF))
    (result, 0)
  = (result, 0).
Proof.
  induction n as [|n IH]; intros lo result; [done|].
  cbn [for_loop]. rewrite !Z.mul_0_r. cbn [Z.land]. rewrite Z.lxor_0_r. apply IH.
Qed.

(** X7.  At [x = 0] the polynomial evaluates to its constant
    coefficient (reduced to a byte), whatever the degree and the other
    coefficients. *)
Theorem evaluate_polynomial_at_zero (coefficients : list Z) (degree : Z) :
  evaluate_polynomial 0 coefficients degree = Z.land (byte_at coefficients 0) 0xFF.
Proof.
  unfold evaluate_polynomial. rewrite Nat.add_1_r. cbn [for_loop].
  rewrite Z.mul_1_r, Z.lxor_0_l. change (Z.land (1 * 0) 255) with 0.
  by rewrite evaluate_polynomial_loop_zero.
Qed.

(** ** [rke_generate_key] *)

(** X8.  [rke_generate_key] refuses a size of 0 or above 256 without
    reading the entropy device.  For a valid size it makes exactly one
    read; when the device opens and delivers at least [key_size] bytes the
    call succeeds and the first [key_size] bytes of the buffer are those
    bytes, the rest of the buffer being untouched; when the device cannot
    be opened or delivers fewer bytes it returns
    [RKE_ERROR_CRYPTO_FAIL]. *)
Theorem rke_generate_key_outcomes (rnd : entropy) (key : list Z) (key_size : Z) :
  (Z.to_nat key_size <= length key)%nat ->
  (key_size = 0 \/ key_size > 256 ->
   rke_generate_key rnd key key_size = (RKE_ERROR_INVALID_PARAM, key, rnd)) /\
  (1 <= key_size <= 256 ->
   match rnd with
   | Some bs :: rest =>
       if decide (Z.to_nat key_size <= length bs)%nat
       then rke_generate_key rnd key key_size
            = (RKE_SUCCESS,
               take (Z.to_nat key_size) bs ++ drop (Z.to_nat key_size) key, rest)
       else (rke_generate_key rnd key key_size).1.1 = RKE_ERROR_CRYPTO_FAIL /\
            (rke_generate_key rnd key key_size).2 = rest
   | None :: rest =>
       rke_generate_key rnd key key_size = (RKE_ERROR_CRYPTO_FAIL, key, rest)
   | [] => rke_generate_key rnd key key_size = (RKE_ERROR_CRYPTO_FAIL, key, [])
   end).
Proof.
  intros Hlen. unfold rke_generate_key, RKE_MAX_KEY_SIZE. split.
  - intros H. destruct (Z.eqb_spec key_size 0); [done|].
    destruct (Z.gtb_spec key_size 256); [done | lia].
  - intros H. destruct (Z.eqb_spec key_size 0); [lia|].
    destruct (Z.gtb_spec key_size 256); [lia|]. cbn [orb].
    destruct rnd as [|[bs|] rest]; [done| |done].
    unfold secure_random_bytes. set (m := Z.to_nat key_size) in *.
    case_decide as Hbs.
    + assert (Hgot : length (take m bs) = m) by (rewrite length_take; lia).
      rewrite Hgot, Nat.eqb_refl. cbn [Z.eqb negb]. do 2 f_equal.
      apply byte_ext.
      * rewrite memcpy_length, length_app, length_take, length_drop. lia.
      * intros j Hj. rewrite memcpy_at. case_decide.
        -- rewrite byte_at_app_l by (rewrite length_take; lia). done.
        -- rewrite memcpy_length in Hj.
           rewrite byte_at_app_r by (rewrite length_take; lia).
           rewrite byte_at_drop, length_take. f_equal. lia.
    + assert (Hgot : length (take m bs) <> m) by (rewrite length_take; lia).
      apply Nat.eqb_neq in Hgot. rewrite Hgot. done.
Qed.

Lemma rke_generate_key_outcomes_witness :
  rke_generate_key [Some [7; 8; 9; 10]; None] [0; 0; 0; 0; 0] 3
  = (RKE_SUCCESS, take (Z.to_nat 3) [7; 8; 9; 10] ++ drop (Z.to_nat 3) [0; 0; 0; 0; 0], [None]).
Proof.
  refine (proj2 (rke_generate_key_outcomes [Some [7; 8; 9; 10]; None] [0; 0; 0; 0; 0] 3 _) _).
  - simpl. lia.
  - lia.
Defined.

(** ** Fragment and metadata files *)

Lemma le16_value (x : Z) : 0 <= x < 2 ^ 16 -> x mod 256 + x / 256 mod 256 * 2 ^ 8 = x.
Proof. intros H. Z.div_mod_to_equations. lia. Qed.

Lemma le32_value (x : Z) :
  0 <= x < 2 ^ 32 ->
  x mod 256 + x / 2 ^ 8 mod 256 * 2 ^ 8 + x / 2 ^ 16 mod 256 * 2 ^ 16
  + x / 2 ^ 24 mod 256 * 2 ^ 24 = x.
Proof. intros H. Z.div_mod_to_equations. lia. Qed.

(** Decoding the bytes of a struct gives the struct back. *)
Lemma fragment_of_bytes_fragment_bytes (f : rke_fragment_t) :
  0 <= fragment_size f < 2 ^ 16 -> length (data f) = 256%nat -> length (checksum f) = 32%nat ->
  fragment_of_bytes (fragment_bytes f) = f.
Proof.
  intros Hs Hd Hc. destruct f as [id tot thr size d c]. cbn [fragment_size data checksum] in *.
  unfold fragment_of_bytes, fragment_bytes, le16, RKE_FRAGMENT_DATA_SIZE, RKE_CHECKSUM_SIZE.
  cbn [fragment_id total_fragments threshold fragment_size data checksum app byte_at nth].
  f_equal.
  - by apply le16_value.
  - change (drop 6 (id :: tot :: thr :: 0 :: size mod 256 :: size / 256 mod 256 :: d ++ c))
      with (d ++ c).
    by rewrite take_app_length'.
  - change (drop 262 (id :: tot :: thr :: 0 :: size mod 256 :: size / 256 mod 256 :: d ++ c))
      with (drop 256 (d ++ c)).
    rewrite drop_app_length' by done. by rewrite take_ge by lia.
Qed.

Lemma fragment_bytes_length (f : rke_fragment_t) :
  length (data f) = 256%nat -> length (checksum f) = 32%nat ->
  length (fragment_bytes f) = sizeof_fragment.
Proof.
  intros Hd Hc. unfold fragment_bytes, le16, sizeof_fragment.
  rewrite !length_app, Hd, Hc. reflexivity.
Qed.

Lemma metadata_of_bytes_metadata_bytes (m : rke_key_metadata_t) :
  length (key_id m) = 16%nat -> 0 <= timestamp m < 2 ^ 32 -> 0 <= sn m < 2 ^ 32 ->
  metadata_of_bytes (metadata_bytes m) = m.
Proof.
  intros Hk Ht Hs. destruct m as [kid kt tot thr ts dn s]. cbn [key_id timestamp sn] in *.
  do 17 (destruct kid as [|? kid]; try discriminate Hk).
  unfold metadata_of_bytes, metadata_bytes, le32, get_sn, RKE_KEY_ID_SIZE.
  cbn [key_id key_type md_total_fragments md_threshold timestamp den sn app byte_at nth
       take Nat.add].
  f_equal; by apply le32_value.
Qed.

Lemma metadata_bytes_length (m : rke_key_metadata_t) :
  length (key_id m) = 16%nat -> length (metadata_bytes m) = sizeof_metadata.
Proof.
  intros Hk. unfold metadata_bytes, le32, sizeof_metadata. rewrite !length_app, Hk. reflexivity.
Qed.

(** A full record written and read back. *)
Lemma read_back (d : disk_t) (path : string) (bytes : list Z) (n : nat) (d' : disk_t) :
  length bytes = n ->
  create_and_write d path bytes = (Some (Z.of_nat n), d') ->
  open_rdonly d' path = Some {| contents := bytes; read_fails := false |} /\
  read {| contents := bytes; read_fails := false |} n = (Z.of_nat n, bytes) /\
  memcpy (zeros n) bytes (length bytes) = bytes.
Proof.
  intros Hlen. unfold create_and_write. destruct (creat_fails d); [discriminate|].
  intros [= Hw <-].
  assert (Hall : match write_limit d with Some k => take k bytes | None => bytes end = bytes).
  { destruct (write_limit d) as [k|]; [|done]. apply take_ge.
    apply Nat2Z.inj in Hw. rewrite length_take in Hw. lia. }
  rewrite Hall. unfold open_rdonly, read. cbn [files contents read_fails].
  rewrite lookup_insert_eq. split; [done|].
  rewrite take_ge by lia. rewrite Hlen. split; [done|].
  rewrite memcpy_full; [by rewrite take_ge by lia | apply repeat_length | lia].
Qed.

Lemma rke_store_fragment_readback (cfg : config_s) (d d' : disk_t) (f : rke_fragment_t)
    (kid : list Z) :
  0 <= fragment_size f -> length (data f) = 256%nat -> length (checksum f) = 32%nat ->
  rke_store_fragment cfg d f kid = (RKE_SUCCESS, d') ->
  rke_fragment_exists cfg d' kid (fragment_id f) = true /\
  rke_load_fragment cfg d' kid (fragment_id f) = (RKE_SUCCESS, f).
Proof.
  intros Hs Hd Hc. unfold rke_store_fragment.
  destruct (Z.eqb_spec (rke_validate_fragment f) RKE_SUCCESS) as [Hv|]; [|discriminate].
  cbn [negb]. destruct (negb _); [discriminate|].
  destruct (create_and_write d _ _) as [[rv|] d1] eqn:Hw; [|discriminate].
  destruct (Z.eqb_spec rv (Z.of_nat sizeof_fragment)) as [->|]; [|discriminate].
  cbn [negb]. intros [= <-].
  pose proof (fragment_bytes_length f Hd Hc) as Hlen.
  destruct (read_back _ _ _ _ _ Hlen Hw) as (Hopen & Hread & Hmem).
  assert (Hid : fragment_id f <> 0 /\ fragment_size f < 2 ^ 16).
  { revert Hv. unfold rke_validate_fragment, RKE_FRAGMENT_DATA_SIZE.
    destruct (Z.eqb_spec (fragment_id f) 0); [discriminate|]. cbn [orb].
    destruct (_ >? _); [discriminate|]. destruct (_ >? _); [discriminate|].
    destruct (Z.gtb_spec (fragment_size f) (Z.of_nat 256)); [discriminate|]. lia. }
  split.
  - unfold rke_fragment_exists, access_ok. destruct (Z.eqb_spec (fragment_id f) 0); [lia|].
    unfold open_rdonly in Hopen. by rewrite Hopen.
  - unfold rke_load_fragment. destruct (Z.eqb_spec (fragment_id f) 0); [lia|].
    rewrite Hopen, Hread, Hmem.
    rewrite fragment_of_bytes_fragment_bytes by (done || lia).
    rewrite Hv, !Z.eqb_refl. reflexivity.
Qed.

(** X9.  A fragment written by a successful [rke_store_fragment] is
    there for [rke_fragment_exists] and is read back unchanged by
    [rke_load_fragment] under the same key and its own fragment id. *)
Theorem fragment_store_load (cfg : config_s) (d d' : disk_t) (f : rke_fragment_t)
    (kid : list Z) :
  0 <= fragment_size f -> length (data f) = 256%nat -> length (checksum f) = 32%nat ->
  rke_store_fragment cfg d f kid = (RKE_SUCCESS, d') ->
  rke_fragment_exists cfg d' kid (fragment_id f) = true /\
  rke_load_fragment cfg d' kid (fragment_id f) = (RKE_SUCCESS, f).
Proof. apply rke_store_fragment_readback. Qed.

Lemma fragment_store_load_witness :
  rke_fragment_exists (demo_config 1)
    (rke_store_fragment (demo_config 1) (disk demo_empty_world)
       (frag_at (fragment_storage demo_split.1.2) 1) (key_id demo_metadata)).2
    (key_id demo_metadata) (fragment_id (frag_at (fragment_storage demo_split.1.2) 1)) = true /\
  rke_load_fragment (demo_config 1)
    (rke_store_fragment (demo_config 1) (disk demo_empty_world)
       (frag_at (fragment_storage demo_split.1.2) 1) (key_id demo_metadata)).2
    (key_id demo_metadata) (fragment_id (frag_at (fragment_storage demo_split.1.2) 1))
  = (RKE_SUCCESS, frag_at (fragment_storage demo_split.1.2) 1).
Proof.
  apply (fragment_store_load (demo_config 1) (disk demo_empty_world)).
  - vm_compute. discriminate.
  - vm_compute. reflexivity.
  - vm_compute. reflexivity.
  - vm_compute. reflexivity.
Defined.

Lemma rke_store_metadata_readback (cfg : config_s) (d d' : disk_t) (m : rke_key_metadata_t) :
  length (key_id m) = 16%nat -> 0 <= timestamp m < 2 ^ 32 -> 0 <= sn m < 2 ^ 32 ->
  rke_store_metadata cfg d m = (RKE_SUCCESS, d') ->
  rke_load_metadata cfg d' (key_id m) = (RKE_SUCCESS, m).
Proof.
  intros Hk Ht Hs. unfold rke_store_metadata.
  destruct (negb _); [discriminate|].
  destruct (create_and_write d _ _) as [[rv|] d1] eqn:Hw; [|discriminate].
  destruct (Z.eqb_spec rv (Z.of_nat sizeof_metadata)) as [->|]; [|discriminate].
  cbn [negb]. intros [= <-].
  pose proof (metadata_bytes_length m Hk) as Hlen.
  destruct (read_back _ _ _ _ _ Hlen Hw) as (Hopen & Hread & Hmem).
  unfold rke_load_metadata. rewrite Hopen, Hread, Hmem.
  rewrite metadata_of_bytes_metadata_bytes by done.
  rewrite Z.eqb_refl, memcmp_eq_refl. done.
Qed.

(** X10.  Metadata written by a successful [rke_store_metadata] is read
    back unchanged by [rke_load_metadata] under its own key id. *)
Theorem metadata_store_load (cfg : config_s) (d d' : disk_t) (m : rke_key_metadata_t) :
  length (key_id m) = 16%nat -> 0 <= timestamp m < 2 ^ 32 -> 0 <= sn m < 2 ^ 32 ->
  rke_store_metadata cfg d m = (RKE_SUCCESS, d') ->
  rke_load_metadata cfg d' (key_id m) = (RKE_SUCCESS, m).
Proof. apply rke_store_metadata_readback. Qed.

Lemma metadata_store_load_witness :
  rke_load_metadata (demo_config 1)
    (rke_store_metadata (demo_config 1) (disk demo_empty_world) demo_metadata).2
    (key_id demo_metadata)
  = (RKE_SUCCESS, demo_metadata).
Proof.
  apply (metadata_store_load (demo_config 1) (disk demo_empty_world)).
  - reflexivity.
  - vm_compute. split; [discriminate | reflexivity].
  - vm_compute. split; [discriminate | reflexivity].
  - vm_compute. reflexivity.
Defined.

(** X11.  What a failing [rke_store_fragment] leaves behind.  A fragment
    that fails validation is refused with the disk untouched.  When the
    single [write] comes up short, the call returns
    [RKE_ERROR_STORAGE_FAIL] but the truncated file stays: afterwards
    [rke_fragment_exists] answers true for the fragment while
    [rke_load_fragment] fails with [RKE_ERROR_STORAGE_FAIL]. *)
Theorem fragment_store_failures (cfg : config_s) (d : disk_t) (f : rke_fragment_t)
    (kid : list Z) (k : nat) :
  length (data f) = 256%nat -> length (checksum f) = 32%nat ->
  (rke_validate_fragment f <> RKE_SUCCESS ->
   rke_store_fragment cfg d f kid = (RKE_ERROR_INVALID_PARAM, d)) /\
  (rke_validate_fragment f = RKE_SUCCESS ->
   mkdir_fails d = false -> creat_fails d = false ->
   write_limit d = Some k -> (k < sizeof_fragment)%nat ->
   (rke_store_fragment cfg d f kid).1 = RKE_ERROR_STORAGE_FAIL /\
   rke_fragment_exists cfg (rke_store_fragment cfg d f kid).2 kid (fragment_id f) = true /\
   (rke_load_fragment cfg (rke_store_fragment cfg d f kid).2 kid (fragment_id f)).1
   = RKE_ERROR_STORAGE_FAIL).
Proof.
  intros Hd Hc. unfold rke_store_fragment. split.
  - intros Hv. by destruct (Z.eqb_spec (rke_validate_fragment f) RKE_SUCCESS).
  - intros Hv Hmk Hcr Hwl Hk. rewrite Hv.
    change (negb (RKE_SUCCESS =? RKE_SUCCESS)) with false. cbv iota.
    unfold create_directory_recursive, create_and_write. rewrite Hmk, Hcr, Hwl.
    change (negb (0 =? 0)) with false. cbv iota.
    pose proof (fragment_bytes_length f Hd Hc) as Hlen.
    assert (Hw : length (take k (fragment_bytes f)) = k) by (rewrite length_take; lia).
    rewrite Hw.
    destruct (Z.eqb_spec (Z.of_nat k) (Z.of_nat sizeof_fragment)) as [|_]; [lia|].
    cbn [negb fst snd].
    assert (Hid : fragment_id f <> 0).
    { revert Hv. unfold rke_validate_fragment.
      by destruct (Z.eqb_spec (fragment_id f) 0). }
    split; [done|]. split.
    + unfold rke_fragment_exists, access_ok. cbn [files].
      destruct (Z.eqb_spec (fragment_id f) 0); [done|]. by rewrite lookup_insert_eq.
    + rewrite rke_load_fragment_status. cbn [files].
      destruct (Z.eqb_spec (fragment_id f) 0); [done|]. rewrite lookup_insert_eq.
      cbv zeta. unfold read. cbn [read_fails contents fst].
      rewrite length_take, Hw.
      destruct (Z.eqb_spec (Z.of_nat (sizeof_fragment `min` k)) (Z.of_nat sizeof_fragment));
        [lia | done].
Qed.

Lemma fragment_store_failures_witness :
  (rke_store_fragment (demo_config 1)
     {| files := ∅; mkdir_fails := false; creat_fails := false; write_limit := Some 100%nat |}
     (frag_at (fragment_storage demo_split.1.2) 1) (key_id demo_metadata)).1
  = RKE_ERROR_STORAGE_FAIL.
Proof.
  refine (proj1 (proj2 (fragment_store_failures (demo_config 1)
     {| files := ∅; mkdir_fails := false; creat_fails := false; write_limit := Some 100%nat |}
     (frag_at (fragment_storage demo_split.1.2) 1) (key_id demo_metadata) 100 _ _)
     _ _ _ _ _)).
  - vm_compute. reflexivity.
  - vm_compute. reflexivity.
  - vm_compute. reflexivity.
  - reflexivity.
  - reflexivity.
  - reflexivity.
  - unfold sizeof_fragment. lia.
Defined.

(** X12.  A fragment that [rke_load_fragment] returns with
    [RKE_SUCCESS] passes [rke_validate_fragment], carries the fragment id
    that was asked for, and that id is not 0; a request for id 0 is
    [RKE_ERROR_INVALID_PARAM] and a missing file is
    [RKE_ERROR_STORAGE_FAIL]. *)
Theorem rke_load_fragment_outcomes (cfg : config_s) (d : disk_t) (kid : list Z) (id : Z) :
  ((rke_load_fragment cfg d kid id).1 = RKE_SUCCESS ->
   id <> 0 /\
   rke_fragment_exists cfg d kid id = true /\
   rke_validate_fragment (rke_load_fragment cfg d kid id).2 = RKE_SUCCESS /\
   fragment_id (rke_load_fragment cfg d kid id).2 = id) /\
  (id = 0 -> (rke_load_fragment cfg d kid id).1 = RKE_ERROR_INVALID_PARAM) /\
  (id <> 0 -> rke_fragment_exists cfg d kid id = false ->
   (rke_load_fragment cfg d kid id).1 = RKE_ERROR_STORAGE_FAIL).
Proof.
  unfold rke_load_fragment, rke_fragment_exists, access_ok, open_rdonly.
  destruct (Z.eqb_spec id 0) as [->|Hid].
  - split; [discriminate|]. split; [done | lia].
  - destruct (files d !! fragment_path cfg kid id) as [f|].
    2:{ split; [discriminate|]. split; [lia | done]. }
    destruct (read f sizeof_fragment) as [rv bytes].
    split; [|split; [lia | discriminate]].
    destruct (negb (rv =? _)); [discriminate|].
    destruct (Z.eqb_spec (rke_validate_fragment
                            (fragment_of_bytes
                               (memcpy (zeros sizeof_fragment) bytes (length bytes))))
                         RKE_SUCCESS) as [Hv|]; cbn [negb]; [|discriminate].
    destruct (Z.eqb_spec (fragment_id
                            (fragment_of_bytes
                               (memcpy (zeros sizeof_fragment) bytes (length bytes)))) id);
      cbn [negb fst snd]; [done | discriminate].
Qed.

(** ** [rke_count_fragments] *)

Lemma count_loop (p : nat -> bool) (n : nat) : forall lo c,
  for_loop n lo (fun i count => if p i then count + 1 else count) c
  = c + Z.of_nat (length (List.filter p (seq lo n))).
Proof.
  induction n as [|n IH]; intros lo c; cbn [for_loop seq List.filter]; [simpl; lia|].
  rewrite IH. destruct (p lo); cbn [length]; lia.
Qed.

(** X13.  [rke_count_fragments] is the number of ids from 1 to 255 for
    which [rke_fragment_exists] answers true; it lies between 0 and
    255. *)
Theorem rke_count_fragments_counts (cfg : config_s) (d : disk_t) (kid : list Z) :
  rke_count_fragments cfg d kid
  = Z.of_nat (length (List.filter (fun i => rke_fragment_exists cfg d kid (Z.of_nat i))
                                  (seq 1 255))) /\
  0 <= rke_count_fragments cfg d kid <= 255.
Proof.
  unfold rke_count_fragments.
  rewrite (count_loop (fun i => rke_fragment_exists cfg d kid (Z.of_nat i))).
  split; [lia|].
  pose proof (filter_length_le (fun i => rke_fragment_exists cfg d kid (Z.of_nat i))
                (seq 1 255)) as H.
  rewrite length_seq in H. lia.
Qed.

(** ** The request handlers of [rke_protocol.c] *)

Lemma key_id_of_body (kid rest : list Z) :
  length kid = 16%nat ->
  memcpy (zeros RKE_KEY_ID_SIZE) (kid ++ rest) RKE_KEY_ID_SIZE = kid /\
  byte_at (kid ++ rest) RKE_KEY_ID_SIZE = byte_at rest 0.
Proof.
  intros Hk. unfold RKE_KEY_ID_SIZE. split.
  - rewrite memcpy_full; [by rewrite take_app_length' | apply repeat_length |].
    rewrite length_app. lia.
  - rewrite byte_at_app_r by lia. by rewrite Hk.
Qed.

(** X14.  A fragment stored by [rke_store_fragment] is what
    [cmd_rke_exchange] answers to a request that names its key and its
    fragment id: the status is [STATUS_SUCCESS], the output is one
    [struct rke_fragment_t] whose fields are those of the stored
    fragment, and the handler leaves the world as it found it. *)
Theorem exchange_returns_stored_fragment (ci : conn_info_t) (w : world) (d' : disk_t)
    (f : rke_fragment_t) (kid rest : list Z) :
  0 <= fragment_size f -> length (data f) = 256%nat -> length (checksum f) = 32%nat ->
  length kid = 16%nat ->
  rke_store_fragment (config w) (disk w) f kid = (RKE_SUCCESS, d') ->
  heap_ok w = true ->
  body ci = kid ++ fragment_id f :: rest -> 19 <= body_size ci ->
  exists out,
    cmd_rke_exchange ci (set_disk w d')
    = (set_status (set_output (set_output_size ci (Z.of_nat sizeof_fragment)) (Some out))
                  STATUS_SUCCESS, set_disk w d') /\
    length out = sizeof_fragment /\ fragment_of_bytes out = f.
Proof.
  intros Hs Hd Hc Hk Hstore Hheap Hbody Hsize.
  destruct (rke_store_fragment_readback _ _ _ _ _ Hs Hd Hc Hstore) as [Hex Hload].
  pose proof (fragment_bytes_length f Hd Hc) as Hlen.
  exists (fragment_bytes f). split; [|split; [done|]].
  - unfold cmd_rke_exchange, get_body_payload. rewrite Hbody.
    destruct (key_id_of_body kid (fragment_id f :: rest) Hk) as [-> ->].
    destruct (Z.ltb_spec (body_size ci) 19); [lia|].
    change (byte_at (fragment_id f :: rest) 0) with (fragment_id f).
    change (config (set_disk w d')) with (config w).
    change (disk (set_disk w d')) with d'.
    rewrite Hex, Hload. change (negb (RKE_SUCCESS =? RKE_SUCCESS)) with false. cbv iota.
    unfold malloc. change (heap_ok (set_disk w d')) with (heap_ok w). rewrite Hheap.
    rewrite memcpy_full; [|apply repeat_length|lia].
    by rewrite take_ge by (rewrite Hlen; lia).
  - rewrite fragment_of_bytes_fragment_bytes; [done | | done | done].
    revert Hstore. unfold rke_store_fragment, rke_validate_fragment, RKE_FRAGMENT_DATA_SIZE.
    destruct (_ || _); [discriminate|]. destruct (_ >? _); [discriminate|].
    destruct (Z.gtb_spec (fragment_size f) (Z.of_nat 256)); [discriminate|]. lia.
Qed.

Lemma exchange_returns_stored_fragment_witness :
  exists out,
    cmd_rke_exchange
      {| body := key_id demo_metadata ++ [2; 0xff; 0xff];
         body_size := 19; output := None; output_size := 0; command_status := -999;
         nonce := demo_nonce |}
      (set_disk demo_empty_world
         (rke_store_fragment (demo_config 1) (disk demo_empty_world)
            (frag_at (fragment_storage demo_split.1.2) 1) (key_id demo_metadata)).2)
    = (set_status
         (set_output
            (set_output_size
               {| body := key_id demo_metadata ++ [2; 0xff; 0xff];
                  body_size := 19; output := None; output_size := 0; command_status := -999;
                  nonce := demo_nonce |}
               (Z.of_nat sizeof_fragment)) (Some out)) STATUS_SUCCESS,
       set_disk demo_empty_world
         (rke_store_fragment (demo_config 1) (disk demo_empty_world)
            (frag_at (fragment_storage demo_split.1.2) 1) (key_id demo_metadata)).2) /\
    length out = sizeof_fragment /\
    fragment_of_bytes out = frag_at (fragment_storage demo_split.1.2) 1.
Proof.
  apply (exchange_returns_stored_fragment _ demo_empty_world _
           (frag_at (fragment_storage demo_split.1.2) 1) (key_id demo_metadata) [0xff; 0xff]).
  - vm_compute. discriminate.
  - vm_compute. reflexivity.
  - vm_compute. reflexivity.
  - reflexivity.
  - vm_compute. reflexivity.
  - reflexivity.
  - vm_compute. reflexivity.
  - vm_compute. discriminate.
Defined.

(** X15.  The handlers that only read, [cmd_rke_query],
    [cmd_rke_reconstruct] and [cmd_rke_exchange], hand the world back
    unchanged on every path: no file is written, the fragment array is
    kept and no entropy is used. *)
Theorem read_only_handlers (ci : conn_info_t) (w : world) :
  (cmd_rke_query ci w).2 = w /\
  (cmd_rke_reconstruct ci w).2 = w /\
  (cmd_rke_exchange ci w).2 = w.
Proof.
  split; [|split].
  - unfold cmd_rke_query. destruct (negb _); [reflexivity|].
    destruct (rke_load_metadata _ _ _) as [rv md]. destruct (negb _); [reflexivity|].
    destruct (malloc _ _); reflexivity.
  - unfold cmd_rke_reconstruct. destruct (negb _); [reflexivity|].
    destruct (rke_load_metadata _ _ _) as [rv md]. destruct (negb _); [reflexivity|].
    destruct (_ <? _); [reflexivity|]. destruct (negb _); [reflexivity|].
    destruct (rke_reconstruct_key _ _ _ _) as [rv' k]. destruct (negb _); [reflexivity|].
    destruct (malloc _ _); reflexivity.
  - unfold cmd_rke_exchange. destruct (_ <? _); [reflexivity|].
    destruct (rke_fragment_exists _ _ _ _); [|reflexivity].
    destruct (rke_load_fragment _ _ _ _) as [rv fr]. destruct (negb _); [reflexivity|].
    destruct (malloc _ _); reflexivity.
Qed.

(** X16.  [cmd_rke_generate] rejects a request before it touches
    anything: with a body that is not 21 bytes the status is
    [ERROR_INVALID_PACKET_LENGTH]; with a 21-byte body whose threshold
    (byte 18) exceeds the fragment total (byte 17), whose total is 0 or
    whose threshold is below 2 the status is [ERROR_INVALID_PARAMETER];
    in both cases the rest of the connection record and the world (disk,
    fragment array, entropy) are as before. *)
Theorem cmd_rke_generate_rejects (ci : conn_info_t) (w : world) :
  (body_size ci <> 21 ->
   cmd_rke_generate ci w = (set_status ci ERROR_INVALID_PACKET_LENGTH, w)) /\
  (body_size ci = 21 ->
   byte_at (body ci) 18 > byte_at (body ci) 17 \/ byte_at (body ci) 17 = 0 \/
   byte_at (body ci) 18 < 2 ->
   cmd_rke_generate ci w = (set_status ci ERROR_INVALID_PARAMETER, w)).
Proof.
  unfold cmd_rke_generate, get_body_payload, RKE_MIN_THRESHOLD.
  cbn [md_threshold md_total_fragments]. split.
  - intros H. by destruct (Z.eqb_spec (body_size ci) 21).
  - intros -> H. change (negb (21 =? 21)) with false. cbv iota.
    destruct (Z.gtb_spec (byte_at (body ci) 18) (byte_at (body ci) 17)); [reflexivity|].
    destruct (Z.eqb_spec (byte_at (body ci) 17) 0); [reflexivity|].
    destruct (Z.ltb_spec (byte_at (body ci) 18) 2); [reflexivity|]. lia.
Qed.

Lemma cmd_rke_generate_rejects_witness :
  cmd_rke_generate
    {| body := key_id demo_metadata ++ [RKE_KEY_TYPE_SYMMETRIC; 5; 1; 0xff; 0xff];
       body_size := 21; output := None; output_size := 0; command_status := -999;
       nonce := demo_nonce |} demo_empty_world
  = (set_status
       {| body := key_id demo_metadata ++ [RKE_KEY_TYPE_SYMMETRIC; 5; 1; 0xff; 0xff];
          body_size := 21; output := None; output_size := 0; command_status := -999;
          nonce := demo_nonce |} ERROR_INVALID_PARAMETER, demo_empty_world).
Proof.
  apply (proj2 (cmd_rke_generate_rejects _ demo_empty_world)).
  - reflexivity.
  - right. right. vm_compute. reflexivity.
Defined.

(** X17.  After a [cmd_rke_generate] that reports [STATUS_SUCCESS],
    [rke_load_metadata] for the key id in the request finds the record
    the handler built: the key id, type, fragment total and threshold of
    the request, the time of the call and zero coin fields; and the
    request had 2 <= threshold <= total. *)
Theorem generate_then_load_metadata (ci : conn_info_t) (w : world) :
  command_status (cmd_rke_generate ci w).1 = STATUS_SUCCESS ->
  rke_load_metadata (config w) (disk (cmd_rke_generate ci w).2)
                    (memcpy (zeros RKE_KEY_ID_SIZE) (body ci) RKE_KEY_ID_SIZE)
  = (RKE_SUCCESS,
     {| key_id := memcpy (zeros RKE_KEY_ID_SIZE) (body ci) RKE_KEY_ID_SIZE;
        key_type := byte_at (body ci) 16;
        md_total_fragments := byte_at (body ci) 17;
        md_threshold := byte_at (body ci) 18;
        timestamp := now w mod 2 ^ 32; den := 0; sn := 0 |}) /\
  2 <= byte_at (body ci) 18 <= byte_at (body ci) 17.
Proof.
  unfold cmd_rke_generate, get_body_payload, RKE_MIN_THRESHOLD.
  cbn [md_threshold md_total_fragments].
  destruct (negb _); [discriminate|].
  destruct (Z.gtb_spec (byte_at (body ci) 18) (byte_at (body ci) 17)); [discriminate|].
  destruct (_ =? 0); [discriminate|].
  destruct (Z.ltb_spec (byte_at (body ci) 18) 2); [discriminate|].
  destruct (rke_generate_key _ _ _) as [[rv key] rnd1].
  destruct (negb _); [discriminate|].
  destruct (rke_split_key _ _ _ _ _) as [[rv' core1] rnd2].
  destruct (negb _); [discriminate|].
  destruct (rke_store_metadata _ _ _) as [rv'' disk1] eqn:Hstore.
  change (config (set_core_rnd w core1 rnd2)) with (config w) in Hstore.
  change (disk (set_core_rnd w core1 rnd2)) with (disk w) in Hstore.
  destruct (Z.eqb_spec rv'' RKE_SUCCESS) as [->|]; [|discriminate]. cbn [negb].
  intros _. split; [|lia].
  assert (Hd : disk (match malloc (set_disk (set_core_rnd w core1 rnd2) disk1) 1 with
                     | Some out =>
                         (set_status (set_output (set_output_size ci 1)
                                        (Some (<[0%nat:=1]> out))) STATUS_SUCCESS,
                          set_disk (set_core_rnd w core1 rnd2) disk1)
                     | None =>
                         (set_status (set_output (set_output_size ci 1) None)
                                     ERROR_MEMORY_ALLOC,
                          set_disk (set_core_rnd w core1 rnd2) disk1)
                     end).2 = disk1) by (destruct (malloc _ _); reflexivity).
  rewrite Hd.
  apply (rke_store_metadata_readback _ _ _ _) in Hstore; [exact Hstore | | |].
  - apply memcpy_length.
  - cbn [timestamp]. apply Z.mod_pos_bound. lia.
  - cbn [sn]. lia.
Qed.

Lemma generate_then_load_metadata_witness :
  rke_load_metadata (config demo_empty_world)
                    (disk (cmd_rke_generate demo_generate_ci demo_empty_world).2)
                    (memcpy (zeros RKE_KEY_ID_SIZE) (body demo_generate_ci) RKE_KEY_ID_SIZE)
  = (RKE_SUCCESS,
     {| key_id := memcpy (zeros RKE_KEY_ID_SIZE) (body demo_generate_ci) RKE_KEY_ID_SIZE;
        key_type := byte_at (body demo_generate_ci) 16;
        md_total_fragments := byte_at (body demo_generate_ci) 17;
        md_threshold := byte_at (body demo_generate_ci) 18;
        timestamp := now demo_empty_world mod 2 ^ 32; den := 0; sn := 0 |}) /\
  2 <= byte_at (body demo_generate_ci) 18 <= byte_at (body demo_generate_ci) 17.
Proof.
  apply (generate_then_load_metadata demo_generate_ci demo_empty_world).
  vm_compute. reflexivity.
Defined.

Lemma testbit_one_shifted (k m : nat) :
  Z.testbit (Z.shiftl 1 (Z.of_nat k)) (Z.of_nat m) = bool_decide (m = k).
Proof.
  rewrite Z.shiftl_1_l, Z.pow2_bits_eqb by lia.
  case_bool_decide; [apply Z.eqb_eq | apply Z.eqb_neq]; lia.
Qed.

(** The bitmap after the first [n] rounds of the loop. *)
Lemma query_loop_bits (p : nat -> bool) (n : nat) :
  (n <= 256)%nat ->
  let fragment_map :=
    for_loop n 1%nat
      (fun i fragment_map =>
         if p i then
           <[((i - 1) / 8)%nat :=
               Z.lor (byte_at fragment_map ((i - 1) / 8))
                     (Z.shiftl 1 (Z.of_nat ((i - 1) mod 8)))]> fragment_map
         else fragment_map)
      (zeros 32) in
  length fragment_map = 32%nat /\
  forall j, (j < 256)%nat ->
    Z.testbit (byte_at fragment_map (j / 8)) (Z.of_nat (j mod 8))
    = bool_decide (j < n)%nat && p (S j).
Proof.
  induction n as [|n IH]; intros Hn; cbv zeta.
  - cbn [for_loop]. split; [apply repeat_length|]. intros j _.
    rewrite byte_at_zeros, Z.bits_0. case_bool_decide; [lia | done].
  - rewrite for_loop_S_r. cbv zeta in IH. destruct IH as [Hlen Hbits]; [lia|].
    replace (1 + n - 1)%nat with n by lia. change (1 + n)%nat with (S n).
    destruct (p (S n)) eqn:Hp.
    + split; [by rewrite length_insert|]. intros j Hj.
      rewrite byte_at_insert, Hlen.
      pose proof (Nat.div_mod_eq j 8). pose proof (Nat.div_mod_eq n 8).
      pose proof (Nat.mod_upper_bound j 8). pose proof (Nat.mod_upper_bound n 8).
      case_decide as Hd.
      * destruct Hd as [Hd _]. rewrite Z.lor_spec, testbit_one_shifted, <- Hd, Hbits by done.
        repeat case_bool_decide; try lia; cbn [andb orb].
        -- by rewrite orb_false_r.
        -- replace j with n by lia. by rewrite Hp.
      * rewrite Hbits by done. assert (j <> n) by (intros ->; apply Hd; split; [done|lia]).
        repeat case_bool_decide; try lia; done.
    + split; [done|]. intros j Hj. rewrite Hbits by done.
      repeat case_bool_decide; try lia; try done.
      replace j with n by lia. by rewrite Hp.
Qed.

Lemma rke_load_metadata_key_id_length (cfg : config_s) (d : disk_t) (kid : list Z) :
  length (key_id (rke_load_metadata cfg d kid).2) = 16%nat.
Proof.
  unfold rke_load_metadata. destruct (open_rdonly _ _) as [f|]; [|reflexivity].
  destruct (read f sizeof_metadata) as [rv bytes].
  assert (length (key_id (metadata_of_bytes
                            (memcpy (zeros sizeof_metadata) bytes (length bytes)))) = 16%nat).
  { unfold metadata_of_bytes, RKE_KEY_ID_SIZE. cbn [key_id].
    rewrite length_take, memcpy_length. unfold zeros. rewrite repeat_length.
    reflexivity. }
  destruct (negb _); [done|]. destruct (negb _); done.
Qed.

(** What a successful [rke_load_metadata] has read: the first 32 bytes
    of the metadata file, which decode to the record it returns. *)
Lemma rke_load_metadata_image_spec (cfg : config_s) (d : disk_t) (kid : list Z)
    (md : rke_key_metadata_t) :
  rke_load_metadata cfg d kid = (RKE_SUCCESS, md) ->
  exists f,
    files d !! metadata_path cfg kid = Some f /\
    rke_load_metadata_image cfg d kid = take sizeof_metadata (contents f) /\
    length (rke_load_metadata_image cfg d kid) = sizeof_metadata /\
    metadata_of_bytes (rke_load_metadata_image cfg d kid) = md.
Proof.
  unfold rke_load_metadata, rke_load_metadata_image, open_rdonly.
  destruct (files d !! metadata_path cfg kid) as [f|]; [|discriminate].
  unfold read. destruct (read_fails f); [discriminate|]. cbn [fst snd]. cbv zeta.
  destruct (Z.eqb_spec (Z.of_nat (length (take sizeof_metadata (contents f))))
                       (Z.of_nat sizeof_metadata)) as [Hlen|]; [|discriminate].
  apply Nat2Z.inj in Hlen. cbn [negb].
  destruct (negb (memcmp_eq _ _ _)); [discriminate|]. intros [= <-].
  exists f. split; [done|]. rewrite Hlen.
  rewrite memcpy_full; [|apply repeat_length|lia].
  rewrite (take_ge (take sizeof_metadata (contents f))) by lia.
  split; [done|]. split; [exact Hlen | done].
Qed.

(** X18.  The answer of a successful [cmd_rke_query]: 64 bytes.  The
    first 32 are the first 32 bytes of the metadata file of the key, as
    they are, padding bytes included; they decode to the record that
    [rke_load_metadata] returns.  The other 32 are a bitmap in which bit
    [j mod 8] of byte [j / 8] is set exactly when [j + 1] is at most the
    fragment total of the record and [rke_fragment_exists] finds fragment
    [j + 1] of the key. *)
Theorem cmd_rke_query_answer (ci : conn_info_t) (w : world) (md : rke_key_metadata_t) :
  body_size ci = 18 ->
  rke_load_metadata (config w) (disk w)
                    (memcpy (zeros RKE_KEY_ID_SIZE) (body ci) RKE_KEY_ID_SIZE)
  = (RKE_SUCCESS, md) ->
  0 <= md_total_fragments md <= 255 ->
  heap_ok w = true ->
  exists f raw fragment_map,
    cmd_rke_query ci w
    = (set_status (set_output (set_output_size ci 64) (Some (raw ++ fragment_map)))
                  STATUS_SUCCESS, w) /\
    files (disk w) !! metadata_path (config w)
                        (memcpy (zeros RKE_KEY_ID_SIZE) (body ci) RKE_KEY_ID_SIZE) = Some f /\
    raw = take 32 (contents f) /\ length raw = 32%nat /\ metadata_of_bytes raw = md /\
    length fragment_map = 32%nat /\
    forall j, (j < 256)%nat ->
      Z.testbit (byte_at fragment_map (j / 8)) (Z.of_nat (j mod 8))
      = bool_decide (Z.of_nat j < md_total_fragments md)
        && rke_fragment_exists (config w) (disk w)
             (memcpy (zeros RKE_KEY_ID_SIZE) (body ci) RKE_KEY_ID_SIZE) (Z.of_nat (S j)).
Proof.
  intros Hsize Hload Hn Hheap.
  set (kid := memcpy (zeros RKE_KEY_ID_SIZE) (body ci) RKE_KEY_ID_SIZE) in *.
  destruct (rke_load_metadata_image_spec _ _ _ _ Hload) as (f & Hf & Hraw & Hlr & Hdec).
  unfold sizeof_metadata in Hraw, Hlr.
  destruct (query_loop_bits (fun i => rke_fragment_exists (config w) (disk w) kid (Z.of_nat i))
              (Z.to_nat (md_total_fragments md))) as [Hlen Hbits]; [lia|].
  exists f, (rke_load_metadata_image (config w) (disk w) kid),
         (query_fragment_map (config w) (disk w) kid md).
  split; [|split; [done|split; [done|split; [done|split; [done|split; [exact Hlen|]]]]]].
  - unfold cmd_rke_query, get_body_payload. rewrite Hsize. fold kid. rewrite Hload.
    change (negb (18 =? 18)) with false. change (negb (RKE_SUCCESS =? RKE_SUCCESS)) with false.
    cbv iota. unfold malloc. rewrite Hheap. unfold sizeof_metadata.
    set (raw := rke_load_metadata_image (config w) (disk w) kid) in *.
    change (zeros (32 + 32)) with (zeros 32 ++ zeros 32).
    assert (Hout : memcpy (zeros 32 ++ zeros 32) raw 32 = raw ++ zeros 32).
    { apply byte_ext.
      - rewrite memcpy_length, (length_app raw), Hlr. reflexivity.
      - intros j Hj. rewrite memcpy_length in Hj. rewrite memcpy_at.
        change (length (zeros 32 ++ zeros 32)) with 64%nat in *.
        case_decide.
        + by rewrite byte_at_app_l by lia.
        + change (zeros 32 ++ zeros 32) with (zeros 64).
          rewrite byte_at_app_r by (rewrite Hlr; lia). by rewrite !byte_at_zeros. }
    rewrite Hout, take_app_length', drop_app_length' by done.
    rewrite memcpy_full; [|apply repeat_length|unfold query_fragment_map; lia].
    rewrite take_ge by (unfold query_fragment_map; lia). reflexivity.
  - intros j Hj. unfold query_fragment_map. rewrite Hbits by done. f_equal.
    apply bool_decide_ext. lia.
Qed.

Lemma cmd_rke_query_answer_witness :
  exists f raw fragment_map,
    cmd_rke_query demo_query_ci (demo_reconstruct_world demo_files_A)
    = (set_status (set_output (set_output_size demo_query_ci 64) (Some (raw ++ fragment_map)))
                  STATUS_SUCCESS, demo_reconstruct_world demo_files_A) /\
    files (disk (demo_reconstruct_world demo_files_A))
      !! metadata_path (config (demo_reconstruct_world demo_files_A))
           (memcpy (zeros RKE_KEY_ID_SIZE) (body demo_query_ci) RKE_KEY_ID_SIZE) = Some f /\
    raw = take 32 (contents f) /\ length raw = 32%nat /\
    metadata_of_bytes raw = demo_metadata /\
    length fragment_map = 32%nat /\
    forall j, (j < 256)%nat ->
      Z.testbit (byte_at fragment_map (j / 8)) (Z.of_nat (j mod 8))
      = bool_decide (Z.of_nat j < md_total_fragments demo_metadata)
        && rke_fragment_exists (config (demo_reconstruct_world demo_files_A))
             (disk (demo_reconstruct_world demo_files_A))
             (memcpy (zeros RKE_KEY_ID_SIZE) (body demo_query_ci) RKE_KEY_ID_SIZE)
             (Z.of_nat (S j)).
Proof.
  apply (cmd_rke_query_answer demo_query_ci (demo_reconstruct_world demo_files_A)
           demo_metadata).
  - reflexivity.
  - vm_compute. reflexivity.
  - vm_compute. split; discriminate.
  - reflexivity.
Defined.

(** X19.  Nothing that [cmd_rke_generate] does lets
    [cmd_rke_reconstruct] succeed on its own: when the store held fewer
    fragment files of the key than the threshold of the request before a
    successful [cmd_rke_generate] (for instance none, as for a fresh
    key), a following [cmd_rke_reconstruct] for that key ends with
    [ERROR_INVALID_PARAMETER] and changes nothing else in the connection
    record. *)
Theorem generate_then_reconstruct_refused (ci ci' : conn_info_t) (w : world) :
  command_status (cmd_rke_generate ci w).1 = STATUS_SUCCESS ->
  rke_count_fragments (config w) (disk w)
                      (memcpy (zeros RKE_KEY_ID_SIZE) (body ci) RKE_KEY_ID_SIZE)
  < byte_at (body ci) 18 ->
  body_size ci' = 18 ->
  memcpy (zeros RKE_KEY_ID_SIZE) (body ci') RKE_KEY_ID_SIZE
  = memcpy (zeros RKE_KEY_ID_SIZE) (body ci) RKE_KEY_ID_SIZE ->
  (cmd_rke_reconstruct ci' (cmd_rke_generate ci w).2).1
  = set_status ci' ERROR_INVALID_PARAMETER.
Proof.
  intros Hok Hcount Hsize Hkid.
  set (kid := memcpy (zeros RKE_KEY_ID_SIZE) (body ci) RKE_KEY_ID_SIZE) in *.
  set (w' := (cmd_rke_generate ci w).2).
  assert (Hcfg : config w' = config w) by apply (cmd_rke_generate_keeps_fragments ci w kid 0).
  assert (Hload : rke_load_metadata (config w') (disk w') kid
                  = (RKE_SUCCESS,
                     {| key_id := kid; key_type := byte_at (body ci) 16;
                        md_total_fragments := byte_at (body ci) 17;
                        md_threshold := byte_at (body ci) 18;
                        timestamp := now w mod 2 ^ 32; den := 0; sn := 0 |})).
  { rewrite Hcfg. subst w' kid.
    unfold cmd_rke_generate, get_body_payload, RKE_MIN_THRESHOLD in Hok |- *.
    cbn [md_threshold md_total_fragments] in Hok |- *.
    destruct (negb _); [discriminate|].
    destruct (_ >? _); [discriminate|].
    destruct (_ =? 0); [discriminate|].
    destruct (_ <? 2); [discriminate|].
    destruct (rke_generate_key _ _ _) as [[rv key] rnd1].
    destruct (negb _); [discriminate|].
    destruct (rke_split_key _ _ _ _ _) as [[rv' core1] rnd2].
    destruct (negb _); [discriminate|].
    destruct (rke_store_metadata _ _ _) as [rv'' disk1] eqn:Hstore.
    change (config (set_core_rnd w core1 rnd2)) with (config w) in Hstore.
    change (disk (set_core_rnd w core1 rnd2)) with (disk w) in Hstore.
    destruct (Z.eqb_spec rv'' RKE_SUCCESS) as [->|]; [|discriminate]. cbn [negb] in Hok |- *.
    apply (rke_store_metadata_readback _ _ _ _) in Hstore.
    - unfold malloc. cbn [heap_ok set_disk set_core_rnd].
      destruct (heap_ok w); exact Hstore.
    - apply memcpy_length.
    - cbn [timestamp]. apply Z.mod_pos_bound. lia.
    - cbn [sn]. lia. }
  assert (Hc : rke_count_fragments (config w') (disk w') kid
               = rke_count_fragments (config w) (disk w) kid).
  { rewrite Hcfg. apply rke_count_fragments_same. intros id.
    apply (cmd_rke_generate_keeps_fragments ci w kid id). }
  unfold cmd_rke_reconstruct, get_body_payload. rewrite Hsize, Hkid, Hload, Hc.
  change (negb (18 =? 18)) with false. change (negb (RKE_SUCCESS =? RKE_SUCCESS)) with false.
  cbv iota. cbn [md_threshold].
  destruct (Z.ltb_spec (rke_count_fragments (config w) (disk w) kid) (byte_at (body ci) 18));
    [reflexivity | lia].
Qed.

Lemma generate_then_reconstruct_refused_witness :
  (cmd_rke_reconstruct demo_query_ci (cmd_rke_generate demo_generate_ci demo_empty_world).2).1
  = set_status demo_query_ci ERROR_INVALID_PARAMETER.
Proof.
  apply (generate_then_reconstruct_refused demo_generate_ci demo_query_ci demo_empty_world).
  - vm_compute. reflexivity.
  - vm_compute. reflexivity.
  - reflexivity.
  - vm_compute. reflexivity.
Defined.

(** ** [rke_split_key]: which fragments depend on the key *)

Lemma split_loop_masks metadata L key1 key2 n : forall k s1 s2 rnd,
  (1 <= k)%nat -> length s1 = length s2 ->
  (forall j, (1 <= j)%nat -> frag_at s1 j = frag_at s2 j) ->
  let r1 := split_loop n (S k) key1 L metadata s1 rnd in
  let r2 := split_loop n (S k) key2 L metadata s2 rnd in
  r1.1.1 = r2.1.1 /\ r1.2 = r2.2 /\ length r1.1.2 = length r2.1.2 /\
  forall j, (1 <= j)%nat -> frag_at r1.1.2 j = frag_at r2.1.2 j.
Proof.
  induction n as [|n IH]; intros k s1 s2 rnd Hk Hlen Hsame; cbv zeta.
  - cbn [split_loop fst snd]. done.
  - rewrite !split_loop_next by done. cbv zeta. cbn [data].
    rewrite (Hsame k Hk).
    destruct (secure_random_bytes rnd (zeros RKE_FRAGMENT_DATA_SIZE) (Z.to_nat L))
      as [[rv mask] rnd1].
    assert (Hstep : forall j x, (1 <= j)%nat ->
              frag_at (<[k:=x]> s1) j = frag_at (<[k:=x]> s2) j).
    { intros j x Hj. rewrite !frag_at_insert, Hlen. case_decide; [done | by apply Hsame]. }
    destruct (negb (rv =? 0)).
    + cbn [fst snd]. rewrite !length_insert.
      split; [done|split; [done|split; [done|intros j Hj; by apply Hstep]]].
    + apply IH; [lia | by rewrite !length_insert |].
      intros j Hj. rewrite !(frag_at_insert _ 0%nat).
      repeat case_decide; try lia. by apply Hstep.
Qed.

Lemma checksum_loop_masks n : forall i s1 s2,
  length s1 = length s2 ->
  (forall j, (1 <= j)%nat -> frag_at s1 j = frag_at s2 j) ->
  (checksum_loop n i s1).1 = (checksum_loop n i s2).1 /\
  length (checksum_loop n i s1).2 = length (checksum_loop n i s2).2 /\
  forall j, (1 <= j)%nat -> frag_at (checksum_loop n i s1).2 j = frag_at (checksum_loop n i s2).2 j.
Proof.
  induction n as [|n IH]; intros i s1 s2 Hlen Hsame; [done|].
  cbn [checksum_loop]. unfold rke_calculate_checksum.
  change (negb (RKE_SUCCESS =? RKE_SUCCESS)) with false. cbv iota.
  apply IH; [by rewrite !length_insert|].
  intros j Hj. rewrite !frag_at_insert, Hlen.
  case_decide as Hc; [|by apply Hsame]. destruct Hc as [-> _]. by rewrite (Hsame i Hj).
Qed.

(** X20.  Only the first fragment that [rke_split_key] builds depends on
    the key.  Two calls that differ in the key alone end with the same
    status, use the same entropy and leave the same fragment count, and
    entries 2, 3, ... of the fragment array, checksums included, are the
    same in both: those fragments are the random masks and, taken
    together, say nothing about the key, however many the threshold
    is. *)
Theorem split_masks_independent_of_key (st : core_state) (rnd : entropy) (key1 key2 : list Z)
    (L : Z) (metadata : rke_key_metadata_t) :
  (rke_split_key st rnd key1 L metadata).1.1 = (rke_split_key st rnd key2 L metadata).1.1 /\
  (rke_split_key st rnd key1 L metadata).2 = (rke_split_key st rnd key2 L metadata).2 /\
  fragment_count (rke_split_key st rnd key1 L metadata).1.2
  = fragment_count (rke_split_key st rnd key2 L metadata).1.2 /\
  forall j, (1 <= j)%nat ->
    frag_at (fragment_storage (rke_split_key st rnd key1 L metadata).1.2) j
    = frag_at (fragment_storage (rke_split_key st rnd key2 L metadata).1.2) j.
Proof.
  unfold rke_split_key.
  destruct (_ || _); [done|]. destruct (_ >? _); [done|]. destruct (_ <? _); [done|].
  destruct (Z.to_nat (md_total_fragments metadata)) as [|n] eqn:Hn.
  { cbn [split_loop checksum_loop]. change (negb (RKE_SUCCESS =? RKE_SUCCESS)) with false.
    cbv iota. done. }
  rewrite !split_loop_first.
  set (s1 := <[0%nat:=_]> _). set (s2 := <[0%nat:=_]> _).
  assert (Hlen : length s1 = length s2) by (unfold s1, s2; by rewrite !length_insert).
  assert (Hsame : forall j, (1 <= j)%nat -> frag_at s1 j = frag_at s2 j).
  { intros j Hj. unfold s1, s2. rewrite !frag_at_insert. case_decide; [lia | done]. }
  clearbody s1 s2.
  destruct (split_loop_masks metadata L key1 key2 n 1 s1 s2 rnd (le_n 1) Hlen Hsame)
    as (Hrv & Hrnd & Hlen' & Hsame').
  destruct (split_loop n 2 key1 L metadata s1 rnd) as [[rv1 t1] rnd1].
  destruct (split_loop n 2 key2 L metadata s2 rnd) as [[rv2 t2] rnd2].
  cbn [fst snd] in Hrv, Hrnd, Hlen', Hsame'. subst rv2 rnd2.
  destruct (negb (rv1 =? RKE_SUCCESS)); [done|].
  destruct (checksum_loop_masks (S n) 0 t1 t2 Hlen' Hsame') as (Hc & _ & Hf).
  destruct (checksum_loop (S n) 0 t1) as [c1 u1]. destruct (checksum_loop (S n) 0 t2) as [c2 u2].
  cbn [fst snd] in Hc, Hf. subst c2.
  destruct (negb (c1 =? RKE_SUCCESS)); done.
Qed.

(** ** The chat commands of [cmd_key_exechange.c] *)

Lemma write_at_all (d : disk_t) (path : string) (pos : nat) (bytes : list Z) (f : file_t) :
  write_limit d = None -> files d !! path = Some f ->
  KeyExchange.write_at d path pos bytes
  = (Z.of_nat (length bytes),
     {| files := <[path := {| contents := take pos (contents f) ++ bytes
                                          ++ drop (pos + length bytes) (contents f);
                              read_fails := read_fails f |}]> (files d);
        mkdir_fails := mkdir_fails d; creat_fails := creat_fails d; write_limit := None |},
     (pos + length bytes)%nat).
Proof. intros Hw Hf. unfold KeyExchange.write_at. by rewrite Hw, Hf. Qed.

Lemma key_file_path_prefix (cfg : config_s) (p1 p2 : list Z) :
  (forall i, (i < 16)%nat -> byte_at p1 i = byte_at p2 i) ->
  KeyExchange.key_file_path cfg p1 = KeyExchange.key_file_path cfg p2.
Proof.
  intros H. unfold KeyExchange.key_file_path. do 2 f_equal.
  apply for_loop_ext. intros i s Hi. by rewrite H by lia.
Qed.

(** Three consecutive writes at the start of a file. *)
Lemma three_writes (b : Z) (w2 w3 c : list Z) :
  length w2 = 4%nat ->
  take 5 (take 1 (take 0 c ++ [b] ++ drop 1 c) ++ w2
          ++ drop 5 (take 0 c ++ [b] ++ drop 1 c))
  ++ w3
  ++ drop (5 + length w3) (take 1 (take 0 c ++ [b] ++ drop 1 c) ++ w2
                           ++ drop 5 (take 0 c ++ [b] ++ drop 1 c))
  = (b :: w2 ++ w3) ++ drop (length (b :: w2 ++ w3)) c.
Proof.
  intros H4.
  change (take 0 c ++ [b] ++ drop 1 c) with (b :: drop 1 c).
  change (take 1 (b :: drop 1 c)) with [b].
  change (drop 5 (b :: drop 1 c)) with (drop 4 (drop 1 c)).
  change ([b] ++ w2 ++ drop 4 (drop 1 c)) with (b :: w2 ++ drop 4 (drop 1 c)).
  change (take 5 (b :: w2 ++ drop 4 (drop 1 c))) with (b :: take 4 (w2 ++ drop 4 (drop 1 c))).
  change (drop (5 + length w3) (b :: w2 ++ drop 4 (drop 1 c)))
    with (drop (4 + length w3) (w2 ++ drop 4 (drop 1 c))).
  rewrite take_app_length', drop_app_add' by done.
  rewrite !drop_drop. cbn [length]. rewrite length_app, H4.
  rewrite <- !app_comm_cons, <- app_assoc. reflexivity.
Qed.

(** What a [cmd_post_key] that meets no I/O error does. *)
Lemma cmd_post_key_effect (ci : conn_info_t) (e : KeyExchange.env) :
  let payload := body ci in
  let path := KeyExchange.key_file_path (config (KeyExchange.base e)) payload in
  let d := disk (KeyExchange.base e) in
  body_size ci = 185 -> length payload = 185%nat ->
  0 <= byte_at payload 32 < 256 ->
  0 <= byte_at payload 165 -> 0 <= byte_at payload 166 ->
  byte_at payload 165 + byte_at payload 166 <= 127 ->
  creat_fails d = false -> write_limit d = None ->
  exists d',
    KeyExchange.cmd_post_key ci e = (set_status ci STATUS_SUCCESS, KeyExchange.set_env_disk e d') /\
    (exists f', files d' !! path = Some f' /\
       contents f' = posted_key payload ++ drop (length (posted_key payload)) (contents_at d path) /\
       (files d !! path = None -> read_fails f' = false)) /\
    length (posted_key payload) = (5 + Z.to_nat (byte_at payload 166))%nat /\
    (forall p, p <> path -> files d' !! p = files d !! p) /\
    creat_fails d' = false.
Proof.
  intros payload path d Hsize Hlen Hden Hks Hkl Hsum Hcreat Hlimit.
  set (ks := byte_at payload 165) in *. set (kl := byte_at payload 166) in *.
  set (f0 := match files d !! path with
             | Some f => f
             | None => {| contents := []; read_fails := false |}
             end).
  assert (Hc0 : contents f0 = contents_at d path).
  { unfold f0, contents_at. by destruct (files d !! path). }
  assert (Hb : KeyExchange.byte_of_int8 (KeyExchange.int8_of_byte (byte_at payload 32)) = byte_at payload 32).
  { unfold KeyExchange.byte_of_int8, KeyExchange.int8_of_byte. destruct (Z.ltb_spec (byte_at payload 32) 128).
    - apply Z.mod_small. lia.
    - replace (byte_at payload 32 - 256) with (byte_at payload 32 + (-1) * 256) by lia.
      rewrite Z.mod_add by lia. apply Z.mod_small. lia. }
  assert (Hw2 : length (take 4 (drop 33 payload)) = 4%nat).
  { rewrite length_take, length_drop, Hlen. reflexivity. }
  assert (Hw3 : length (take (Z.to_nat kl) (drop (37 + Z.to_nat ks) payload)) = Z.to_nat kl).
  { rewrite length_take, length_drop, Hlen. lia. }
  assert (Hpk : length (posted_key payload) = (5 + Z.to_nat kl)%nat).
  { unfold posted_key. fold ks kl. cbn [length]. rewrite length_app, Hw2, Hw3. lia. }
  eexists. split; [|split; [|split; [exact Hpk|split]]].
  - unfold KeyExchange.cmd_post_key, get_body_payload. fold payload. rewrite Hsize.
    change (negb (185 =? 185)) with false. cbv iota. fold ks kl.
    destruct (Z.gtb_spec (ks + kl) 127); [lia|].
    fold d path. unfold KeyExchange.open_creat. rewrite Hcreat. fold f0.
    rewrite (write_at_all _ path 0 _ f0); [|exact Hlimit|apply lookup_insert_eq].
    cbn [length Z.of_nat Pos.of_succ_nat files mkdir_fails creat_fails write_limit].
    change (negb (1 =? 1)) with false. cbv iota.
    erewrite (write_at_all _ path); [|reflexivity|apply lookup_insert_eq].
    rewrite Hw2. change (negb (Z.of_nat 4 =? 4)) with false. cbv iota.
    cbn [files mkdir_fails creat_fails write_limit].
    erewrite (write_at_all _ path); [|reflexivity|apply lookup_insert_eq].
    rewrite Hw3, Z2Nat.id by lia. rewrite (Z.eqb_refl kl). cbn [negb]. reflexivity.
  - cbn [files]. rewrite lookup_insert_eq. eexists. split; [reflexivity|].
    cbn [contents read_fails]. split.
    + rewrite Hb, <- Hc0. unfold posted_key. fold ks kl.
      set (w2 := take 4 (drop 33 payload)) in *.
      set (w3 := take (Z.to_nat kl) (drop (37 + Z.to_nat ks) payload)) in *.
      set (c := contents f0).
      change (0 + 1 + 4 + Z.to_nat kl)%nat with (5 + Z.to_nat kl)%nat.
      change (0 + 1 + 4)%nat with 5%nat. change (0 + 1)%nat with 1%nat.
      rewrite <- Hw3. apply three_writes. exact Hw2.
    + intros Hnone. unfold f0. by rewrite Hnone.
  - intros p Hp. cbn [files]. by rewrite !lookup_insert_ne by done.
  - reflexivity.
Qed.

(** X21.  A [cmd_post_key] that meets no I/O error reports
    [STATUS_SUCCESS] and leaves, in the file named after bytes 0 .. 15 of
    the body, the denomination byte, the four serial-number bytes and
    [kl] key bytes taken from offset [ks] of the key area.  The file is
    not truncated: whatever an older, longer file held beyond these
    [5 + kl] bytes is still there.  No other file is touched. *)
Theorem cmd_post_key_file (ci : conn_info_t) (e : KeyExchange.env) :
  let payload := body ci in
  let path := KeyExchange.key_file_path (config (KeyExchange.base e)) payload in
  let d := disk (KeyExchange.base e) in
  let d' := disk (KeyExchange.base (KeyExchange.cmd_post_key ci e).2) in
  body_size ci = 185 -> length payload = 185%nat ->
  0 <= byte_at payload 32 < 256 ->
  0 <= byte_at payload 165 -> 0 <= byte_at payload 166 ->
  byte_at payload 165 + byte_at payload 166 <= 127 ->
  creat_fails d = false -> write_limit d = None ->
  command_status (KeyExchange.cmd_post_key ci e).1 = STATUS_SUCCESS /\
  contents_at d' path
  = posted_key payload ++ drop (5 + Z.to_nat (byte_at payload 166)) (contents_at d path) /\
  length (posted_key payload) = (5 + Z.to_nat (byte_at payload 166))%nat /\
  forall p, p <> path -> files d' !! p = files d !! p.
Proof.
  intros payload path d d' Hsize Hlen Hden Hks Hkl Hsum Hcreat Hlimit.
  destruct (cmd_post_key_effect ci e Hsize Hlen Hden Hks Hkl Hsum Hcreat Hlimit)
    as (d1 & Hrun & (f' & Hf & Hc & _) & Hpk & Hother & _).
  cbv zeta in Hrun, Hf, Hc, Hpk, Hother.
  subst d' d path payload. rewrite Hrun.
  cbn [fst snd KeyExchange.base KeyExchange.set_env_disk set_disk disk].
  split; [reflexivity|]. split; [|split; [exact Hpk | exact Hother]].
  unfold contents_at at 1. rewrite Hf, Hc, Hpk. reflexivity.
Qed.

Lemma cmd_post_key_file_witness :
  let ci := {| body := zeros 32 ++ [0x01; 100; 0; 0; 0]
                       ++ map (fun i => Z.of_nat i) (seq 0 128) ++ [3; 4] ++ zeros 16
                       ++ [0xff; 0xff];
               body_size := 185; output := None; output_size := 0; command_status := -999;
               nonce := demo_nonce |} in
  command_status (KeyExchange.cmd_post_key ci demo_env).1 = STATUS_SUCCESS /\
  contents_at (disk (KeyExchange.base (KeyExchange.cmd_post_key ci demo_env).2))
              (KeyExchange.key_file_path (config (KeyExchange.base demo_env)) (body ci))
  = [0x01; 100; 0; 0; 0; 3; 4; 5; 6].
Proof.
  intros ci.
  destruct (cmd_post_key_file ci demo_env) as (H1 & H2 & _).
  - vm_compute. reflexivity.
  - vm_compute. reflexivity.
  - vm_compute. split; [discriminate | reflexivity].
  - vm_compute. discriminate.
  - vm_compute. discriminate.
  - vm_compute. discriminate.
  - vm_compute. reflexivity.
  - vm_compute. reflexivity.
  - split; [exact H1|]. rewrite H2. vm_compute. reflexivity.
Defined.

(** X22.  A key posted under a fresh name is what [cmd_get_key] returns
    for a request with the same bytes 0 .. 15: [STATUS_SUCCESS], an output
    of [5 + kl] bytes holding the denomination, the serial number and the
    [kl] key bytes.  The name is made of the first sixteen bytes of the
    body, not of the key id that follows them. *)
Theorem post_then_get_key (ci ci' : conn_info_t) (e : KeyExchange.env) :
  let payload := body ci in
  let d := disk (KeyExchange.base e) in
  body_size ci = 185 -> length payload = 185%nat ->
  0 <= byte_at payload 32 < 256 ->
  0 <= byte_at payload 165 -> 0 <= byte_at payload 166 ->
  byte_at payload 165 + byte_at payload 166 <= 127 ->
  creat_fails d = false -> write_limit d = None ->
  files d !! KeyExchange.key_file_path (config (KeyExchange.base e)) payload = None ->
  heap_ok (KeyExchange.base e) = true ->
  body_size ci' = 55 ->
  (forall i, (i < 16)%nat -> byte_at (body ci') i = byte_at payload i) ->
  let r := KeyExchange.cmd_get_key ci' (KeyExchange.cmd_post_key ci e).2 in
  command_status r.1 = STATUS_SUCCESS /\
  output_size r.1 = 5 + byte_at payload 166 /\
  output r.1 = Some (posted_key payload).
Proof.
  intros payload d Hsize Hlen Hden Hks Hkl Hsum Hcreat Hlimit Hfresh Hheap Hsize' Hpre r.
  destruct (cmd_post_key_effect ci e Hsize Hlen Hden Hks Hkl Hsum Hcreat Hlimit)
    as (d1 & Hrun & (f' & Hf & Hc & Hrf) & Hpk & _ & Hcreat1).
  cbv zeta in Hrun, Hf, Hc, Hrf, Hpk. fold payload d in Hf, Hc, Hrf, Hpk.
  assert (Hc' : contents f' = posted_key payload).
  { rewrite Hc. unfold contents_at. rewrite Hfresh. cbn [drop]. by rewrite drop_nil, app_nil_r. }
  subst r. rewrite Hrun. cbn [snd].
  unfold KeyExchange.cmd_get_key, get_body_payload. rewrite Hsize'.
  change (negb (55 =? 55)) with false. cbv iota.
  change (config (KeyExchange.base (KeyExchange.set_env_disk e d1)))
    with (config (KeyExchange.base e)).
  change (disk (KeyExchange.base (KeyExchange.set_env_disk e d1))) with d1.
  rewrite (key_file_path_prefix _ (body ci') payload Hpre).
  unfold KeyExchange.open_creat. rewrite Hcreat1, Hf.
  unfold read. rewrite (Hrf Hfresh), Hc'.
  assert (Hshort : (length (posted_key payload) <= 512)%nat) by lia.
  rewrite (take_ge (posted_key payload) 512 Hshort). cbv zeta.
  destruct (Z.ltb_spec (Z.of_nat (length (posted_key payload))) 0); [lia|].
  unfold malloc. cbn [KeyExchange.base KeyExchange.set_env_disk set_disk heap_ok].
  rewrite Hheap. cbn [fst command_status output_size output set_output set_status
                      set_output_size].
  split; [reflexivity|]. split; [rewrite Hpk; lia|].
  rewrite Nat2Z.id, memcpy_full; [|apply repeat_length|lia].
  by rewrite firstn_all.
Qed.

Lemma post_then_get_key_witness :
  let ci := {| body := zeros 32 ++ [0x01; 100; 0; 0; 0]
                       ++ map (fun i => Z.of_nat i) (seq 0 128) ++ [3; 4] ++ zeros 16
                       ++ [0xff; 0xff];
               body_size := 185; output := None; output_size := 0; command_status := -999;
               nonce := demo_nonce |} in
  let ci' := {| body := zeros 55; body_size := 55; output := None; output_size := 0;
                command_status := -999; nonce := demo_nonce |} in
  output (KeyExchange.cmd_get_key ci' (KeyExchange.cmd_post_key ci demo_env).2).1
  = Some [0x01; 100; 0; 0; 0; 3; 4; 5; 6].
Proof.
  intros ci ci'.
  destruct (post_then_get_key ci ci' demo_env) as (_ & _ & H).
  - vm_compute. reflexivity.
  - vm_compute. reflexivity.
  - vm_compute. split; [discriminate | reflexivity].
  - vm_compute. discriminate.
  - vm_compute. discriminate.
  - vm_compute. discriminate.
  - vm_compute. reflexivity.
  - vm_compute. reflexivity.
  - vm_compute. reflexivity.
  - vm_compute. reflexivity.
  - vm_compute. reflexivity.
  - intros i Hi. do 16 (destruct i as [|i]; [reflexivity|]). lia.
  - rewrite H. vm_compute. reflexivity.
Defined.

(** X23.  [cmd_get_key] opens with [O_CREAT]: asking for a key that was
    never posted creates an empty file under its name, and, when [malloc]
    hands out a block, the answer is [STATUS_SUCCESS] with an output of 0
    bytes, not an error. *)
Theorem cmd_get_key_creates_file (ci : conn_info_t) (e : KeyExchange.env) :
  let path := KeyExchange.key_file_path (config (KeyExchange.base e)) (body ci) in
  let r := KeyExchange.cmd_get_key ci e in
  body_size ci = 55 -> creat_fails (disk (KeyExchange.base e)) = false ->
  files (disk (KeyExchange.base e)) !! path = None ->
  files (disk (KeyExchange.base r.2)) !! path = Some {| contents := []; read_fails := false |} /\
  (heap_ok (KeyExchange.base e) = true ->
   command_status r.1 = STATUS_SUCCESS /\ output_size r.1 = 0 /\ output r.1 = Some []).
Proof.
  intros path r Hsize Hcreat Hnone. subst r.
  unfold KeyExchange.cmd_get_key, get_body_payload. rewrite Hsize.
  change (negb (55 =? 55)) with false. cbv iota. fold path.
  unfold KeyExchange.open_creat. rewrite Hcreat, Hnone.
  unfold read, malloc. cbn [read_fails contents take length Z.of_nat Z.ltb Z.compare Z.to_nat].
  cbv zeta. cbn [KeyExchange.base KeyExchange.set_env_disk set_disk heap_ok].
  change (Z.of_nat 0) with 0. change (0 <? 0) with false. cbv iota.
  change (Z.to_nat 0) with 0%nat.
  destruct (heap_ok (KeyExchange.base e)).
  - cbn [fst snd KeyExchange.base KeyExchange.set_env_disk set_disk disk files].
    rewrite lookup_insert_eq.
    split; [reflexivity|]. intros _. split; [reflexivity|]. split; reflexivity.
  - cbn [fst snd KeyExchange.base KeyExchange.set_env_disk set_disk disk files].
    rewrite lookup_insert_eq.
    split; [reflexivity|]. discriminate.
Qed.

Lemma cmd_get_key_creates_file_witness :
  let ci := {| body := zeros 55; body_size := 55; output := None; output_size := 0;
               command_status := -999; nonce := demo_nonce |} in
  files (disk (KeyExchange.base (KeyExchange.cmd_get_key ci demo_env).2))
    !! KeyExchange.key_file_path (config (KeyExchange.base demo_env)) (body ci)
  = Some {| contents := []; read_fails := false |}.
Proof.
  intros ci.
  destruct (cmd_get_key_creates_file ci demo_env) as [H _].
  - vm_compute. reflexivity.
  - vm_compute. reflexivity.
  - vm_compute. reflexivity.
  - exact H.
Defined.

(** ** [cmd_decrypt_raida_key]: what a block can and cannot do *)

Lemma bytes_ok_at (l : list Z) (j : nat) : bytes_ok l = true -> 0 <= byte_at l j < 256.
Proof.
  intros H. unfold byte_at. destruct (nth_in_or_default j l 0) as [Hin | ->]; [|lia].
  unfold bytes_ok in H. rewrite forallb_forall in H. apply H in Hin. lia.
Qed.

Lemma byte_at_overflow (l : list Z) (j : nat) : (length l <= j)%nat -> byte_at l j = 0.
Proof. apply nth_overflow. Qed.

(** The request buffer after the key area of block [i] has been
    decrypted in place. *)
Lemma block_payload_at (key nonce payload : list Z) (off p : nat) :
  let payload' := take off payload ++ Aes.crypt_ctr key (drop off payload) 16 nonce in
  length payload' = length payload /\
  byte_at payload' p =
  if decide ((off <= p < off + 16)%nat /\ (p < length payload)%nat)
  then Z.lxor (byte_at payload p)
              (Z.lxor (byte_at key ((p - off) mod 16)) (byte_at nonce ((p - off) mod 16)))
  else byte_at payload p.
Proof.
  cbv zeta. split.
  - rewrite length_app, crypt_ctr_length, length_take, length_drop. lia.
  - destruct (decide (p < off)%nat) as [Hlt|Hge].
    + case_decide; [lia|].
      destruct (decide (p < length payload)%nat).
      * rewrite byte_at_app_l by (rewrite length_take; lia). by apply byte_at_take.
      * rewrite !byte_at_overflow; [done | lia |].
        rewrite length_app, crypt_ctr_length, length_take, length_drop. lia.
    + destruct (decide (off <= length payload)%nat).
      * rewrite byte_at_app_r by (rewrite length_take; lia).
        rewrite length_take, Nat.min_l by lia.
        rewrite crypt_ctr_at, length_drop, !byte_at_drop.
        replace (off + (p - off))%nat with p by lia.
        repeat case_decide; try lia; done.
      * case_decide; [lia|].
        rewrite !byte_at_overflow; [done | lia |].
        rewrite length_app, crypt_ctr_length, length_take, length_drop. lia.
Qed.

Lemma get_page_by_sn_lock_spec (db : Db.store) (den sn : Z) :
  match Db.get_page_by_sn_lock db den sn with
  | Some (page, db') =>
      Db.pages db !! Db.page_key db den sn = Some page /\
      db' = Db.set_held db (Db.page_key db den sn :: Db.held db)
  | None => Db.pages db !! Db.page_key db den sn = None
  end.
Proof. unfold Db.get_page_by_sn_lock. by destruct (Db.pages db !! _). Qed.

(** One block: the buffer keeps its length and changes in the key area of
    the block only; bytes stay bytes; the result byte of the block is set
    and no other; a block answered with 0 leaves the pages alone; the page
    size and the modification stamp stay; a block whose denomination byte
    is 0x80 or more is answered with 0. *)
Lemma decrypt_raida_block_step (aens nonce : list Z) (mfs : Z) (i : nat)
    (payload : list Z) (db : Db.store) (out : list Z) :
  let r := KeyExchange.decrypt_raida_block aens nonce mfs i (payload, db, out) in
  length r.1.1 = length payload /\
  (forall p, (p < 21 + i * 26 + 10)%nat \/ (21 + i * 26 + 26 <= p)%nat ->
     byte_at r.1.1 p = byte_at payload p) /\
  ((forall p, 0 <= byte_at aens p) -> (forall p, 0 <= byte_at nonce p) ->
   (forall p, 0 <= byte_at payload p) -> forall p, 0 <= byte_at r.1.1 p) /\
  ((Db.pages r.1.2 = Db.pages db /\ r.2 = <[i := 0x0]> out) \/ r.2 = <[i := 0x1]> out) /\
  (Db.RECORDS_PER_PAGE r.1.2 = Db.RECORDS_PER_PAGE db /\ Db.mfs r.1.2 = Db.mfs db) /\
  ((forall p, 0 <= byte_at aens p) -> (forall p, 0 <= byte_at nonce p) ->
   (forall p, 0 <= byte_at payload p) ->
   128 <= byte_at payload (21 + i * 26 + 5) < 256 -> r.2 = <[i := 0x0]> out).
Proof.
  cbv zeta.
  set (off := (21 + i * 26)%nat).
  set (da := byte_at payload (off + 3)).
  assert (Hkeep : length payload = length payload /\
                  (forall p, (p < off + 10)%nat \/ (off + 26 <= p)%nat ->
                     byte_at payload p = byte_at payload p) /\
                  ((forall p, 0 <= byte_at aens p) -> (forall p, 0 <= byte_at nonce p) ->
                   (forall p, 0 <= byte_at payload p) -> forall p, 0 <= byte_at payload p))
    by done.
  set (payload' := take (off + 10) payload
                   ++ Aes.crypt_ctr (drop (Z.to_nat da) aens) (drop (off + 10) payload) 16 nonce).
  assert (Hnew : length payload' = length payload /\
                 (forall p, (p < off + 10)%nat \/ (off + 26 <= p)%nat ->
                    byte_at payload' p = byte_at payload p) /\
                 ((forall p, 0 <= byte_at aens p) -> (forall p, 0 <= byte_at nonce p) ->
                  (forall p, 0 <= byte_at payload p) -> forall p, 0 <= byte_at payload' p)).
  { unfold payload'. split; [apply (block_payload_at _ nonce payload (off + 10) 0)|]. split.
    - intros p Hp. rewrite (proj2 (block_payload_at _ nonce payload (off + 10) p)).
      case_decide; [lia | done].
    - intros Ha Hn Hp p. rewrite (proj2 (block_payload_at _ nonce payload (off + 10) p)).
      case_decide; [|done]. rewrite !Z.lxor_nonneg. rewrite byte_at_drop.
      split; intros _; [|done]. split; intros _; done. }
  assert (Hky8 : (forall p, 0 <= byte_at aens p) -> (forall p, 0 <= byte_at nonce p) ->
                 (forall p, 0 <= byte_at payload p) ->
                 0 <= byte_at (Aes.crypt_ctr (drop (Z.to_nat da) aens)
                                             (drop (off + 10) payload) 16 nonce) 8).
  { intros Ha Hn Hp. rewrite crypt_ctr_at. case_decide; rewrite ?Z.lxor_nonneg, !byte_at_drop.
    - split; intros _; [|done]. split; intros _; done.
    - done. }
  unfold KeyExchange.decrypt_raida_block. fold off. fold da. cbv zeta.
  destruct (da >? 24).
  { cbn [fst snd]. destruct Hkeep as (H1 & H2 & H3). repeat split; auto. }
  destruct (negb _ && negb _).
  { cbn [fst snd]. destruct Hkeep as (H1 & H2 & H3). repeat split; auto. }
  set (den := KeyExchange.int8_of_byte (byte_at payload (off + 5))).
  set (sn := get_sn payload (off + 6)).
  pose proof (get_page_by_sn_lock_spec db den sn) as Hl1.
  destruct (Db.get_page_by_sn_lock db den sn) as [[page1 db1]|].
  2:{ cbn [fst snd]. destruct Hkeep as (H1 & H2 & H3). repeat split; auto. }
  destruct Hl1 as [_ ->]. fold payload'.
  destruct (negb (_ =? 0xff)).
  { cbn [fst snd]. destruct Hnew as (H1 & H2 & H3). repeat split; auto. }
  destruct (negb (_ =? den) || _) eqn:Hcmp.
  { cbn [fst snd]. destruct Hnew as (H1 & H2 & H3). repeat split; auto. }
  pose proof (get_page_by_sn_lock_spec
                (Db.set_held db (Db.page_key db den sn :: Db.held db)) den sn) as Hl2.
  destruct (Db.get_page_by_sn_lock _ den sn) as [[page2 db2]|].
  { destruct Hl2 as [_ ->]. cbn [fst snd]. destruct Hnew as (H1 & H2 & H3).
    split; [done|]. split; [done|]. split; [done|]. split; [by right|].
    split; [done|].
    intros Ha Hn Hp Hden. exfalso.
    apply orb_false_elim in Hcmp as [Hcmp _]. apply negb_false_iff, Z.eqb_eq in Hcmp.
    specialize (Hky8 Ha Hn Hp). rewrite Hcmp in Hky8.
    unfold den, KeyExchange.int8_of_byte in Hky8.
    destruct (Z.ltb_spec (byte_at payload (off + 5)) 128); lia. }
  cbn [fst snd]. destruct Hnew as (H1 & H2 & H3). repeat split; auto.
Qed.

(** The block loop, [n] blocks from the first. *)
Lemma block_loop_inv (aens nonce : list Z) (mfs : Z) (payload : list Z) (db : Db.store)
    (out : list Z) (n : nat) :
  (n <= length out)%nat ->
  let r := for_loop n 0%nat (KeyExchange.decrypt_raida_block aens nonce mfs)
                    (payload, db, out) in
  length r.2 = length out /\
  (forall p, (21 + n * 26 <= p)%nat -> byte_at r.1.1 p = byte_at payload p) /\
  (Db.pages r.1.2 = Db.pages db \/ exists j, (j < n)%nat /\ byte_at r.2 j = 0x1) /\
  (Db.RECORDS_PER_PAGE r.1.2 = Db.RECORDS_PER_PAGE db /\ Db.mfs r.1.2 = Db.mfs db) /\
  ((forall p, 0 <= byte_at aens p) -> (forall p, 0 <= byte_at nonce p) ->
   (forall p, 0 <= byte_at payload p) ->
   (forall p, 0 <= byte_at r.1.1 p) /\
   forall i, (i < n)%nat -> 128 <= byte_at payload (21 + i * 26 + 5) < 256 ->
     byte_at r.2 i = 0x0).
Proof.
  induction n as [|n IH]; intros Hn; cbv zeta.
  - cbn [for_loop fst snd]. split; [done|]. split; [done|]. split; [by left|].
    split; [done|]. intros _ _ Hp. split; [done | lia].
  - rewrite for_loop_S_r. cbv zeta in IH.
    destruct IH as (Hlen & Hpay & Hdb & (Hrpp & Hmfs) & Hneg); [lia|].
    destruct (for_loop n 0%nat (KeyExchange.decrypt_raida_block aens nonce mfs)
                       (payload, db, out)) as [[payload1 db1] out1].
    cbn [fst snd] in Hlen, Hpay, Hdb, Hrpp, Hmfs, Hneg. change (0 + n)%nat with n.
    destruct (decrypt_raida_block_step aens nonce mfs n payload1 db1 out1)
      as (_ & Hpay' & Hnn' & Hres & (Hrpp' & Hmfs') & Hhigh).
    cbv zeta in Hpay', Hnn', Hres, Hrpp', Hmfs', Hhigh.
    destruct (KeyExchange.decrypt_raida_block aens nonce mfs n (payload1, db1, out1))
      as [[payload2 db2] out2].
    cbn [fst snd] in Hpay', Hnn', Hres, Hrpp', Hmfs', Hhigh |- *.
    assert (Hlen2 : length out2 = length out).
    { destruct Hres as [[_ ->] | ->]; by rewrite length_insert. }
    assert (Hold : forall j, (j < n)%nat -> byte_at out2 j = byte_at out1 j).
    { intros j Hj. destruct Hres as [[_ ->] | ->]; rewrite byte_at_insert;
        case_decide; lia || done. }
    split; [done|]. split; [|split; [|split]].
    + intros p Hp. rewrite Hpay' by lia. apply Hpay. lia.
    + destruct Hres as [[Hsame Hout] | Hout].
      * destruct Hdb as [Heq | (j & Hj & Hone)]; [left; congruence|].
        right. exists j. split; [lia|]. by rewrite Hold.
      * right. exists n. split; [lia|]. rewrite Hout, byte_at_insert.
        case_decide; [done | lia].
    + split; congruence.
    + intros Ha Hnc Hp. destruct (Hneg Ha Hnc Hp) as [Hp1 Hzero].
      split; [by apply Hnn'|].
      intros i Hi Hden. destruct (decide (i = n)) as [->|Hne].
      * rewrite Hhigh; [| done | done | done |].
        -- rewrite byte_at_insert. case_decide; [done | lia].
        -- rewrite Hpay by lia. done.
      * rewrite Hold by lia. apply Hzero; [lia | done].
Qed.

(** X24.  [cmd_decrypt_raida_key] changes nothing but the page store, and
    there the records and dirty flags of the pages only for a block it
    accepts: on every error path the environment is as before, the page
    size and the modification stamp are never changed, and after a run
    that reports [STATUS_SUCCESS] with no result byte equal to 1 every
    page is as before.  (The locks are another matter: see X26.) *)
Theorem decrypt_raida_key_pages_unchanged (ci : conn_info_t) (e : KeyExchange.env) :
  KeyExchange.base (KeyExchange.cmd_decrypt_raida_key ci e).2 = KeyExchange.base e /\
  Db.RECORDS_PER_PAGE (KeyExchange.db (KeyExchange.cmd_decrypt_raida_key ci e).2)
  = Db.RECORDS_PER_PAGE (KeyExchange.db e) /\
  Db.mfs (KeyExchange.db (KeyExchange.cmd_decrypt_raida_key ci e).2) = Db.mfs (KeyExchange.db e) /\
  (command_status (KeyExchange.cmd_decrypt_raida_key ci e).1 <> STATUS_SUCCESS ->
   (KeyExchange.cmd_decrypt_raida_key ci e).2 = e) /\
  (command_status (KeyExchange.cmd_decrypt_raida_key ci e).1 = STATUS_SUCCESS ->
   exists out,
     output (KeyExchange.cmd_decrypt_raida_key ci e).1 = Some out /\
     ((forall j, byte_at out j <> 0x1) ->
      Db.pages (KeyExchange.db (KeyExchange.cmd_decrypt_raida_key ci e).2)
      = Db.pages (KeyExchange.db e))).
Proof.
  unfold KeyExchange.cmd_decrypt_raida_key, get_body_payload.
  destruct (_ <? 49); [by repeat split|].
  destruct (negb _); [by repeat split|].
  destruct (KeyExchange.load_my_enc_coin _ _ _ _ _ _) as [rv aens].
  destruct (rv <? 0); [by repeat split|].
  set (n := Z.to_nat _).
  destruct (if _ <? 0 then None else malloc (KeyExchange.base e) n); [|by repeat split].
  destruct (block_loop_inv aens (nonce ci) (Db.mfs (KeyExchange.db e)) (body ci)
              (KeyExchange.db e) (zeros n) n) as (_ & _ & Hdb & (Hrpp & Hmfs) & _).
  { unfold zeros. by rewrite repeat_length. }
  cbv zeta in Hdb, Hrpp, Hmfs.
  destruct (for_loop n 0%nat _ _) as [[payload1 db1] out1].
  cbn [fst snd KeyExchange.db KeyExchange.set_db] in Hdb, Hrpp, Hmfs |- *.
  split; [reflexivity|]. split; [done|]. split; [done|]. split; [done|].
  intros _. exists out1. split; [reflexivity|].
  intros Hnone. destruct Hdb as [-> | (j & _ & Hone)]; [done|].
  by destruct (Hnone j).
Qed.

(** X25.  A block whose denomination byte is 0x80 or more is never
    accepted: the handler keeps the denomination of the block in an
    [int8_t], where such a byte is negative, and compares it with the
    decrypted byte held in a [uint8_t]; the two never agree, so the
    result byte of the block is 0 whatever key, nonce and page store are
    in use. *)
Theorem decrypt_raida_key_rejects_high_den (ci : conn_info_t) (e : KeyExchange.env) :
  bytes_ok (body ci) = true -> bytes_ok (nonce ci) = true ->
  bytes_ok (KeyExchange.load_my_enc_coin
              (KeyExchange.char_is_signed e) (config (KeyExchange.base e))
              (disk (KeyExchange.base e))
              (KeyExchange.byte_of_int8 (KeyExchange.int8_of_byte (byte_at (body ci) 0)))
              (get_sn (body ci) 1) (zeros 400)).2 = true ->
  command_status (KeyExchange.cmd_decrypt_raida_key ci e).1 = STATUS_SUCCESS ->
  exists out,
    output (KeyExchange.cmd_decrypt_raida_key ci e).1 = Some out /\
    forall i, (i < length out)%nat -> 128 <= byte_at (body ci) (21 + i * 26 + 5) ->
      byte_at out i = 0x0.
Proof.
  intros Hbody Hnonce. unfold KeyExchange.cmd_decrypt_raida_key, get_body_payload.
  destruct (_ <? 49); [discriminate|].
  destruct (negb _); [discriminate|].
  destruct (KeyExchange.load_my_enc_coin _ _ _ _ _ _) as [rv aens]. cbn [snd].
  intros Haens.
  destruct (rv <? 0); [discriminate|].
  set (n := Z.to_nat _).
  destruct (if _ <? 0 then None else malloc (KeyExchange.base e) n); [|discriminate].
  destruct (block_loop_inv aens (nonce ci) (Db.mfs (KeyExchange.db e)) (body ci)
              (KeyExchange.db e) (zeros n) n) as (Hlen & _ & _ & _ & Hneg).
  { unfold zeros. by rewrite repeat_length. }
  cbv zeta in Hlen, Hneg.
  destruct (for_loop n 0%nat _ _) as [[payload1 db1] out1]. cbn [fst snd] in Hlen, Hneg |- *.
  intros _. exists out1. split; [reflexivity|].
  intros i Hi Hden.
  destruct Hneg as [_ Hzero].
  - intros p. by apply bytes_ok_at.
  - intros p. by apply bytes_ok_at.
  - intros p. by apply bytes_ok_at.
  - apply Hzero.
    + rewrite Hlen in Hi. unfold zeros in Hi. by rewrite repeat_length in Hi.
    + split; [done|]. by apply bytes_ok_at.
Qed.

(** The request of the witness is rejected at the comparison and nowhere
    before: its page is in the store, and the key block the handler has
    decrypted in place is well formed, with sentinel 0xff, denomination
    byte 0xF8 and serial number 100. *)
Lemma decrypt_raida_key_rejects_high_den_witness :
  Db.pages (KeyExchange.db demo_high_den_env) !! (-8, 0)
  = Some {| Db.data := zeros (17 * 1024); Db.is_dirty := false |} /\
  take 16 (drop 31 (body (KeyExchange.cmd_decrypt_raida_key demo_high_den_ci
                            demo_high_den_env).1))
  = demo_high_den_plain /\
  exists out,
    output (KeyExchange.cmd_decrypt_raida_key demo_high_den_ci demo_high_den_env).1
    = Some out /\
    forall i, (i < length out)%nat ->
      128 <= byte_at (body demo_high_den_ci) (21 + i * 26 + 5) ->
      byte_at out i = 0x0.
Proof.
  split; [vm_compute; reflexivity|]. split; [vm_compute; reflexivity|].
  apply (decrypt_raida_key_rejects_high_den demo_high_den_ci demo_high_den_env).
  - vm_compute. reflexivity.
  - vm_compute. reflexivity.
  - vm_compute. reflexivity.
  - vm_compute. reflexivity.
Defined.

(** ** [cmd_decrypt_raida_key]: the page locks *)

Lemma release_head (k : Z * Z) (h : list (Z * Z)) : Db.release k (k :: h) = h.
Proof. cbn [Db.release]. by rewrite !Z.eqb_refl. Qed.

Lemma get_sn_ext (p1 p2 : list Z) (off : nat) :
  (forall j, (off <= j < off + 4)%nat -> byte_at p1 j = byte_at p2 j) ->
  get_sn p1 off = get_sn p2 off.
Proof. intros H. unfold get_sn. rewrite !H by lia. reflexivity. Qed.

(** What a block leaves held depends on its header and on which pages
    there are. *)
Lemma lock_left_by_block_ext (db1 db2 : Db.store) (p1 p2 : list Z) (i : nat) :
  Db.RECORDS_PER_PAGE db1 = Db.RECORDS_PER_PAGE db2 ->
  (forall k, is_Some (Db.pages db1 !! k) <-> is_Some (Db.pages db2 !! k)) ->
  (forall j, (21 + i * 26 <= j < 21 + i * 26 + 10)%nat -> byte_at p1 j = byte_at p2 j) ->
  lock_left_by_block db1 p1 i = lock_left_by_block db2 p2 i.
Proof.
  intros Hrpp Hdom Hb. unfold lock_left_by_block, Db.page_key.
  rewrite !Hb by lia. rewrite (get_sn_ext p1 p2) by (intros j Hj; apply Hb; lia).
  rewrite Hrpp.
  destruct (_ >? 24); [done|]. destruct (negb _ && negb _); [done|].
  specialize (Hdom (KeyExchange.int8_of_byte (byte_at p2 (21 + i * 26 + 5)),
                    get_sn p2 (21 + i * 26 + 6) / Db.RECORDS_PER_PAGE db2)).
  destruct (Db.pages db1 !! _) as [q1|], (Db.pages db2 !! _) as [q2|]; try done.
  - destruct Hdom as [Hdom _]. by destruct Hdom.
  - destruct Hdom as [_ Hdom]. by destruct Hdom.
Qed.

(** One block: the lock it leaves, and the pages that exist. *)
Lemma decrypt_raida_block_locks (aens nonce : list Z) (mfs : Z) (i : nat)
    (payload : list Z) (db : Db.store) (out : list Z) :
  let r := KeyExchange.decrypt_raida_block aens nonce mfs i (payload, db, out) in
  Db.held r.1.2 = lock_left_by_block db payload i ++ Db.held db /\
  forall k, is_Some (Db.pages r.1.2 !! k) <-> is_Some (Db.pages db !! k).
Proof.
  cbv zeta. unfold KeyExchange.decrypt_raida_block, lock_left_by_block. cbv zeta.
  destruct (_ >? 24); [done|]. destruct (negb _ && negb _); [done|].
  set (den := KeyExchange.int8_of_byte _). set (sn := get_sn payload _).
  pose proof (get_page_by_sn_lock_spec db den sn) as Hl1.
  destruct (Db.get_page_by_sn_lock db den sn) as [[page1 db1]|].
  2:{ rewrite Hl1. done. }
  destruct Hl1 as [Hp1 ->]. rewrite Hp1.
  destruct (negb (_ =? 0xff)); [done|].
  destruct (negb _ || _); [done|].
  pose proof (get_page_by_sn_lock_spec
                (Db.set_held db (Db.page_key db den sn :: Db.held db)) den sn) as Hl2.
  destruct (Db.get_page_by_sn_lock _ den sn) as [[page2 db2]|]; [|done].
  destruct Hl2 as [_ ->].
  cbn [fst snd Db.unlock_page Db.put_page Db.set_held Db.held Db.pages Db.RECORDS_PER_PAGE
       Db.page_key].
  change (Db.page_key db den sn) with (den, sn / Db.RECORDS_PER_PAGE db).
  rewrite release_head. split; [done|].
  intros k. destruct (decide (k = (den, sn / Db.RECORDS_PER_PAGE db))) as [->|Hk].
  - rewrite lookup_insert_eq. change (Db.page_key db den sn) with (den, sn / Db.RECORDS_PER_PAGE db) in Hp1.
    rewrite Hp1. split; intros _; eexists; reflexivity.
  - by rewrite lookup_insert_ne.
Qed.

(** The locks left by [n] blocks, the latest first. *)
Lemma block_loop_locks (aens nonce : list Z) (mfs : Z) (payload : list Z) (db : Db.store)
    (out : list Z) (n : nat) :
  (n <= length out)%nat ->
  let r := for_loop n 0%nat (KeyExchange.decrypt_raida_block aens nonce mfs)
                    (payload, db, out) in
  Db.held r.1.2
  = concat (rev (map (lock_left_by_block db payload) (seq 0 n))) ++ Db.held db /\
  forall k, is_Some (Db.pages r.1.2 !! k) <-> is_Some (Db.pages db !! k).
Proof.
  induction n as [|n IH]; intros Hn; cbv zeta; [done|].
  rewrite for_loop_S_r. cbv zeta in IH. destruct IH as [Hheld Hdom]; [lia|].
  destruct (block_loop_inv aens nonce mfs payload db out n) as (_ & Hpay & _ & (Hrpp & _) & _);
    [lia|]. cbv zeta in Hpay, Hrpp.
  destruct (for_loop n 0%nat (KeyExchange.decrypt_raida_block aens nonce mfs)
                     (payload, db, out)) as [[payload1 db1] out1].
  cbn [fst snd] in Hheld, Hdom, Hpay, Hrpp. change (0 + n)%nat with n.
  destruct (decrypt_raida_block_locks aens nonce mfs n payload1 db1 out1) as [Hheld' Hdom'].
  cbv zeta in Hheld', Hdom'.
  rewrite Hheld', Hheld. split.
  - rewrite seq_S, map_app, rev_app_distr. cbn [map rev app concat].
    rewrite <- app_assoc. change (0 + n)%nat with n. f_equal.
    apply lock_left_by_block_ext; [done | done |]. intros j Hj. apply Hpay. lia.
  - intros k. by rewrite Hdom'.
Qed.

(** X26.  [cmd_decrypt_raida_key] returns with page locks held.  Every
    block whose peer number and split id are in range and whose page is
    in the store leaves the lock of that page taken, whether the block is
    accepted or rejected: a rejected block goes on to the next round
    without [unlock_page], an accepted one takes the lock twice and gives
    it back once.  After a run that reports [STATUS_SUCCESS] the locks
    held are those, latest first, on top of the ones held before. *)
Theorem decrypt_raida_key_leaves_locks (ci : conn_info_t) (e : KeyExchange.env) :
  command_status (KeyExchange.cmd_decrypt_raida_key ci e).1 = STATUS_SUCCESS ->
  exists out,
    output (KeyExchange.cmd_decrypt_raida_key ci e).1 = Some out /\
    Db.held (KeyExchange.db (KeyExchange.cmd_decrypt_raida_key ci e).2)
    = concat (rev (map (lock_left_by_block (KeyExchange.db e) (body ci))
                       (seq 0 (length out))))
      ++ Db.held (KeyExchange.db e).
Proof.
  unfold KeyExchange.cmd_decrypt_raida_key, get_body_payload.
  destruct (_ <? 49); [discriminate|].
  destruct (negb _); [discriminate|].
  destruct (KeyExchange.load_my_enc_coin _ _ _ _ _ _) as [rv aens].
  destruct (rv <? 0); [discriminate|].
  set (n := Z.to_nat _).
  destruct (if _ <? 0 then None else malloc (KeyExchange.base e) n); [|discriminate].
  assert (Hn : (n <= length (zeros n))%nat) by (unfold zeros; by rewrite repeat_length).
  destruct (block_loop_locks aens (nonce ci) (Db.mfs (KeyExchange.db e)) (body ci)
              (KeyExchange.db e) (zeros n) n Hn) as [Hheld _].
  destruct (block_loop_inv aens (nonce ci) (Db.mfs (KeyExchange.db e)) (body ci)
              (KeyExchange.db e) (zeros n) n Hn) as (Hlen & _).
  cbv zeta in Hheld, Hlen.
  destruct (for_loop n 0%nat _ _) as [[payload1 db1] out1].
  cbn [fst snd KeyExchange.db KeyExchange.set_db] in Hheld, Hlen |- *.
  intros _. exists out1. split; [reflexivity|].
  rewrite Hheld, Hlen. unfold zeros. by rewrite repeat_length.
Qed.

Lemma decrypt_raida_key_leaves_locks_witness :
  Db.held (KeyExchange.db demo_env) = [] /\
  Db.held (KeyExchange.db (KeyExchange.cmd_decrypt_raida_key (demo_decrypt_ci 0) demo_env).2)
  = [(1, 0)] /\
  exists out,
    output (KeyExchange.cmd_decrypt_raida_key (demo_decrypt_ci 0) demo_env).1 = Some out /\
    Db.held (KeyExchange.db (KeyExchange.cmd_decrypt_raida_key (demo_decrypt_ci 0) demo_env).2)
    = concat (rev (map (lock_left_by_block (KeyExchange.db demo_env)
                                           (body (demo_decrypt_ci 0)))
                       (seq 0 (length out))))
      ++ Db.held (KeyExchange.db demo_env).
Proof.
  split; [reflexivity|]. split; [vm_compute; reflexivity|].
  apply (decrypt_raida_key_leaves_locks (demo_decrypt_ci 0) demo_env).
  vm_compute. reflexivity.
Defined.
